(** * Knightmare chess engine: board, position, move generation and search

    A shallow embedding of [chess_engine/board.py], [utils.py],
    [game_state.py], [move_generation.py], [evaluation.py] and [search.py]
    and of the move parser of [main.py], followed by the properties of the
    engine's specification and by further properties of the code.

    Conventions of the embedding.
    - A board cell is a one-character Python string, modelled as [ascii]
      (code points 0..255); ["."] is the empty cell.
    - Python integers are [Z]; squares are [row * 8 + col] with row 0 = rank 8.
    - A text (a FEN, a move typed by the user) is a [string], a sequence of
      characters with code points 0..255.
    - A raised exception is [None] in [option].
    - The repetition table (a [dict] from strings to ints) is a
      [gmap string Z].
    - Scores are Python floats on which the search only uses order,
      negation and the constants [0.0], [-inf], [inf] and the mate value;
      they are modelled as rationals extended with the two infinities. *)

From Stdlib Require Import ZArith List Ascii String QArith Lia Bool DecimalString DecimalPos.
From stdpp Require Import gmap strings list.
Import ListNotations.

Local Open Scope string_scope.
Local Open Scope list_scope.
Local Open Scope Z_scope.

(** ** Python characters and strings *)

Module Py.

Definition code (c : ascii) : Z := Z.of_nat (nat_of_ascii c).

Definition chr (z : Z) : ascii := ascii_of_nat (Z.to_nat z).

Definition between (lo hi : Z) (c : ascii) : bool :=
  (lo <=? code c) && (code c <=? hi).

(** [str.isdigit]: the ASCII digits and the superscript digits of Latin-1. *)
Definition isdigit (c : ascii) : bool :=
  between 48 57 c || (code c =? 178) || (code c =? 179) || (code c =? 185).

(** [int(ch)] for a one-character string: only the decimal digits convert,
    [ValueError] otherwise. *)
Definition int_of_char (c : ascii) : option Z :=
  if between 48 57 c then Some (code c - 48) else None.

(** [str.isupper] on one character. *)
Definition isupper (c : ascii) : bool :=
  between 65 90 c || between 192 214 c || between 216 222 c.

(** [str.upper] on one character.  Outside a..z Python's result is never an
    ASCII letter, and the engine only compares the result with ASCII capitals,
    so the other characters are left alone. *)
Definition upper (c : ascii) : ascii :=
  if between 97 122 c then chr (code c - 32) else c.

(** [str.lower] on one character, with the same proviso. *)
Definition lower (c : ascii) : ascii :=
  if between 65 90 c then chr (code c + 32) else c.

(** [str(n)] for an integer.  CPython prints an integer of at most 4300
    digits and raises [ValueError] on a longer one: the model is [str] on
    the integers below 10^4300 in absolute value, and what is proved of a
    printed clock assumes that bound. *)
Definition str (z : Z) : string := NilZero.string_of_int (Z.to_int z).

(** [s.split(sep)] for a one-character separator. *)
Fixpoint split (sep : ascii) (s : string) : list string :=
  match s with
  | EmptyString => [EmptyString]
  | String c rest =>
      if Ascii.eqb c sep then EmptyString :: split sep rest
      else match split sep rest with
           | [] => [String c EmptyString]
           | w :: ws => String c w :: ws
           end
  end.

(** [sep.join(parts)]. *)
Fixpoint join (sep : string) (parts : list string) : string :=
  match parts with
  | [] => EmptyString
  | [p] => p
  | p :: ps => p +:+ sep +:+ join sep ps
  end.

(** [c in s] for a one-character [c]. *)
Fixpoint contains (c : ascii) (s : string) : bool :=
  match s with
  | EmptyString => false
  | String d rest => Ascii.eqb c d || contains c rest
  end.

(** [s.replace(c, "")] for a one-character [c]. *)
Fixpoint remove (c : ascii) (s : string) : string :=
  match s with
  | EmptyString => EmptyString
  | String d rest => if Ascii.eqb c d then remove c rest else String d (remove c rest)
  end.

(** [xs[i]] with Python's negative indices; [None] is [IndexError]. *)
Definition index {A} (xs : list A) (i : Z) : option nat :=
  let n := Z.of_nat (length xs) in
  if (0 <=? i) && (i <? n) then Some (Z.to_nat i)
  else if (- n <=? i) && (i <? 0) then Some (Z.to_nat (n + i))
  else None.

Definition getitem {A} (xs : list A) (i : Z) : option A :=
  match index xs i with
  | Some k => xs !! k
  | None => None
  end.

Definition setitem {A} (xs : list A) (i : Z) (x : A) : option (list A) :=
  match index xs i with
  | Some k => Some (<[k:=x]> xs)
  | None => None
  end.

(** [str.isspace] on one character: the white space that [str.strip] and
    [str.split] without argument take away (code points up to 255). *)
Definition isspace (c : ascii) : bool :=
  between 9 13 c || between 28 32 c || (code c =? 133) || (code c =? 160).

Fixpoint lstrip (s : string) : string :=
  match s with
  | EmptyString => EmptyString
  | String c rest => if isspace c then lstrip rest else s
  end.

Fixpoint rstrip (s : string) : string :=
  match s with
  | EmptyString => EmptyString
  | String c rest =>
      match rstrip rest with
      | EmptyString => if isspace c then EmptyString else String c EmptyString
      | r => String c r
      end
  end.

(** [s.strip()]. *)
Definition strip (s : string) : string := rstrip (lstrip s).

(** [str.lower] on one character of code point up to 255: the capitals of
    ASCII and of Latin-1. *)
Definition lower_char (c : ascii) : ascii :=
  if between 65 90 c || between 192 214 c || between 216 222 c then chr (code c + 32) else c.

(** [s.lower()]. *)
Fixpoint lower_str (s : string) : string :=
  match s with
  | EmptyString => EmptyString
  | String c rest => String (lower_char c) (lower_str rest)
  end.

(** [s.split()] without argument.  [words s] is the word that [s] starts
    with (empty if [s] starts with white space) and the words after it. *)
Fixpoint words (s : string) : string * list string :=
  match s with
  | EmptyString => (EmptyString, [])
  | String c rest =>
      let '(w, ws) := words rest in
      if isspace c
      then (EmptyString, match w with EmptyString => ws | _ => w :: ws end)
      else (String c w, ws)
  end.

Definition split_ws (s : string) : list string :=
  let '(w, ws) := words s in
  match w with EmptyString => ws | _ => w :: ws end.

(** The digits of an integer literal after its sign: decimal digits, with
    single underscores between them. *)
Fixpoint int_digits (acc : Z) (after_digit : bool) (s : string) : option Z :=
  match s with
  | EmptyString => if after_digit then Some acc else None
  | String c rest =>
      if between 48 57 c then int_digits (acc * 10 + (code c - 48)) true rest
      else if Ascii.eqb c "_" && after_digit then
        match rest with
        | String d _ => if between 48 57 d then int_digits acc false rest else None
        | EmptyString => None
        end
      else None
  end.

(** [int(s)] for a string of code points up to 255; [None] is [ValueError]. *)
Definition int (s : string) : option Z :=
  match strip s with
  | String "+" rest => int_digits 0 false rest
  | String "-" rest => option_map Z.opp (int_digits 0 false rest)
  | t => int_digits 0 false t
  end.

End Py.

(** ** utils.py *)

Inductive color := White | Black.

Definition color_eqb (a b : color) : bool :=
  match a, b with
  | White, White | Black, Black => true
  | _, _ => false
  end.

Definition opposite (c : color) : color :=
  match c with White => Black | Black => White end.

(** The side is the string ["w"] or ["b"]. *)
Definition color_str (c : color) : string :=
  match c with White => "w" | Black => "b" end.

Definition FILES : string := "abcdefgh".
Definition RANKS : string := "12345678".

Definition EMPTY : ascii := ".".

(** [divmod(index, 8)]. *)
Definition row_of (idx : Z) : Z := idx / 8.
Definition col_of (idx : Z) : Z := idx mod 8.

Definition index_to_square (idx : Z) : string :=
  let row := row_of idx in
  let col := col_of idx in
  match String.get (Z.to_nat col) FILES with
  | Some f => String f (Py.str (8 - row))
  | None => EmptyString
  end.

Fixpoint str_find (c : ascii) (s : string) : option Z :=
  match s with
  | EmptyString => None
  | String d rest =>
      if Ascii.eqb c d then Some 0
      else match str_find c rest with
           | Some k => Some (k + 1)
           | None => None
           end
  end.

Definition square_to_index (square : string) : option Z :=
  match square with
  | String f (String r EmptyString) =>
      match str_find f FILES, str_find r RANKS with
      | Some file, Some rk => Some ((8 - (rk + 1)) * 8 + file)
      | _, _ => None
      end
  | _ => None
  end.

(** [piece_color]: [None] for the empty cell, white for an upper-case
    character, black for anything else. *)
Definition piece_color (piece : ascii) : option color :=
  if Ascii.eqb piece EMPTY then None
  else if Py.isupper piece then Some White else Some Black.

Definition PIECE_VALUES (k : ascii) : option Z :=
  if Ascii.eqb k "P" then Some 100
  else if Ascii.eqb k "N" then Some 320
  else if Ascii.eqb k "B" then Some 330
  else if Ascii.eqb k "R" then Some 500
  else if Ascii.eqb k "Q" then Some 900
  else if Ascii.eqb k "K" then Some 0
  else None.

(** ** board.py *)

Definition START_FEN : string := "rnbqkbnr/pppppppp/8/8/8/8/PPPPPPPP/RNBQKBNR".

Module Board.

(** The inner loop of [from_fen] over the characters of one row. *)
Fixpoint expand_row (row : string) : option (list ascii) :=
  match row with
  | EmptyString => Some []
  | String ch rest =>
      if Py.isdigit ch then
        match Py.int_of_char ch with
        | Some n => option_map (app (repeat EMPTY (Z.to_nat n))) (expand_row rest)
        | None => None
        end
      else option_map (cons ch) (expand_row rest)
  end.

Fixpoint expand_rows (rows : list string) : option (list ascii) :=
  match rows with
  | [] => Some []
  | r :: rs =>
      match expand_row r, expand_rows rs with
      | Some a, Some b => Some (a ++ b)
      | _, _ => None
      end
  end.

Definition from_fen (board_fen : string) : option (list ascii) :=
  let rows := Py.split "/" board_fen in
  if negb (length rows =? 8)%nat then None
  else match expand_rows rows with
       | Some squares => if negb (length squares =? 64)%nat then None else Some squares
       | None => None
       end.

(** The loop of [to_fen] over one row, [empty] being the running count. *)
Fixpoint fen_row_from (empty : Z) (row : list ascii) : string :=
  match row with
  | [] => if empty =? 0 then EmptyString else Py.str empty
  | piece :: rest =>
      if Ascii.eqb piece EMPTY then fen_row_from (empty + 1) rest
      else (if empty =? 0 then EmptyString else Py.str empty)
             +:+ String piece (fen_row_from 0 rest)
  end.

Definition fen_row (row : list ascii) : string := fen_row_from 0 row.

(** [squares[r*8 : (r+1)*8]]. *)
Definition row_slice (squares : list ascii) (r : nat) : list ascii :=
  firstn 8 (skipn (r * 8) squares).

Definition to_fen (squares : list ascii) : string :=
  Py.join "/" (map (fun r => fen_row (row_slice squares r)) (seq 0 8)).

Fixpoint locate_from (target : ascii) (idx : Z) (squares : list ascii) : option Z :=
  match squares with
  | [] => None
  | piece :: rest =>
      if Ascii.eqb piece target then Some idx else locate_from target (idx + 1) rest
  end.

(** [locate_king]: [None] is the [ValueError] of a missing king. *)
Definition locate_king (squares : list ascii) (c : color) : option Z :=
  locate_from (match c with White => "K" | Black => "k" end)%char 0 squares.

End Board.

(** ** game_state.py *)

Record Move := mkMove {
  from_square : Z;
  to_square : Z;
  promotion : option ascii;
  is_castle : bool;
  is_en_passant : bool;
  captured : option ascii
}.

(** [Move.__str__]: the two squares and the promotion piece, if any. *)
Definition Move_str (m : Move) : string :=
  index_to_square (from_square m) +:+ index_to_square (to_square m)
    +:+ match promotion m with
        | Some p => String p EmptyString
        | None => EmptyString
        end.

(** One entry of [GameState.history] (the dict pushed by [make_move]). *)
Record Undo := mkUndo {
  u_move : Move;
  u_captured : option ascii;
  u_moved_piece : ascii;
  u_prev_castling : string;
  u_prev_en_passant : option Z;
  u_prev_halfmove : Z;
  u_prev_fullmove : Z;
  u_prev_side : color;
  u_rook_move : option (Z * Z * ascii);
  u_ep_capture_square : option Z;
  u_rep_key : string
}.

(** [history] is a Python list used as a stack ([append] / [pop]); the head
    of the Rocq list is its last element. *)
Record GameState := mkState {
  board : list ascii;
  side_to_move : color;
  castling_rights : string;
  en_passant : option Z;
  halfmove_clock : Z;
  fullmove_number : Z;
  history : list Undo;
  repetition : gmap string Z
}.

(** [square_to_index] on a literal such as ["g1"], where it cannot raise. *)
Definition sq (name : string) : Z := default 0 (square_to_index name).

(** A read of [board[idx]] at a square that the caller has checked to be on
    the board.  Boards have 64 cells ([Board.from_fen] checks it and item
    assignment keeps it), so such a read never raises.  On a shorter board
    Python raises [IndexError] where the model reads an empty cell: what is
    proved of such a read assumes the 64 cells. *)
Definition cell (b : list ascii) (idx : Z) : ascii := default EMPTY (b !! Z.to_nat idx).

Definition on_board (r c : Z) : bool :=
  (0 <=? r) && (r <? 8) && (0 <=? c) && (c <? 8).

Definition white_black (c : color) (w b : ascii) : ascii :=
  match c with White => w | Black => b end.

Definition knight_steps : list (Z * Z) :=
  [(-2, -1); (-2, 1); (-1, -2); (-1, 2); (1, -2); (1, 2); (2, -1); (2, 1)].
Definition diag_dirs : list (Z * Z) := [(-1, -1); (-1, 1); (1, -1); (1, 1)].
Definition ortho_dirs : list (Z * Z) := [(-1, 0); (1, 0); (0, -1); (0, 1)].

(** A [while on_board(nr, nc)] loop walks at most eight squares of the board. *)
Definition RAY_FUEL : nat := 8.

Module GameState.

Definition repetition_key (st : GameState) : string :=
  let castling := if String.eqb (castling_rights st) "" then "-" else castling_rights st in
  let ep := match en_passant st with
            | None => "-"
            | Some e => index_to_square e
            end in
  Board.to_fen (board st) +:+ " " +:+ color_str (side_to_move st) +:+ " "
    +:+ castling +:+ " " +:+ ep.

Definition with_repetition (st : GameState) (rep : gmap string Z) : GameState :=
  mkState (board st) (side_to_move st) (castling_rights st) (en_passant st)
          (halfmove_clock st) (fullmove_number st) (history st) rep.

Definition update_repetition (st : GameState) : GameState * string :=
  let key := repetition_key st in
  (with_repetition st (<[key := default 0 (repetition st !! key) + 1]> (repetition st)), key).

(** [GameState.__init__]. *)
Definition init (b : list ascii) (side : color) (castling : string)
    (ep : option Z) (halfmove fullmove : Z) : GameState :=
  fst (update_repetition
         (mkState b side (if String.eqb castling "-" then "" else castling)
                  ep halfmove fullmove [] ∅)).

Definition starting_state : option GameState :=
  b ← Board.from_fen START_FEN; Some (init b White "KQkq" None 0 1).

Definition is_draw_by_repetition (st : GameState) : bool :=
  3 <=? default 0 (repetition st !! repetition_key st).

(** One ray of a sliding attack: the first piece met decides. *)
Fixpoint attack_ray (fuel : nat) (b : list ascii) (hits : ascii -> bool)
    (nr nc dr dc : Z) : bool :=
  match fuel with
  | O => false
  | S fuel' =>
      if on_board nr nc then
        let piece := cell b (nr * 8 + nc) in
        if negb (Ascii.eqb piece EMPTY) then hits piece
        else attack_ray fuel' b hits (nr + dr) (nc + dc) dr dc
      else false
  end.

(** A piece [target] one step away in one of [steps]. *)
Definition step_attack (b : list ascii) (target : ascii) (row col : Z)
    (steps : list (Z * Z)) : bool :=
  existsb (fun d => let nr := row + fst d in
                    let nc := col + snd d in
                    on_board nr nc && Ascii.eqb (cell b (nr * 8 + nc)) target) steps.

Definition is_square_attacked (st : GameState) (square : Z) (by_color : color) : bool :=
  let row := row_of square in
  let col := col_of square in
  let b := board st in
  let pawn_dir := match by_color with White => 1 | Black => -1 end in
  step_attack b (white_black by_color "P" "p") row col [(pawn_dir, -1); (pawn_dir, 1)]
  || step_attack b (white_black by_color "N" "n") row col knight_steps
  || existsb (fun d => attack_ray RAY_FUEL b
                (fun piece => Ascii.eqb piece (white_black by_color "B" "b")
                              || Ascii.eqb piece (white_black by_color "Q" "q"))
                (row + fst d) (col + snd d) (fst d) (snd d)) diag_dirs
  || existsb (fun d => attack_ray RAY_FUEL b
                (fun piece => Ascii.eqb piece (white_black by_color "R" "r")
                              || Ascii.eqb piece (white_black by_color "Q" "q"))
                (row + fst d) (col + snd d) (fst d) (snd d)) ortho_dirs
  || step_attack b (white_black by_color "K" "k") row col (diag_dirs ++ ortho_dirs).

Definition is_in_check (st : GameState) (c : color) : option bool :=
  king_sq ← Board.locate_king (board st) c;
  Some (is_square_attacked st king_sq (opposite c)).

Definition insufficient_material (st : GameState) : bool :=
  let pieces := List.filter (fun p => negb (Ascii.eqb p EMPTY)) (board st) in
  if forallb (fun p => Ascii.eqb (Py.upper p) "K") pieces then true
  else if (length pieces =? 3)%nat then
    let minor_pieces :=
      List.filter (fun p => Ascii.eqb (Py.upper p) "B" || Ascii.eqb (Py.upper p) "N") pieces in
    (length minor_pieces =? 1)%nat
  else false.

(** The rook displacement of a castle that lands the king on [to]. *)
Definition castle_rook_squares (to : Z) : option (Z * Z) :=
  if to =? sq "g1" then Some (sq "h1", sq "f1")
  else if to =? sq "c1" then Some (sq "a1", sq "d1")
  else if to =? sq "g8" then Some (sq "h8", sq "f8")
  else if to =? sq "c8" then Some (sq "a8", sq "d8")
  else None.

Definition remove_castle (right : ascii) (rights : string) : string :=
  Py.remove right rights.

Definition is_piece (o : option ascii) (p : ascii) : bool :=
  match o with Some c => Ascii.eqb c p | None => false end.

(** The castling-rights update of [make_move]. *)
Definition update_castling (rights : string) (moved_piece : ascii)
    (captured_piece : option ascii) (from to : Z) : string :=
  let r1 :=
    if Ascii.eqb moved_piece "K" then remove_castle "Q" (remove_castle "K" rights)
    else if Ascii.eqb moved_piece "k" then remove_castle "q" (remove_castle "k" rights)
    else rights in
  let r2 :=
    if Ascii.eqb moved_piece "R" then
      if from =? sq "a1" then remove_castle "Q" r1
      else if from =? sq "h1" then remove_castle "K" r1
      else r1
    else r1 in
  let r3 :=
    if Ascii.eqb moved_piece "r" then
      if from =? sq "a8" then remove_castle "q" r2
      else if from =? sq "h8" then remove_castle "k" r2
      else r2
    else r2 in
  let r4 := if is_piece captured_piece "R" && (to =? sq "a1") then remove_castle "Q" r3 else r3 in
  let r5 := if is_piece captured_piece "R" && (to =? sq "h1") then remove_castle "K" r4 else r4 in
  let r6 := if is_piece captured_piece "r" && (to =? sq "a8") then remove_castle "q" r5 else r5 in
  if is_piece captured_piece "r" && (to =? sq "h8") then remove_castle "k" r6 else r6.

(** The en-passant target left by a move of [moved_piece]. *)
Definition new_en_passant (moved_piece : ascii) (from to : Z) : option Z :=
  if Ascii.eqb (Py.upper moved_piece) "P" && (Z.abs (to - from) =? 16)
  then Some ((to + from) / 2) else None.

(** [make_move]; [None] is a raised [ValueError] or [IndexError]. *)
Definition make_move (st : GameState) (move : Move) : option GameState :=
  let b := board st in
  let side := side_to_move st in
  moved_piece ← Py.getitem b (from_square move);
  if Ascii.eqb moved_piece EMPTY then None
  else
    target_piece ← Py.getitem b (to_square move);
    let captured0 := if negb (Ascii.eqb target_piece EMPTY) then Some target_piece else None in
    '(b1, captured_piece, ep_capture_square) ←
      (if is_en_passant move then
         let s := match side with
                  | White => to_square move + 8
                  | Black => to_square move - 8
                  end in
         c ← Py.getitem b s;
         b' ← Py.setitem b s EMPTY;
         Some (b', Some c, Some s)
       else Some (b, captured0, None));
    b2 ← Py.setitem b1 (from_square move) EMPTY;
    let placed_piece :=
      match promotion move with
      | Some p => match side with White => Py.upper p | Black => Py.lower p end
      | None => moved_piece
      end in
    b3 ← Py.setitem b2 (to_square move) placed_piece;
    '(b4, rook_move) ←
      (if is_castle move then
         match castle_rook_squares (to_square move) with
         | Some (rook_from, rook_to) =>
             rook_piece ← Py.getitem b3 rook_from;
             b' ← Py.setitem b3 rook_from EMPTY;
             b'' ← Py.setitem b' rook_to rook_piece;
             Some (b'', Some (rook_from, rook_to, rook_piece))
         | None => Some (b3, None)
         end
       else Some (b3, None));
    let rights := update_castling (castling_rights st) moved_piece captured_piece
                    (from_square move) (to_square move) in
    let ep := new_en_passant moved_piece (from_square move) (to_square move) in
    let halfmove :=
      if Ascii.eqb (Py.upper moved_piece) "P" || bool_decide (is_Some captured_piece)
      then 0 else halfmove_clock st + 1 in
    let fullmove :=
      match side with Black => fullmove_number st + 1 | White => fullmove_number st end in
    let '(st', rep_key) :=
      update_repetition
        (mkState b4 (opposite side) rights ep halfmove fullmove (history st) (repetition st)) in
    Some (mkState (board st') (side_to_move st') (castling_rights st') (en_passant st')
            (halfmove_clock st') (fullmove_number st')
            (mkUndo move captured_piece moved_piece (castling_rights st) (en_passant st)
                    (halfmove_clock st) (fullmove_number st) side rook_move
                    ep_capture_square rep_key :: history st')
            (repetition st')).

(** [undo_move]; the board writes repeat indices that [make_move] has
    already used, [None] stands for an [IndexError] on a foreign record. *)
Definition undo_move (st : GameState) : option GameState :=
  match history st with
  | [] => Some st
  | last :: hist =>
      let move := u_move last in
      let rep_key := u_rep_key last in
      let n := default 1 (repetition st !! rep_key) - 1 in
      let rep1 := <[rep_key := n]> (repetition st) in
      let rep2 := if n <=? 0 then delete rep_key rep1 else rep1 in
      b1 ← Py.setitem (board st) (from_square move) (u_moved_piece last);
      b2 ← Py.setitem b1 (to_square move) (default EMPTY (u_captured last));
      b3 ← match is_en_passant move, u_ep_capture_square last with
           | true, Some s =>
               b' ← Py.setitem b2 (to_square move) EMPTY;
               c ← u_captured last;
               Py.setitem b' s c
           | _, _ => Some b2
           end;
      b4 ← match promotion move with
           | Some _ => Py.setitem b3 (from_square move) (u_moved_piece last)
           | None => Some b3
           end;
      b5 ← match is_castle move, u_rook_move last with
           | true, Some (rook_from, rook_to, rook_piece) =>
               b' ← Py.setitem b4 rook_from rook_piece;
               Py.setitem b' rook_to EMPTY
           | _, _ => Some b4
           end;
      Some (mkState b5 (u_prev_side last) (u_prev_castling last) (u_prev_en_passant last)
              (u_prev_halfmove last) (u_prev_fullmove last) hist rep2)
  end.

Definition to_fen (st : GameState) : string :=
  let castling := if String.eqb (castling_rights st) "" then "-" else castling_rights st in
  let ep := match en_passant st with
            | None => "-"
            | Some e => index_to_square e
            end in
  Board.to_fen (board st) +:+ " " +:+ color_str (side_to_move st) +:+ " "
    +:+ castling +:+ " " +:+ ep +:+ " " +:+ Py.str (halfmove_clock st)
    +:+ " " +:+ Py.str (fullmove_number st).

(** [from_fen] up to the call of the constructor: the six arguments that it
    passes, the side being the string of the second field. *)
Definition from_fen_args (fen : string)
    : option (list ascii * string * string * option Z * Z * Z) :=
  match Py.split_ws (Py.strip fen) with
  | [p0; p1; p2; p3; p4; p5] =>
      b ← Board.from_fen p0;
      let castling := if String.eqb p2 "-" then "" else p2 in
      ep ← (if String.eqb p3 "-" then Some None else option_map Some (square_to_index p3));
      halfmove ← Py.int p4;
      fullmove ← Py.int p5;
      Some (b, p1, castling, ep, halfmove, fullmove)
  | _ => None
  end.

End GameState.

(** ** move_generation.py *)

Definition color_is (o : option color) (c : color) : bool :=
  match o with Some d => color_eqb d c | None => false end.

Definition PROMOTIONS : list ascii := ["Q"; "R"; "B"; "N"]%char.

Definition king_dirs : list (Z * Z) :=
  [(-1, -1); (-1, 0); (-1, 1); (0, -1); (0, 1); (1, -1); (1, 0); (1, 1)].

Module MoveGen.

Definition captured_of (target_piece : ascii) : option ascii :=
  if negb (Ascii.eqb target_piece EMPTY) then Some target_piece else None.

Definition pawn_moves (st : GameState) (idx : Z) : list Move :=
  let b := board st in
  let side := side_to_move st in
  let enemy := opposite side in
  let row := row_of idx in
  let col := col_of idx in
  let dir := match side with White => -1 | Black => 1 end in
  let start_row := match side with White => 6 | Black => 1 end in
  let promo_row := match side with White => 0 | Black => 7 end in
  let fwd_r := row + dir in
  (if on_board fwd_r col then
     let dest := fwd_r * 8 + col in
     if Ascii.eqb (cell b dest) EMPTY then
       (if fwd_r =? promo_row
        then map (fun promo => mkMove idx dest (Some promo) false false None) PROMOTIONS
        else [mkMove idx dest None false false None])
       ++ (if row =? start_row then
             let dest2 := (row + 2 * dir) * 8 + col in
             if Ascii.eqb (cell b dest2) EMPTY
             then [mkMove idx dest2 None false false None] else []
           else [])
     else []
   else [])
  ++ flat_map
       (fun dc =>
          let cr := row + dir in
          let cc := col + dc in
          if negb (on_board cr cc) then []
          else
            let target := cr * 8 + cc in
            let target_piece := cell b target in
            (if negb (Ascii.eqb target_piece EMPTY) && color_is (piece_color target_piece) enemy
             then if cr =? promo_row
                  then map (fun promo =>
                              mkMove idx target (Some promo) false false (Some target_piece))
                           PROMOTIONS
                  else [mkMove idx target None false false (Some target_piece)]
             else [])
            ++ (match en_passant st with
                | Some e => if target =? e
                            then [mkMove idx target None false true None] else []
                | None => []
                end))
       [-1; 1].

(** Knight and king steps. *)
Definition step_moves (st : GameState) (idx : Z) (steps : list (Z * Z)) : list Move :=
  let b := board st in
  let enemy := opposite (side_to_move st) in
  flat_map
    (fun d =>
       let nr := row_of idx + fst d in
       let nc := col_of idx + snd d in
       if on_board nr nc then
         let dest := nr * 8 + nc in
         let target_piece := cell b dest in
         if Ascii.eqb target_piece EMPTY || color_is (piece_color target_piece) enemy
         then [mkMove idx dest None false false (captured_of target_piece)]
         else []
       else [])
    steps.

(** One ray of a bishop, rook or queen. *)
Fixpoint slide (fuel : nat) (b : list ascii) (enemy : color) (idx nr nc dr dc : Z)
    : list Move :=
  match fuel with
  | O => []
  | S fuel' =>
      if on_board nr nc then
        let dest := nr * 8 + nc in
        let target_piece := cell b dest in
        if Ascii.eqb target_piece EMPTY then
          mkMove idx dest None false false None
            :: slide fuel' b enemy idx (nr + dr) (nc + dc) dr dc
        else if color_is (piece_color target_piece) enemy
             then [mkMove idx dest None false false (Some target_piece)]
             else []
      else []
  end.

Definition slider_moves (st : GameState) (idx : Z) (upper : ascii) : list Move :=
  let directions :=
    (if Ascii.eqb upper "B" || Ascii.eqb upper "Q" then diag_dirs else [])
    ++ (if Ascii.eqb upper "R" || Ascii.eqb upper "Q" then ortho_dirs else []) in
  flat_map
    (fun d => slide RAY_FUEL (board st) (opposite (side_to_move st)) idx
                (row_of idx + fst d) (col_of idx + snd d) (fst d) (snd d))
    directions.

(** One wing of the castling test: the right, the empty squares, the three
    squares of the king's walk. *)
Definition castle_wing (st : GameState) (idx : Z) (right : ascii)
    (empties : list string) (walk : list string) (dest : string) : list Move :=
  if Py.contains right (castling_rights st) then
    if forallb (fun s => Ascii.eqb (cell (board st) (sq s)) EMPTY) empties then
      if negb (GameState.is_square_attacked st idx (opposite (side_to_move st)))
         && forallb (fun s => negb (GameState.is_square_attacked st (sq s)
                                      (opposite (side_to_move st)))) walk
      then [mkMove idx (sq dest) None true false None]
      else []
    else []
  else [].

Definition castling_moves (st : GameState) (idx : Z) : list Move :=
  let row := row_of idx in
  let col := col_of idx in
  match side_to_move st with
  | White =>
      if (row =? 7) && (col =? 4) then
        castle_wing st idx "K" ["f1"; "g1"] ["f1"; "g1"] "g1"
        ++ castle_wing st idx "Q" ["b1"; "c1"; "d1"] ["d1"; "c1"] "c1"
      else []
  | Black =>
      if (row =? 0) && (col =? 4) then
        castle_wing st idx "k" ["f8"; "g8"] ["f8"; "g8"] "g8"
        ++ castle_wing st idx "q" ["b8"; "c8"; "d8"] ["d8"; "c8"] "c8"
      else []
  end.

(** The body of the loop over the board, for the piece on [idx]. *)
Definition piece_moves (st : GameState) (idx : Z) (piece : ascii) : list Move :=
  if Ascii.eqb piece EMPTY || negb (color_is (piece_color piece) (side_to_move st)) then []
  else
    let upper := Py.upper piece in
    if Ascii.eqb upper "P" then pawn_moves st idx
    else if Ascii.eqb upper "N" then step_moves st idx knight_steps
    else if Ascii.eqb upper "B" || Ascii.eqb upper "R" || Ascii.eqb upper "Q"
         then slider_moves st idx upper
    else if Ascii.eqb upper "K" then step_moves st idx king_dirs ++ castling_moves st idx
    else [].

(** [for idx, piece in enumerate(board)]. *)
Fixpoint scan (st : GameState) (idx : Z) (cells : list ascii) : list Move :=
  match cells with
  | [] => []
  | piece :: rest => piece_moves st idx piece ++ scan st (idx + 1) rest
  end.

Definition generate_pseudo_legal_moves (st : GameState) : list Move :=
  scan st 0 (board st).

(** The loop of [generate_legal_moves]: the position is mutated by
    [make_move] and [undo_move] and handed on to the next candidate. *)
Fixpoint legal_loop (c : color) (pseudo_moves : list Move) (st : GameState)
    (legal : list Move) : option (list Move * GameState) :=
  match pseudo_moves with
  | [] => Some (legal, st)
  | move :: rest =>
      st1 ← GameState.make_move st move;
      chk ← GameState.is_in_check st1 c;
      st2 ← GameState.undo_move st1;
      legal_loop c rest st2 (if chk : bool then legal else legal ++ [move])
  end.

(** [generate_legal_moves]: the list and the position it leaves behind. *)
Definition generate_legal_moves (st : GameState) : option (list Move * GameState) :=
  legal_loop (side_to_move st) (generate_pseudo_legal_moves st) st [].

End MoveGen.

(** [GameState.legal_moves_available]: whether the list of legal moves is
    non-empty, and the position that generating it leaves behind. *)
Definition legal_moves_available (st : GameState) : option (bool * GameState) :=
  '(legal, st1) ← MoveGen.generate_legal_moves st;
  Some (match legal with [] => false | _ :: _ => true end, st1).

(** ** evaluation.py and search.py *)

(** Float scores: rationals with the two infinities. *)
Inductive score := NegInf | Fin (q : Q) | PosInf.

Definition score_leb (a b : score) : bool :=
  match a, b with
  | NegInf, _ => true
  | _, PosInf => true
  | Fin x, Fin y => Qle_bool x y
  | _, _ => false
  end.

Definition score_ltb (a b : score) : bool := negb (score_leb b a).

Definition score_neg (a : score) : score :=
  match a with
  | NegInf => PosInf
  | Fin x => Fin (Qopp x)
  | PosInf => NegInf
  end.

(** Python's [max(a, b)]: [b] only when it is strictly greater. *)
Definition score_max (a b : score) : score := if score_ltb a b then b else a.

Definition is_finite (a : score) : Prop := exists q, a = Fin q.

(** An evaluator: a float, or an exception. *)
Definition evaluator := GameState -> option score.

Module Evaluation.

Fixpoint material (cells : list ascii) : option Z :=
  match cells with
  | [] => Some 0
  | piece :: rest =>
      if Ascii.eqb piece EMPTY then material rest
      else
        value ← PIECE_VALUES (Py.upper piece);
        total ← material rest;
        Some ((if color_is (piece_color piece) White then value else - value) + total)
  end.

(** [score / 4000.0], kept as the exact quotient: the float division is
    monotone and exact at 1, so the comparisons with 1 and -1 agree. *)
Definition simple_material_eval (st : GameState) : option Q :=
  total ← material (board st);
  let oriented := (total # 4000)%Q in
  Some (match side_to_move st with White => oriented | Black => Qopp oriented end).

Definition evaluate_position (st : GameState) (model : option evaluator) : option score :=
  match model with
  | None => q ← simple_material_eval st; Some (Fin q)
  | Some f => f st
  end.

Definition PIECE_TO_INDEX (piece : ascii) : option Z :=
  if Ascii.eqb piece "P" then Some 0
  else if Ascii.eqb piece "N" then Some 1
  else if Ascii.eqb piece "B" then Some 2
  else if Ascii.eqb piece "R" then Some 3
  else if Ascii.eqb piece "Q" then Some 4
  else if Ascii.eqb piece "K" then Some 5
  else if Ascii.eqb piece "p" then Some 6
  else if Ascii.eqb piece "n" then Some 7
  else if Ascii.eqb piece "b" then Some 8
  else if Ascii.eqb piece "r" then Some 9
  else if Ascii.eqb piece "q" then Some 10
  else if Ascii.eqb piece "k" then Some 11
  else None.

Definition INPUT_DIM : Z := 12 * 64 + 5.

(** The loop of [encode_game_state] over the squares.  The tensor is a list
    of its entries, which are 0.0, 1.0 and -1.0, written 0, 1 and -1; [None]
    is the [KeyError] of a character that is no piece letter, or an
    [IndexError]. *)
Fixpoint encode_squares (vec : list Z) (idx : Z) (cells : list ascii) : option (list Z) :=
  match cells with
  | [] => Some vec
  | piece :: rest =>
      if Ascii.eqb piece EMPTY then encode_squares vec (idx + 1) rest
      else
        plane ← PIECE_TO_INDEX piece;
        vec' ← Py.setitem vec (plane * 64 + idx) 1;
        encode_squares vec' (idx + 1) rest
  end.

Definition encode_game_state (st : GameState) : option (list Z) :=
  vec ← encode_squares (repeat 0 (Z.to_nat INPUT_DIM)) 0 (board st);
  let offset := 12 * 64 in
  let flag (right : ascii) := if Py.contains right (castling_rights st) then 1 else 0 in
  vec ← Py.setitem vec offset (match side_to_move st with White => 1 | Black => -1 end);
  vec ← Py.setitem vec (offset + 1) (flag "K"%char);
  vec ← Py.setitem vec (offset + 2) (flag "Q"%char);
  vec ← Py.setitem vec (offset + 3) (flag "k"%char);
  Py.setitem vec (offset + 4) (flag "q"%char).

End Evaluation.

(** The three ways a call of the search ends in the model. *)
Inductive result (A : Type) := Ok (a : A) | Raise | OutOfFuel.
Arguments Ok {A} a.
Arguments Raise {A}.
Arguments OutOfFuel {A}.

Definition result_bind {A B} (f : A -> result B) (m : result A) : result B :=
  match m with
  | Ok a => f a
  | Raise => Raise
  | OutOfFuel => OutOfFuel
  end.

#[global] Instance result_mbind : MBind result := @result_bind.
#[global] Instance result_mret : MRet result := @Ok.

Definition try {A} (o : option A) : result A :=
  match o with Some a => Ok a | None => Raise end.

Definition MATE_VALUE : Z := 10000.

Module Search.

Definition move_score (move : Move) : Z :=
  match captured move with
  | Some c => default 0 (PIECE_VALUES (Py.upper c))
  | None => 0
  end.

(** [sorted(moves, key=move_score, reverse=True)]: stable, largest first. *)
Fixpoint insert_move (m : Move) (sorted : list Move) : list Move :=
  match sorted with
  | [] => [m]
  | x :: xs => if move_score m <? move_score x then x :: insert_move m xs
               else m :: x :: xs
  end.

Definition order_moves (moves : list Move) : list Move :=
  foldr insert_move [] moves.

(** The loop of [quiescence_search], [rec] being the recursive call. *)
Fixpoint quiescence_loop (rec : GameState -> score -> score -> option (score * GameState))
    (moves : list Move) (st : GameState) (alpha beta : score)
    : option (score * GameState) :=
  match moves with
  | [] => Some (alpha, st)
  | move :: rest =>
      if negb (bool_decide (is_Some (captured move))) && negb (is_en_passant move)
      then quiescence_loop rec rest st alpha beta
      else
        st1 ← GameState.make_move st move;
        '(v, st2) ← rec st1 (score_neg beta) (score_neg alpha);
        let s := score_neg v in
        st3 ← GameState.undo_move st2;
        if score_leb beta s then Some (beta, st3)
        else quiescence_loop rec rest st3 (score_max alpha s) beta
  end.

(** [quiescence_search]; [depth] is [max(depth, 0)] of the Python argument,
    which the function only tests with [depth <= 0]. *)
Fixpoint quiescence_search (model : option evaluator) (depth : nat) (st : GameState)
    (alpha beta : score) : option (score * GameState) :=
  stand_pat ← Evaluation.evaluate_position st model;
  if score_leb beta stand_pat then Some (beta, st)
  else
    let alpha := score_max alpha stand_pat in
    match depth with
    | O => Some (stand_pat, st)
    | S depth' =>
        '(legal, st1) ← MoveGen.generate_legal_moves st;
        quiescence_loop (quiescence_search model depth') (order_moves legal) st1 alpha beta
    end.

(** The loop of [alpha_beta]. *)
Fixpoint alpha_beta_loop (rec : GameState -> score -> score -> result (score * GameState))
    (moves : list Move) (st : GameState) (value alpha beta : score)
    : result (score * GameState) :=
  match moves with
  | [] => Ok (value, st)
  | move :: rest =>
      st1 ← try (GameState.make_move st move);
      '(v, st2) ← rec st1 (score_neg beta) (score_neg alpha);
      let s := score_neg v in
      st3 ← try (GameState.undo_move st2);
      let value := score_max value s in
      let alpha := score_max alpha s in
      if score_leb beta alpha then Ok (value, st3)
      else alpha_beta_loop rec rest st3 value alpha beta
  end.

(** [alpha_beta]; [fuel] bounds the nesting of the recursive calls (a call
    with a negative [depth] never meets [depth == 0]).  The mate score
    [-MATE_VALUE + (5 - depth)] is a float in Python: the sum is exact while
    its terms stay below 2^53 in absolute value, is rounded above that, and
    [OverflowError] is raised when [5 - depth] is too large for a float.  The
    model holds the exact sum: what is proved of a mate score assumes a depth
    within 2^52. *)
Fixpoint alpha_beta (fuel : nat) (model : option evaluator) (st : GameState) (depth : Z)
    (alpha beta : score) (quiescence_depth : Z) : result (score * GameState) :=
  match fuel with
  | O => OutOfFuel
  | S fuel' =>
      if (100 <=? halfmove_clock st) || GameState.insufficient_material st
         || GameState.is_draw_by_repetition st
      then Ok (Fin 0, st)
      else if depth =? 0
      then try (quiescence_search model (Z.to_nat quiescence_depth) st alpha beta)
      else
        '(legal, st1) ← try (MoveGen.generate_legal_moves st);
        match order_moves legal with
        | [] =>
            chk ← try (GameState.is_in_check st1 (side_to_move st1));
            Ok (if chk : bool then Fin (inject_Z (- MATE_VALUE + (5 - depth))) else Fin 0, st1)
        | legal_moves =>
            alpha_beta_loop
              (fun s a b => alpha_beta fuel' model s (depth - 1) a b quiescence_depth)
              legal_moves st1 NegInf alpha beta
        end
  end.



End Search.

(** ** main.py *)

Module Main.

(** [find_move_from_input]: the move of the list that the text names, if
    any.  The text is a string of code points up to 255. *)
Definition find_move_from_input (move_input : string) (legal_moves : list Move)
    : option Move :=
  match Py.lower_str (Py.strip move_input) with
  | String a (String b (String c (String d rest))) =>
      let matching (promo : option ascii) :=
        match square_to_index (String a (String b EmptyString)),
              square_to_index (String c (String d EmptyString)) with
        | Some from_sq, Some to_sq =>
            List.find
              (fun move =>
                 (from_square move =? from_sq) && (to_square move =? to_sq)
                 && match promo with
                    | None => true
                    | Some p =>
                        match promotion move with
                        | Some q => Ascii.eqb (Py.lower_char q) (Py.lower_char p)
                        | None => false
                        end
                    end)
              legal_moves
        | _, _ => None
        end in
      match rest with
      | EmptyString => matching None
      | String e EmptyString => matching (Some e)
      | _ => None
      end
  | _ => None
  end.

End Main.

(** * Positions the properties speak about *)

(** The position built by [GameState(board, side, castling, ep, halfmove,
    fullmove)] from the board field of a FEN; [GameState.from_fen] only splits
    the six fields and converts them before this call. *)
Definition position (board_fen : string) (side : color) (castling : string)
    (ep : option Z) (halfmove fullmove : Z) : option GameState :=
  b ← Board.from_fen board_fen; Some (GameState.init b side castling ep halfmove fullmove).

(** The pieces of a board, in board order. *)
Definition pieces (b : list ascii) : list ascii :=
  List.filter (fun p => negb (Ascii.eqb p EMPTY)) b.

Definition count_piece (p : ascii) (b : list ascii) : nat :=
  length (List.filter (Ascii.eqb p) b).

(** The invariant of the data model: exactly one king per colour. *)
Definition one_king_per_color (b : list ascii) : Prop :=
  count_piece "K" b = 1%nat /\ count_piece "k" b = 1%nat.

Definition is_minor (p : ascii) : bool :=
  Ascii.eqb p "B" || Ascii.eqb p "N" || Ascii.eqb p "b" || Ascii.eqb p "n".

(** Only the two kings are on the board. *)
Definition only_kings (b : list ascii) : Prop := pieces b ≡ₚ ["K"; "k"]%char.

(** The two kings and one bishop or knight of either colour, nothing else. *)
Definition kings_and_one_minor (b : list ascii) : Prop :=
  exists m, is_minor m = true /\ pieces b ≡ₚ ["K"; "k"; m]%char.

(** A character that [Board.from_fen] stores as one cell: neither a digit
    nor the row separator.  Every piece letter and ["."] is one. *)
Definition cell_char (c : ascii) : bool :=
  negb (Py.isdigit c) && negb (Ascii.eqb c "/").

(** The characters of one row of a well-formed board FEN: piece characters
    and run lengths 1..8, never two run lengths in a row, no literal empty
    cell.  [after_digit] tells whether the previous character was a run
    length. *)
Fixpoint row_chars_ok (after_digit : bool) (row : string) : bool :=
  match row with
  | EmptyString => true
  | String c rest =>
      if Py.between 49 56 c then negb after_digit && row_chars_ok true rest
      else cell_char c && negb (Ascii.eqb c EMPTY) && row_chars_ok false rest
  end.

Definition fen_row_ok (row : string) : bool :=
  row_chars_ok false row
  && match Board.expand_row row with
     | Some cells => (length cells =? 8)%nat
     | None => false
     end.

(** A well-formed board FEN: eight rows of eight cells each. *)
Definition well_formed_board_fen (s : string) : bool :=
  (length (Py.split "/" s) =? 8)%nat && forallb fen_row_ok (Py.split "/" s).

(** ** The shape of a generated move *)

Definition king_of (c : color) : ascii := white_black c "K" "k".

(** The direction of a pawn (in rows) and its home row. *)
Definition pawn_dir (c : color) : Z := match c with White => -1 | Black => 1 end.
Definition pawn_start_row (c : color) : Z := match c with White => 6 | Black => 1 end.

(** A pawn advancing two ranks from its start rank. *)
Definition double_push (st : GameState) (m : Move) : Prop :=
  Py.upper (cell (board st) (from_square m)) = "P"%char
  /\ row_of (from_square m) = pawn_start_row (side_to_move st)
  /\ to_square m = from_square m + 16 * pawn_dir (side_to_move st).

(** An ordinary move or capture, promotions included. *)
Definition normal_move (st : GameState) (m : Move) : Prop :=
  let b := board st in
  let side := side_to_move st in
  is_castle m = false /\ is_en_passant m = false
  /\ from_square m <> to_square m
  /\ captured m = MoveGen.captured_of (cell b (to_square m))
  /\ color_is (piece_color (cell b (to_square m))) side = false
  /\ match promotion m with
     | Some p => In p PROMOTIONS /\ Py.upper (cell b (from_square m)) = "P"%char
     | None => True
     end
  /\ (Py.upper (cell b (from_square m)) = "P"%char ->
      let d := (to_square m - from_square m) * pawn_dir side in
      d = 8 \/ d = 7 \/ d = 9
      \/ (double_push st m /\ promotion m = None
          /\ cell b (from_square m + 8 * pawn_dir side) = EMPTY)).

(** An en-passant capture onto the position's en-passant target. *)
Definition en_passant_move (st : GameState) (m : Move) : Prop :=
  let side := side_to_move st in
  is_en_passant m = true /\ is_castle m = false
  /\ promotion m = None /\ captured m = None
  /\ Py.upper (cell (board st) (from_square m)) = "P"%char
  /\ en_passant st = Some (to_square m)
  /\ row_of (to_square m) = row_of (from_square m) + pawn_dir side
  /\ (col_of (to_square m) = col_of (from_square m) + 1
      \/ col_of (to_square m) = col_of (from_square m) - 1).

(** The home square of the king and the two castling destinations with the
    squares their rooks land on. *)
Definition king_home (c : color) : Z := match c with White => 60 | Black => 4 end.

Definition castle_move (st : GameState) (m : Move) : Prop :=
  let b := board st in
  let side := side_to_move st in
  is_castle m = true /\ is_en_passant m = false
  /\ promotion m = None /\ captured m = None
  /\ cell b (from_square m) = king_of side
  /\ from_square m = king_home side
  /\ (to_square m = king_home side + 2 \/ to_square m = king_home side - 2)
  /\ cell b (to_square m) = EMPTY
  /\ cell b ((from_square m + to_square m) / 2) = EMPTY.

(** What every move of [generate_pseudo_legal_moves] looks like. *)
Definition generated (st : GameState) (m : Move) : Prop :=
  0 <= from_square m < 64
  /\ 0 <= to_square m < 64
  /\ piece_color (cell (board st) (from_square m)) = Some (side_to_move st)
  /\ (normal_move st m \/ en_passant_move st m \/ castle_move st m).

(** ** Well-formed positions *)

(** The en-passant target, when there is one, is an empty square. *)
Definition ep_target_vacant (st : GameState) : Prop :=
  forall e, en_passant st = Some e -> 0 <= e < 64 -> cell (board st) e = EMPTY.

(** The en-passant target, when there is one, does not hold a piece of the
    side to move. *)
Definition ep_target_not_own (st : GameState) : Prop :=
  forall e, en_passant st = Some e -> 0 <= e < 64 ->
            color_is (piece_color (cell (board st) e)) (side_to_move st) = false.

(** The counts of the repetition table are positive: [__init__] starts the
    table with one count of 1, [make_move] adds 1 and [undo_move] removes a
    count that falls to 0. *)
Definition repetition_positive (st : GameState) : Prop :=
  map_Forall (fun _ n => 0 < n) (repetition st).

(** The board after an in-range [board[i] = x]. *)
Definition put (b : list ascii) (i : Z) (x : ascii) : list ascii := <[Z.to_nat i := x]> b.

(** The square of the pawn taken by an en-passant capture onto [to]. *)
Definition ep_victim_square (side : color) (to : Z) : Z :=
  match side with White => to + 8 | Black => to - 8 end.

(** A move without flags from [idx] to an on-board square that is empty or
    holds an enemy piece, with an accurate capture field. *)
Definition plain_move (b : list ascii) (enemy : color) (idx : Z) (m : Move) : Prop :=
  from_square m = idx /\ 0 <= to_square m < 64
  /\ promotion m = None /\ is_castle m = false /\ is_en_passant m = false
  /\ captured m = MoveGen.captured_of (cell b (to_square m))
  /\ (cell b (to_square m) = EMPTY \/ piece_color (cell b (to_square m)) = Some enemy).

(** The position that [make_move] returns when all its index operations are
    in range (see [make_move_generated]): the same steps with total reads and
    writes. *)
Definition after_move (st : GameState) (m : Move) : GameState :=
  let b := board st in
  let side := side_to_move st in
  let from := from_square m in
  let to := to_square m in
  let moved_piece := cell b from in
  let victim := ep_victim_square side to in
  let captured_piece :=
    if is_en_passant m then Some (cell b victim) else MoveGen.captured_of (cell b to) in
  let ep_capture_square := if is_en_passant m then Some victim else None in
  let b1 := if is_en_passant m then put b victim EMPTY else b in
  let placed_piece :=
    match promotion m with
    | Some p => match side with White => Py.upper p | Black => Py.lower p end
    | None => moved_piece
    end in
  let b3 := put (put b1 from EMPTY) to placed_piece in
  let rook_move :=
    if is_castle m then
      match GameState.castle_rook_squares to with
      | Some (rook_from, rook_to) => Some (rook_from, rook_to, cell b3 rook_from)
      | None => None
      end
    else None in
  let b4 :=
    match rook_move with
    | Some (rook_from, rook_to, rook_piece) => put (put b3 rook_from EMPTY) rook_to rook_piece
    | None => b3
    end in
  let rights := GameState.update_castling (castling_rights st) moved_piece captured_piece from to in
  let ep := GameState.new_en_passant moved_piece from to in
  let halfmove :=
    if Ascii.eqb (Py.upper moved_piece) "P" || bool_decide (is_Some captured_piece)
    then 0 else halfmove_clock st + 1 in
  let fullmove :=
    match side with Black => fullmove_number st + 1 | White => fullmove_number st end in
  let moved := mkState b4 (opposite side) rights ep halfmove fullmove (history st) (repetition st) in
  let key := GameState.repetition_key moved in
  mkState b4 (opposite side) rights ep halfmove fullmove
    (mkUndo m captured_piece moved_piece (castling_rights st) (en_passant st)
            (halfmove_clock st) (fullmove_number st) side rook_move ep_capture_square key
       :: history st)
    (<[key := default 0 (repetition st !! key) + 1]> (repetition st)).

(** The candidate [m] passes the test of [generate_legal_moves] in [st]: the
    king of the side [c] is found and is not attacked once [m] is made. *)
Definition keeps_king_safe (st : GameState) (c : color) (m : Move) : bool :=
  match GameState.is_in_check (after_move st m) c with
  | Some false => true
  | _ => false
  end.

(** The standard start position, [GameState.starting_state()]. *)
Definition start : GameState :=
  GameState.init (default [] (Board.from_fen START_FEN)) White "KQkq" None 0 1.

(** ** Castling *)

Inductive wing := Kingside | Queenside.

Definition castle_right (c : color) (w : wing) : ascii :=
  match c, w with
  | White, Kingside => "K"
  | White, Queenside => "Q"
  | Black, Kingside => "k"
  | Black, Queenside => "q"
  end.

(** The squares strictly between the home squares of king and rook. *)
Definition castle_between (c : color) (w : wing) : list Z :=
  match w with
  | Kingside => [king_home c + 1; king_home c + 2]
  | Queenside => [king_home c - 3; king_home c - 2; king_home c - 1]
  end.

(** The king's square and the squares it passes over and lands on. *)
Definition castle_walk (c : color) (w : wing) : list Z :=
  match w with
  | Kingside => [king_home c; king_home c + 1; king_home c + 2]
  | Queenside => [king_home c; king_home c - 1; king_home c - 2]
  end.

Definition castling_move (c : color) (w : wing) : Move :=
  mkMove (king_home c) (match w with Kingside => king_home c + 2 | Queenside => king_home c - 2 end)
         None true false None.

(** The three conditions of the rule: the right is held, the squares between
    king and rook are empty, the king's walk is not attacked. *)
Definition castle_conditions (st : GameState) (w : wing) : Prop :=
  let c := side_to_move st in
  Py.contains (castle_right c w) (castling_rights st) = true
  /\ Forall (fun s => cell (board st) s = EMPTY) (castle_between c w)
  /\ Forall (fun s => GameState.is_square_attacked st s (opposite c) = false) (castle_walk c w).

(** The king of the side to move stands on its home square. *)
Definition king_at_home (st : GameState) : Prop :=
  cell (board st) (king_home (side_to_move st)) = king_of (side_to_move st).

(** ** Positions of a game *)

(** The thirteen characters of a board: the empty cell and the piece letters. *)
Definition piece_letter (c : ascii) : bool := Py.contains c ".PNBRQKpnbrqk".

Definition pawn_of (c : color) : ascii := white_black c "P" "p".

(** The en-passant target, when there is one, is the empty square that an
    enemy pawn has just passed over: that pawn stands right behind it. *)
Definition ep_target_genuine (st : GameState) : Prop :=
  forall e, en_passant st = Some e -> 0 <= e < 64 ->
            cell (board st) e = EMPTY
            /\ cell (board st) (ep_victim_square (side_to_move st) e)
               = pawn_of (opposite (side_to_move st)).

(** A position as a game of chess produces them: a board of 64 piece
    letters with one king per colour, a genuine en-passant target, and the
    side that has just moved not left in check. *)
Definition valid (st : GameState) : Prop :=
  length (board st) = 64%nat
  /\ forallb piece_letter (board st) = true
  /\ one_king_per_color (board st)
  /\ ep_target_genuine st
  /\ repetition_positive st
  /\ GameState.is_in_check st (opposite (side_to_move st)) = Some false.

(** The evaluator returns a finite value on every such position. *)
Definition evaluator_finite (model : option evaluator) : Prop :=
  forall st, valid st -> exists q, Evaluation.evaluate_position st model = Some (Fin q).

(** A ray leaves the board after at most eight squares: the distance to the
    edge it runs towards. *)
Definition edge_distance (r c dr dc : Z) : Z :=
  if dr =? 1 then 8 - r
  else if dr =? -1 then r + 1
  else if dc =? 1 then 8 - c
  else c + 1.

Definition is_direction (dr dc : Z) : Prop :=
  (-1 <= dr <= 1) /\ (-1 <= dc <= 1) /\ (dr <> 0 \/ dc <> 0).

(** A move that the search may make: a candidate that passes the test of
    [generate_legal_moves]. *)
Definition playable (st : GameState) (m : Move) : Prop :=
  In m (MoveGen.generate_pseudo_legal_moves st)
  /\ keeps_king_safe st (side_to_move st) m = true.

(** ** Moves in sequence *)

(** The piece that [make_move] records as captured: the piece on the
    destination, or for an en-passant capture the piece behind it. *)
Definition captured_piece (st : GameState) (m : Move) : option ascii :=
  if is_en_passant m
  then Py.getitem (board st) (ep_victim_square (side_to_move st) (to_square m))
  else match Py.getitem (board st) (to_square m) with
       | Some t => MoveGen.captured_of t
       | None => None
       end.

Definition rook_of (c : color) : ascii := white_black c "R" "r".

(** The corner a rook castles from. *)
Definition rook_home (c : color) (w : wing) : Z :=
  match c, w with
  | White, Kingside => 63
  | White, Queenside => 56
  | Black, Kingside => 7
  | Black, Queenside => 0
  end.

(** An index that Python accepts for a list: negative ones count from the
    end. *)
Definition in_range (b : list ascii) (i : Z) : Prop :=
  - Z.of_nat (length b) <= i < Z.of_nat (length b).

(** [make_move] for each move of a list in turn. *)
Fixpoint play (st : GameState) (ms : list Move) : option GameState :=
  match ms with
  | [] => Some st
  | m :: rest => st1 ← GameState.make_move st m; play st1 rest
  end.

(** [undo_move] called [n] times. *)
Fixpoint undo_all (n : nat) (st : GameState) : option GameState :=
  match n with
  | O => Some st
  | S k => st1 ← GameState.undo_move st; undo_all k st1
  end.

(** A line of play: each move is in the list that [generate_legal_moves]
    returns for the position it is played in. *)
Fixpoint legal_line (st : GameState) (ms : list Move) : Prop :=
  match ms with
  | [] => True
  | m :: rest =>
      (exists legal st0, MoveGen.generate_legal_moves st = Some (legal, st0) /\ In m legal)
      /\ forall st1, GameState.make_move st m = Some st1 -> legal_line st1 rest
  end.

(** The castling position of the engine's tests, [r3k2r/8/8/8/8/8/8/R3K2R w KQkq - 0 1]. *)
Definition rooks_and_kings : GameState :=
  GameState.init (default [] (Board.from_fen "r3k2r/8/8/8/8/8/8/R3K2R")) White "KQkq" None 0 1.

(** The piece that [make_move] puts on the destination square. *)
Definition placed_piece (st : GameState) (m : Move) : ascii :=
  match promotion m with
  | Some p => match side_to_move st with White => Py.upper p | Black => Py.lower p end
  | None => cell (board st) (from_square m)
  end.

(** The row on which a pawn of the colour promotes. *)
Definition promo_row (c : color) : Z := match c with White => 0 | Black => 7 end.

(** ** Material *)

(** The value of a piece, 0 for a character without one. *)
Definition piece_value (p : ascii) : Z := default 0 (PIECE_VALUES (Py.upper p)).

(** The summed values of the pieces of one colour. *)
Fixpoint side_material (c : color) (b : list ascii) : Z :=
  match b with
  | [] => 0
  | p :: rest => (if color_is (piece_color p) c then piece_value p else 0) + side_material c rest
  end.

(** Whether the entry [n] of the encoding is set by the piece on the square
    [idx + k] of [cells], for some [k]. *)
Definition hot_from (idx : Z) (cells : list ascii) (n : Z) : bool :=
  (idx <=? n mod 64)
  && match cells !! Z.to_nat (n mod 64 - idx) with
     | Some p => match Evaluation.PIECE_TO_INDEX p with
                 | Some plane => plane =? n / 64
                 | None => false
                 end
     | None => false
     end.

(** ** Ordered moves *)

(** No move of the list scores more than a move before it. *)
Fixpoint descending (l : list Move) : Prop :=
  match l with
  | [] => True
  | a :: rest => Forall (fun b => Search.move_score b <= Search.move_score a) rest
                 /\ descending rest
  end.

(** The moves of a given score, in the order of the list. *)
Definition with_score (v : Z) (l : list Move) : list Move :=
  List.filter (fun m => Search.move_score m =? v) l.

(** The position after 1. f3 e5 2. g4 Qh4, white being mated. *)
Definition fools_mate : GameState :=
  GameState.init (default [] (Board.from_fen "rnb1kbnr/pppp1ppp/8/4p3/6Pq/5P2/PPPPP2P/RNBQKBNR"))
    White "KQkq" None 1 3.

(** ** Text without white space *)

Fixpoint no_space (s : string) : bool :=
  match s with
  | EmptyString => true
  | String c rest => negb (Py.isspace c) && no_space rest
  end.

(** A field of a FEN: a word. *)
Definition is_word (s : string) : Prop := no_space s = true /\ s <> EmptyString.

(** * Proofs *)

(** ** Proof tools *)

#[local] Arguments Ascii.eqb : simpl never.
#[local] Arguments String.eqb : simpl never.
#[local] Arguments String.append !s1 s2 : simpl nomatch.

(** Evaluate the comparisons of two character literals. *)
Ltac eval_eqb :=
  repeat match goal with
    | |- context [Ascii.eqb ?a ?b] =>
        let v := eval vm_compute in (Ascii.eqb a b) in
        match v with
        | true => change (Ascii.eqb a b) with true
        | false => change (Ascii.eqb a b) with false
        end
    end.

Ltac eval_eqb_in H :=
  repeat match type of H with
    | context [Ascii.eqb ?a ?b] =>
        let v := eval vm_compute in (Ascii.eqb a b) in
        match v with
        | true => change (Ascii.eqb a b) with true in H
        | false => change (Ascii.eqb a b) with false in H
        end
    end.

(** Decide a fact about one character by trying all 256 of them. *)
Ltac ascii_cases p :=
  destruct p as [[] [] [] [] [] [] [] []]; vm_compute; try reflexivity; try discriminate.

(** Linear arithmetic with the quotients and remainders of [divmod]. *)
Ltac zlia := Z.div_mod_to_equations; lia.

(** Evaluate [sq] on the square names of the source. *)
Ltac eval_sq :=
  repeat match goal with
    | |- context [sq ?s] => let v := eval vm_compute in (sq s) in change (sq s) with v
    | H : context [sq ?s] |- _ =>
        let v := eval vm_compute in (sq s) in change (sq s) with v in H
    end.

(** Fold the sums and differences of two numerals. *)
Ltac fold_numerals :=
  repeat match goal with
    | |- context [Z.pos ?a + Z.pos ?b] =>
        let v := eval vm_compute in (Z.pos a + Z.pos b) in
        change (Z.pos a + Z.pos b) with v
    | |- context [Z.pos ?a - Z.pos ?b] =>
        let v := eval vm_compute in (Z.pos a - Z.pos b) in
        change (Z.pos a - Z.pos b) with v
    end.

(** ** Material *)

Lemma upper_is_king p :
  Ascii.eqb (Py.upper p) "K" = Ascii.eqb p "K" || Ascii.eqb p "k".
Proof. ascii_cases p. Qed.

Lemma upper_is_minor p :
  Ascii.eqb (Py.upper p) "B" || Ascii.eqb (Py.upper p) "N" = is_minor p.
Proof. ascii_cases p. Qed.

Lemma minor_not_king m : is_minor m = true -> Ascii.eqb m "K" || Ascii.eqb m "k" = false.
Proof. ascii_cases m. Qed.

Lemma count_piece_pieces p b :
  Ascii.eqb p EMPTY = false -> count_piece p (pieces b) = count_piece p b.
Proof.
  intros Hp. unfold count_piece, pieces. induction b as [|x b IH]; simpl; [reflexivity|].
  destruct (Ascii.eqb_spec x EMPTY) as [->|Hx]; simpl.
  - rewrite Hp. exact IH.
  - destruct (Ascii.eqb p x); simpl; rewrite IH; reflexivity.
Qed.

Lemma filter_length_perm (f : ascii -> bool) l l' :
  l ≡ₚ l' -> length (List.filter f l) = length (List.filter f l').
Proof.
  induction 1; simpl; try congruence.
  - destruct (f x); simpl; congruence.
  - destruct (f x), (f y); simpl; reflexivity.
Qed.

Lemma forallb_perm (f : ascii -> bool) l l' :
  l ≡ₚ l' -> forallb f l = forallb f l'.
Proof.
  induction 1; simpl; try congruence.
  destruct (f x), (f y); reflexivity.
Qed.

Lemma forallb_pointwise {A} (f g : A -> bool) l :
  (forall x, f x = g x) -> forallb f l = forallb g l.
Proof. intros H. induction l as [|x l IH]; simpl; [reflexivity|]. rewrite H, IH. reflexivity. Qed.

Lemma insufficient_material_unfold st :
  GameState.insufficient_material st =
  let ps := pieces (board st) in
  if forallb (fun p => Ascii.eqb p "K" || Ascii.eqb p "k") ps then true
  else if (length ps =? 3)%nat then (length (List.filter is_minor ps) =? 1)%nat
  else false.
Proof.
  unfold GameState.insufficient_material, pieces. cbv zeta.
  rewrite (forallb_pointwise _ _ _ upper_is_king).
  rewrite (List.filter_ext _ _ upper_is_minor). reflexivity.
Qed.

Lemma king_cases p :
  Ascii.eqb p "K" || Ascii.eqb p "k" = true -> p = "K"%char \/ p = "k"%char.
Proof.
  intros H. apply orb_true_iff in H as [H | H]; apply Ascii.eqb_eq in H; auto.
Qed.

Lemma two_kings_only l :
  forallb (fun p => Ascii.eqb p "K" || Ascii.eqb p "k") l = true ->
  count_piece "K" l = 1%nat -> count_piece "k" l = 1%nat ->
  l ≡ₚ ["K"; "k"]%char.
Proof.
  intros Hall HK Hk.
  assert (Hlen : length l = (count_piece "K" l + count_piece "k" l)%nat).
  { clear HK Hk. unfold count_piece. induction l as [|x l IH]; simpl in *; [reflexivity|].
    apply andb_true_iff in Hall as [Hx Hall]. specialize (IH Hall).
    destruct (king_cases x Hx) as [-> | ->]; eval_eqb; simpl; lia. }
  rewrite HK, Hk in Hlen.
  destruct l as [|a [|b [|c l]]]; simpl in Hlen; try lia.
  simpl in Hall. apply andb_true_iff in Hall as [Ha Hall].
  apply andb_true_iff in Hall as [Hb _].
  destruct (king_cases a Ha) as [-> | ->], (king_cases b Hb) as [-> | ->];
    vm_compute in HK, Hk; try discriminate; [reflexivity | apply perm_swap].
Qed.

Lemma minor_K : is_minor "K" = false. Proof. reflexivity. Qed.
Lemma minor_k : is_minor "k" = false. Proof. reflexivity. Qed.

Lemma two_kings_one_minor l :
  length l = 3%nat -> length (List.filter is_minor l) = 1%nat ->
  count_piece "K" l = 1%nat -> count_piece "k" l = 1%nat ->
  exists m, is_minor m = true /\ l ≡ₚ ["K"; "k"; m]%char.
Proof.
  intros Hlen Hm HK Hk.
  destruct l as [|a [|b [|c [|d l]]]]; simpl in Hlen; try lia.
  unfold count_piece in HK, Hk. simpl in HK, Hk, Hm.
  destruct (Ascii.eqb_spec "K" a) as [<-|]; [|destruct (Ascii.eqb_spec "k" a) as [<-|]];
  (destruct (Ascii.eqb_spec "K" b) as [<-|]; [|destruct (Ascii.eqb_spec "k" b) as [<-|]]);
  (destruct (Ascii.eqb_spec "K" c) as [<-|]; [|destruct (Ascii.eqb_spec "k" c) as [<-|]]);
  eval_eqb_in HK; eval_eqb_in Hk; simpl in HK, Hk; try discriminate;
  rewrite ?minor_K, ?minor_k in Hm;
  match goal with
  | |- exists m, _ /\ [?x; ?y; ?z] ≡ₚ _ =>
      first [ is_var z; exists z | is_var y; exists y | is_var x; exists x ]
  end;
  (split; [ match goal with |- is_minor ?z = true =>
              destruct (is_minor z); simpl in Hm; [reflexivity | discriminate] end | ]).
  all: try reflexivity.
  all: try (apply perm_swap).
  all: try (apply perm_skip, perm_swap).
  all: try (etrans; [apply perm_swap | apply perm_skip, perm_swap]).
  all: try (etrans; [apply perm_skip, perm_swap | apply perm_swap]).
  all: try (etrans; [apply perm_swap | etrans; [apply perm_skip, perm_swap | apply perm_swap]]).
Qed.

(** C8.  With one king per colour, [insufficient_material] holds exactly when
    the two kings are alone, or accompanied by a single bishop or knight of
    either colour; every other material gives [false]. *)
Theorem insufficient_material_iff :
  forall st : GameState,
    one_king_per_color (board st) ->
    (GameState.insufficient_material st = true
     <-> only_kings (board st) \/ kings_and_one_minor (board st)).
Proof.
  intros st [HK Hk]. rewrite insufficient_material_unfold. cbv zeta.
  rewrite <- (count_piece_pieces "K") in HK by reflexivity.
  rewrite <- (count_piece_pieces "k") in Hk by reflexivity.
  unfold only_kings, kings_and_one_minor.
  set (ps := pieces (board st)) in *. clearbody ps. split.
  - destruct (forallb _ ps) eqn:Hall.
    + intros _. left. apply two_kings_only; assumption.
    + destruct (length ps =? 3)%nat eqn:Hlen; [|discriminate].
      intros Hm. right. apply Nat.eqb_eq in Hlen, Hm.
      apply two_kings_one_minor; assumption.
  - intros [Hp | (m & Hm & Hp)].
    + rewrite (forallb_perm _ _ _ Hp). reflexivity.
    + rewrite (forallb_perm _ _ _ Hp), (Permutation_length Hp), (filter_length_perm _ _ _ Hp).
      simpl. rewrite (minor_not_king m Hm), Hm. reflexivity.
Qed.

Lemma insufficient_material_iff_witness :
  exists st, position "4k3/8/8/8/8/8/8/4KB2" White "-" None 0 1 = Some st
             /\ GameState.insufficient_material st = true.
Proof.
  eexists. split; [vm_compute; reflexivity|].
  apply insufficient_material_iff.
  - split; vm_compute; reflexivity.
  - right. exists "B"%char. split; [reflexivity|]. vm_compute.
    apply perm_swap.
Defined.

Example two_knights_not_insufficient :
  option_map GameState.insufficient_material
    (position "4k3/8/8/8/8/8/8/2N1KN2" White "-" None 0 1) = Some false.
Proof. vm_compute. reflexivity. Qed.

(** C7 (the code departs from it).  With a promoted queen next to the full set
    of pieces, the material of one side exceeds the 4000 used for scaling,
    and the evaluation leaves [-1, 1]. *)
Theorem material_eval_exceeds_one :
  exists st q,
    position "4k3/Q7/8/8/8/8/PPPPPPP1/RNBQKBNR" White "KQ" None 0 1 = Some st
    /\ Evaluation.evaluate_position st None = Some (Fin q)
    /\ (1 < q)%Q.
Proof.
  eexists. eexists. split; [vm_compute; reflexivity|].
  split; [vm_compute; reflexivity|]. reflexivity.
Qed.

(** ** Board: FEN round trip *)

Lemma str_digit n :
  1 <= n <= 9 ->
  exists d, Py.str n = String d EmptyString /\ Py.isdigit d = true
            /\ Py.int_of_char d = Some n /\ Ascii.eqb d "/" = false.
Proof.
  intros H.
  assert (Hn : n = 1 \/ n = 2 \/ n = 3 \/ n = 4 \/ n = 5 \/ n = 6 \/ n = 7 \/ n = 8 \/ n = 9)
    by lia.
  repeat (destruct Hn as [-> | Hn]); try subst n;
    eexists; (split; [vm_compute; reflexivity|]); repeat split.
Qed.

Lemma cell_char_not_digit c : cell_char c = true -> Py.isdigit c = false.
Proof. unfold cell_char. intros H. apply andb_true_iff in H as [H _]. apply negb_true_iff, H. Qed.

Lemma cell_char_not_sep c : cell_char c = true -> Ascii.eqb c "/" = false.
Proof. unfold cell_char. intros H. apply andb_true_iff in H as [_ H]. apply negb_true_iff, H. Qed.

Lemma repeat_snoc_cons {A} (x : A) n l : repeat x (S n) ++ l = repeat x n ++ x :: l.
Proof. induction n as [|n IH]; simpl in *; [reflexivity|]. f_equal. exact IH. Qed.

Lemma expand_row_app r s :
  Board.expand_row (r +:+ s) =
  match Board.expand_row r, Board.expand_row s with
  | Some a, Some b => Some (a ++ b)
  | _, _ => None
  end.
Proof.
  induction r as [|c r IH]; simpl.
  - destruct (Board.expand_row s); reflexivity.
  - rewrite IH. destruct (Py.isdigit c).
    + destruct (Py.int_of_char c); [|reflexivity].
      destruct (Board.expand_row r), (Board.expand_row s); simpl; try reflexivity.
      rewrite app_assoc. reflexivity.
    + destruct (Board.expand_row r), (Board.expand_row s); reflexivity.
Qed.

Lemma expand_str n :
  1 <= n <= 9 -> Board.expand_row (Py.str n) = Some (repeat EMPTY (Z.to_nat n)).
Proof.
  intros H. destruct (str_digit n H) as (d & -> & Hd & Hi & _). simpl.
  rewrite Hd, Hi. simpl. rewrite app_nil_r. reflexivity.
Qed.

(** Reading back what [to_fen] writes for one row. *)
Lemma expand_fen_row_from row : forall e,
  0 <= e -> e + Z.of_nat (length row) <= 9 ->
  forallb cell_char row = true ->
  Board.expand_row (Board.fen_row_from e row) = Some (repeat EMPTY (Z.to_nat e) ++ row).
Proof.
  induction row as [|piece rest IH]; intros e He Hlen Hok; simpl in *.
  - destruct (Z.eqb_spec e 0) as [->|Hne]; [reflexivity|].
    rewrite expand_str, app_nil_r by lia. reflexivity.
  - apply andb_true_iff in Hok as [Hp Hok].
    destruct (Ascii.eqb_spec piece EMPTY) as [->|Hpiece].
    + rewrite IH by (assumption || lia).
      replace (Z.to_nat (e + 1)) with (S (Z.to_nat e)) by lia.
      rewrite repeat_snoc_cons. reflexivity.
    + rewrite expand_row_app. simpl.
      rewrite (cell_char_not_digit _ Hp), (IH 0) by (assumption || lia). simpl.
      destruct (Z.eqb_spec e 0) as [->|Hne]; [reflexivity|].
      rewrite expand_str by lia. reflexivity.
Qed.

Lemma contains_app c r s :
  Py.contains c (r +:+ s) = Py.contains c r || Py.contains c s.
Proof. induction r as [|d r IH]; simpl; [reflexivity|]. rewrite IH, orb_assoc. reflexivity. Qed.

Lemma fen_row_from_no_sep row : forall e,
  0 <= e -> e + Z.of_nat (length row) <= 9 ->
  forallb cell_char row = true ->
  Py.contains "/" (Board.fen_row_from e row) = false.
Proof.
  induction row as [|piece rest IH]; intros e He Hlen Hok; simpl in *.
  - destruct (Z.eqb_spec e 0) as [->|Hne]; [reflexivity|].
    destruct (str_digit e ltac:(lia)) as (d & -> & _ & _ & Hd). simpl.
    rewrite (Ascii.eqb_sym "/" d), Hd. reflexivity.
  - apply andb_true_iff in Hok as [Hp Hok].
    destruct (Ascii.eqb_spec piece EMPTY) as [->|Hpiece].
    + apply IH; (assumption || lia).
    + rewrite contains_app. simpl.
      rewrite (Ascii.eqb_sym "/" piece), (cell_char_not_sep _ Hp), (IH 0) by (assumption || lia).
      simpl. rewrite orb_false_r.
      destruct (Z.eqb_spec e 0) as [->|Hne]; [reflexivity|].
      destruct (str_digit e ltac:(lia)) as (d & -> & _ & _ & Hd). simpl.
      rewrite (Ascii.eqb_sym "/" d), Hd. reflexivity.
Qed.

(** [split] undoes [join] when no part holds the separator. *)
Lemma split_no_sep r : Py.contains "/" r = false -> Py.split "/" r = [r].
Proof.
  induction r as [|c r IH]; simpl; [reflexivity|]. intros H.
  apply orb_false_iff in H as [Hc Hr]. rewrite (Ascii.eqb_sym c "/"), Hc, (IH Hr). reflexivity.
Qed.

Lemma split_app_sep r s :
  Py.contains "/" r = false -> Py.split "/" (r +:+ String "/" s) = r :: Py.split "/" s.
Proof.
  induction r as [|c r IH]; simpl; [reflexivity|]. intros H.
  apply orb_false_iff in H as [Hc Hr]. rewrite (Ascii.eqb_sym c "/"), Hc, (IH Hr). reflexivity.
Qed.

Lemma split_join rows :
  rows <> [] -> Forall (fun r => Py.contains "/" r = false) rows ->
  Py.split "/" (Py.join "/" rows) = rows.
Proof.
  induction rows as [|r rows IH]; [congruence|]. intros _ Hall.
  apply Forall_cons_1 in Hall as [Hr Hall].
  destruct rows as [|r' rows]; simpl.
  - apply split_no_sep, Hr.
  - change (Py.split "/" (r +:+ String "/" (Py.join "/" (r' :: rows))) = r :: r' :: rows).
    rewrite split_app_sep by exact Hr. f_equal. apply IH; [discriminate|exact Hall].
Qed.

Lemma split_nonempty s : Py.split "/" s <> [].
Proof.
  destruct s as [|c s]; simpl; [discriminate|].
  destruct (Ascii.eqb c "/"); [discriminate|]. destruct (Py.split "/" s); discriminate.
Qed.

Lemma join_split s : Py.join "/" (Py.split "/" s) = s.
Proof.
  induction s as [|c s IH]; simpl; [reflexivity|].
  pose proof (split_nonempty s) as Hne.
  destruct (Py.split "/" s) as [|w ws] eqn:E; [congruence|].
  destruct (Ascii.eqb_spec c "/") as [->|Hc].
  - rewrite <- IH. reflexivity.
  - rewrite <- IH. destruct ws; reflexivity.
Qed.

Lemma expand_rows_map rows :
  Forall (fun row => (Z.of_nat (length row) <= 9) /\ forallb cell_char row = true) rows ->
  Board.expand_rows (map Board.fen_row rows) = Some (concat rows).
Proof.
  induction 1 as [|row rows [Hlen Hok] _ IH]; simpl; [reflexivity|].
  unfold Board.fen_row at 1. rewrite expand_fen_row_from, IH by (assumption || lia).
  reflexivity.
Qed.

Lemma row_slice_length b r : (length (Board.row_slice b r) <= 8)%nat.
Proof. unfold Board.row_slice. rewrite length_firstn. lia. Qed.

Lemma forallb_firstn {A} (f : A -> bool) n l : forallb f l = true -> forallb f (firstn n l) = true.
Proof.
  revert l. induction n as [|n IH]; intros [|x l]; simpl; try reflexivity.
  intros H. apply andb_true_iff in H as [-> H]. simpl. apply IH, H.
Qed.

Lemma forallb_skipn {A} (f : A -> bool) n l : forallb f l = true -> forallb f (skipn n l) = true.
Proof.
  revert l. induction n as [|n IH]; intros [|x l]; simpl; try reflexivity; try (intros H; exact H).
  intros H. apply andb_true_iff in H as [_ H]. apply IH, H.
Qed.

Lemma concat_row_slices b :
  length b = 64%nat -> concat (map (Board.row_slice b) (seq 0 8)) = b.
Proof.
  intros H. do 64 (destruct b as [|? b]; [discriminate|]).
  destruct b; [reflexivity|discriminate].
Qed.

Lemma from_fen_to_fen b :
  length b = 64%nat -> forallb cell_char b = true ->
  Board.from_fen (Board.to_fen b) = Some b.
Proof.
  intros Hlen Hok. unfold Board.from_fen, Board.to_fen.
  set (rows := map (Board.row_slice b) (seq 0 8)).
  assert (Hrows : Forall (fun row => (Z.of_nat (length row) <= 9)
                                     /\ forallb cell_char row = true) rows).
  { unfold rows. apply Forall_map, Forall_forall. intros r _. split.
    - pose proof (row_slice_length b r). lia.
    - unfold Board.row_slice. apply forallb_firstn, forallb_skipn, Hok. }
  assert (Hcat : concat rows = b) by (apply concat_row_slices, Hlen).
  assert (Hn : length rows = 8%nat) by reflexivity.
  rewrite <- (map_map (Board.row_slice b) Board.fen_row). fold rows.
  clearbody rows.
  assert (Hsep : Forall (fun r => Py.contains "/" r = false) (map Board.fen_row rows)).
  { apply Forall_map. eapply Forall_impl; [exact Hrows|]. intros row [H1 H2]. simpl.
    apply fen_row_from_no_sep; (assumption || lia). }
  rewrite split_join; [|destruct rows; discriminate|exact Hsep].
  rewrite length_map, Hn, expand_rows_map, Hcat, Hlen by exact Hrows. reflexivity.
Qed.

Lemma fen_row_from_repeat k : forall e l,
  Board.fen_row_from e (repeat EMPTY k ++ l) = Board.fen_row_from (e + Z.of_nat k) l.
Proof.
  induction k as [|k IH]; intros e l; simpl.
  - rewrite Z.add_0_r. reflexivity.
  - eval_eqb. rewrite IH. f_equal. lia.
Qed.

Lemma run_length_char c :
  Py.between 49 56 c = true ->
  Py.isdigit c = true /\ Py.int_of_char c = Some (Py.code c - 48)
  /\ 1 <= Py.code c - 48 <= 8 /\ Py.str (Py.code c - 48) = String c EmptyString.
Proof.
  destruct c as [[] [] [] [] [] [] [] []]; intros H; vm_compute in H; try discriminate;
    repeat split; vm_compute; congruence.
Qed.

(** Writing back what [from_fen] reads from one well-formed row. *)
Lemma fen_row_of_expand row :
  (row_chars_ok false row = true ->
   forall cells, Board.expand_row row = Some cells -> Board.fen_row_from 0 cells = row)
  /\ (row_chars_ok true row = true ->
      forall cells e, 1 <= e <= 9 -> Board.expand_row row = Some cells ->
                      Board.fen_row_from e cells = Py.str e +:+ row).
Proof.
  induction row as [|c rest [IH0 IH1]]; simpl.
  - split.
    + intros _ cells [= <-]. reflexivity.
    + intros _ cells e He [= <-]. simpl. destruct (Z.eqb_spec e 0); [lia|].
      destruct (str_digit e He) as (d & -> & _). reflexivity.
  - destruct (Py.between 49 56 c) eqn:Hrun.
    + destruct (run_length_char c Hrun) as (Hd & Hi & Hn & Hs). rewrite Hd, Hi. split.
      * intros Hok cells Hex. simpl in Hok.
        destruct (Board.expand_row rest) as [cells'|] eqn:E; [|discriminate].
        simpl in Hex. injection Hex as <-.
        rewrite fen_row_from_repeat, (IH1 Hok cells' _) by (reflexivity || lia).
        replace (0 + Z.of_nat (Z.to_nat (Py.code c - 48))) with (Py.code c - 48) by lia.
        rewrite Hs. reflexivity.
      * intros Hok. simpl in Hok. discriminate.
    + assert (Hpiece : forall ad, cell_char c && negb (Ascii.eqb c EMPTY)
                                   && row_chars_ok false rest = true ->
                forall cells e, 0 <= e <= 9 -> ad = negb (e =? 0) ->
                option_map (cons c) (Board.expand_row rest) = Some cells ->
                Board.fen_row_from e cells
                = (if e =? 0 then EmptyString else Py.str e) +:+ String c rest).
      { intros ad Hok cells e He _ Hex.
        apply andb_true_iff in Hok as [Hok Hrest]. apply andb_true_iff in Hok as [Hc Hne].
        destruct (Board.expand_row rest) as [cells'|] eqn:E; [|discriminate].
        simpl in Hex. injection Hex as <-. simpl.
        apply negb_true_iff in Hne. rewrite Hne, (IH0 Hrest cells' eq_refl). reflexivity. }
      split.
      * intros Hok cells Hex.
        assert (Hc : cell_char c = true).
        { apply andb_true_iff in Hok as [Hok _]. apply andb_true_iff in Hok as [Hc _]. exact Hc. }
        rewrite (cell_char_not_digit c Hc) in Hex.
        apply (Hpiece false Hok cells 0 ltac:(lia) eq_refl Hex).
      * intros Hok cells e He Hex.
        assert (Hc : cell_char c = true).
        { apply andb_true_iff in Hok as [Hok _]. apply andb_true_iff in Hok as [Hc _]. exact Hc. }
        rewrite (cell_char_not_digit c Hc) in Hex.
        rewrite (Hpiece true Hok cells e ltac:(lia)); [|destruct (Z.eqb_spec e 0); [lia|reflexivity]|exact Hex].
        destruct (Z.eqb_spec e 0); [lia|reflexivity].
Qed.

Lemma expand_rows_well_formed rows :
  forallb fen_row_ok rows = true ->
  exists cs, Board.expand_rows rows = Some (concat cs)
             /\ Forall (fun c => length c = 8%nat) cs
             /\ length cs = length rows
             /\ map Board.fen_row cs = rows.
Proof.
  induction rows as [|row rows IH]; simpl.
  - intros _. exists []. repeat split. constructor.
  - intros H. apply andb_true_iff in H as [Hrow Hrows].
    destruct (IH Hrows) as (cs & Hex & Hlen & Hn & Hfen).
    unfold fen_row_ok in Hrow. apply andb_true_iff in Hrow as [Hchars Hcells].
    destruct (Board.expand_row row) as [cells|] eqn:E; [|discriminate].
    apply Nat.eqb_eq in Hcells.
    exists (cells :: cs). rewrite Hex. simpl. repeat split.
    + constructor; assumption.
    + congruence.
    + rewrite Hfen. f_equal. apply (proj1 (fen_row_of_expand row) Hchars cells E).
Qed.

Lemma length_concat_rows (cs : list (list ascii)) :
  Forall (fun c => length c = 8%nat) cs -> length (concat cs) = (8 * length cs)%nat.
Proof. induction 1 as [|c cs Hc _ IH]; simpl; [reflexivity|]. rewrite length_app, Hc, IH. lia. Qed.

Lemma row_slices_concat cs :
  Forall (fun c => length c = 8%nat) cs ->
  map (Board.row_slice (concat cs)) (seq 0 (length cs)) = cs.
Proof.
  induction 1 as [|c cs Hc _ IH]; [reflexivity|].
  cbn [length seq map concat]. f_equal.
  - unfold Board.row_slice. change (0 * 8)%nat with 0%nat. cbn [skipn].
    apply take_app_length'. symmetry. exact Hc.
  - rewrite <- seq_shift, map_map. rewrite <- IH at 2.
    apply map_ext. intros r. unfold Board.row_slice.
    replace (S r * 8)%nat with (length c + r * 8)%nat by lia.
    rewrite drop_app_add. reflexivity.
Qed.

Lemma to_fen_from_fen s :
  well_formed_board_fen s = true ->
  exists b, Board.from_fen s = Some b /\ Board.to_fen b = s.
Proof.
  unfold well_formed_board_fen. intros H. apply andb_true_iff in H as [Hn Hrows].
  apply Nat.eqb_eq in Hn.
  destruct (expand_rows_well_formed _ Hrows) as (cs & Hex & Hlen & Hcs & Hfen).
  exists (concat cs). split.
  - unfold Board.from_fen. cbv zeta. rewrite Hn, Hex, length_concat_rows, Hcs, Hn by exact Hlen.
    reflexivity.
  - unfold Board.to_fen.
    rewrite <- (map_map (Board.row_slice (concat cs)) Board.fen_row).
    replace 8%nat with (length cs) by congruence.
    rewrite row_slices_concat, Hfen by exact Hlen. apply join_split.
Qed.

Lemma piece_letters_are_cells :
  forallb cell_char (list_ascii_of_string ".PNBRQKpnbrqk") = true.
Proof. reflexivity. Qed.

(** C6 (as amended).  [to_fen] inverts [from_fen]: a board of 64 cells (each
    a character that [from_fen] stores as a cell, as every piece letter and
    the empty cell are) is read back from its FEN, a well-formed board FEN
    whose rows have eight cells each (eight rows, run lengths 1..8, never two
    in a row, no literal empty cell) is written back from its board, and the
    starting position round trips. *)
Theorem fen_roundtrip :
  (forall b : list ascii,
      length b = 64%nat -> forallb cell_char b = true ->
      Board.from_fen (Board.to_fen b) = Some b)
  /\ (forall s : string,
         well_formed_board_fen s = true ->
         exists b, Board.from_fen s = Some b /\ Board.to_fen b = s)
  /\ option_map Board.to_fen (Board.from_fen START_FEN) = Some START_FEN.
Proof.
  split; [exact from_fen_to_fen|]. split; [exact to_fen_from_fen|].
  vm_compute. reflexivity.
Qed.

Lemma fen_roundtrip_witness :
  (exists b, Board.from_fen "r3k2r/8/8/3pP3/8/2N5/PPP2PPP/R3K2R" = Some b
             /\ Board.from_fen (Board.to_fen b) = Some b)
  /\ (exists b, Board.from_fen "r3k2r/8/8/3pP3/8/2N5/PPP2PPP/R3K2R" = Some b
                /\ Board.to_fen b = "r3k2r/8/8/3pP3/8/2N5/PPP2PPP/R3K2R").
Proof.
  split.
  - eexists. split; [vm_compute; reflexivity|].
    apply (proj1 fen_roundtrip); vm_compute; reflexivity.
  - apply (proj1 (proj2 fen_roundtrip)). vm_compute. reflexivity.
Defined.

(** C6 as stated fails: this board field has eight rows and 64 cells, its
    empties are run lengths from 1 to 8, never two in a row; the first row
    has nine cells and the second seven.  [from_fen] counts the rows and the
    cells, not the cells of a row, and reads the start position, which
    [to_fen] writes with eight cells in every row. *)
Lemma fen_roundtrip_ragged_rows :
  exists (s : string) (b : list ascii),
    s = "rnbqkbnrp/ppppppp/8/8/8/8/PPPPPPPP/RNBQKBNR"
    /\ length (Py.split "/" s) = 8%nat
    /\ forallb (row_chars_ok false) (Py.split "/" s) = true
    /\ Board.from_fen s = Some b
    /\ length b = 64%nat
    /\ Board.to_fen b = START_FEN
    /\ Board.to_fen b <> s.
Proof.
  eexists. eexists. split; [reflexivity|].
  split; [reflexivity|]. split; [reflexivity|].
  split; [vm_compute; reflexivity|]. split; [reflexivity|].
  split; [vm_compute; reflexivity|]. vm_compute. discriminate.
Qed.

(** Every board that [from_fen] returns meets the two conditions of the
    round trip. *)
Lemma expand_row_cells row : forall cells,
  Py.contains "/" row = false ->
  Board.expand_row row = Some cells -> forallb cell_char cells = true.
Proof.
  induction row as [|c rest IH]; simpl; intros cells Hsep Hex.
  - injection Hex as <-. reflexivity.
  - apply orb_false_iff in Hsep as [Hc Hsep].
    destruct (Py.isdigit c) eqn:Hd.
    + destruct (Py.int_of_char c) as [n|]; [|discriminate].
      destruct (Board.expand_row rest) as [cells'|]; [|discriminate].
      simpl in Hex. injection Hex as <-. rewrite forallb_app, (IH cells' Hsep eq_refl).
      rewrite andb_true_r. clear. induction (Z.to_nat n); simpl; auto.
    + destruct (Board.expand_row rest) as [cells'|]; [|discriminate].
      simpl in Hex. injection Hex as <-. simpl. rewrite (IH cells' Hsep eq_refl), andb_true_r.
      unfold cell_char. rewrite Hd, (Ascii.eqb_sym c "/"), Hc. reflexivity.
Qed.

Lemma split_parts_no_sep s : Forall (fun r => Py.contains "/" r = false) (Py.split "/" s).
Proof.
  induction s as [|c s IH]; simpl; [repeat constructor|].
  destruct (Ascii.eqb_spec c "/") as [->|Hc]; [constructor; [reflexivity|exact IH]|].
  destruct (Py.split "/" s) as [|w ws]; [repeat constructor; simpl|].
  - rewrite (proj2 (Ascii.eqb_neq "/" c)) by congruence. reflexivity.
  - apply Forall_cons_1 in IH as [Hw Hws]. constructor; [|exact Hws]. simpl.
    rewrite (proj2 (Ascii.eqb_neq "/" c)) by congruence. exact Hw.
Qed.

Lemma from_fen_board s b :
  Board.from_fen s = Some b -> length b = 64%nat /\ forallb cell_char b = true.
Proof.
  unfold Board.from_fen. cbv zeta. destruct (negb _); [discriminate|].
  pose proof (split_parts_no_sep s) as Hsep. revert Hsep.
  generalize (Py.split "/" s). intros rows Hsep.
  destruct (Board.expand_rows rows) as [squares|] eqn:E; [|discriminate].
  destruct (length squares =? 64)%nat eqn:Hlen; [|discriminate]. simpl.
  intros [= <-]. split; [apply Nat.eqb_eq, Hlen|]. clear Hlen.
  revert squares E. induction Hsep as [|row rows Hrow _ IH]; simpl; intros squares E.
  - injection E as <-. reflexivity.
  - destruct (Board.expand_row row) as [cells|] eqn:Er; [|discriminate].
    destruct (Board.expand_rows rows) as [more|]; [|discriminate].
    injection E as <-. rewrite forallb_app, (expand_row_cells row cells Hrow Er), (IH more eq_refl).
    reflexivity.
Qed.

(** ** Move generation: the shape of the generated moves *)

Lemma on_board_spec r c : on_board r c = true <-> 0 <= r < 8 /\ 0 <= c < 8.
Proof. unfold on_board. rewrite !andb_true_iff, !Z.leb_le, !Z.ltb_lt. lia. Qed.

Lemma cell_lookup (b : list ascii) (k : nat) (piece : ascii) :
  b !! k = Some piece -> cell b (Z.of_nat k) = piece.
Proof. unfold cell. rewrite Nat2Z.id. intros ->. reflexivity. Qed.

Lemma piece_color_some p c : piece_color p = Some c -> p <> EMPTY.
Proof. intros H ->. discriminate. Qed.

Lemma color_is_true o c : color_is o c = true <-> o = Some c.
Proof.
  destruct o as [d|]; simpl; [|split; discriminate].
  destruct d, c; simpl; split; (reflexivity || discriminate || congruence).
Qed.

Lemma color_is_opposite p c :
  piece_color p = Some (opposite c) -> color_is (piece_color p) c = false.
Proof. intros ->. destruct c; reflexivity. Qed.

Lemma captured_of_piece p : p <> EMPTY -> MoveGen.captured_of p = Some p.
Proof.
  intros H. unfold MoveGen.captured_of.
  rewrite (proj2 (Ascii.eqb_neq p EMPTY)) by exact H. reflexivity.
Qed.

(** The king of a colour is the only piece of that colour whose upper case
    is [K]. *)
Lemma own_king p c :
  piece_color p = Some c -> Py.upper p = "K"%char -> p = king_of c.
Proof.
  destruct c; destruct p as [[] [] [] [] [] [] [] []]; vm_compute; congruence.
Qed.

(** *** Membership in the scan of the board *)

Lemma in_scan st m cells : forall i,
  In m (MoveGen.scan st i cells) <->
  exists (k : nat) piece, cells !! k = Some piece
                          /\ In m (MoveGen.piece_moves st (i + Z.of_nat k) piece).
Proof.
  induction cells as [|p cells IH]; intros i; simpl.
  - split; [contradiction|]. intros (k & piece & H & _). destruct k; discriminate.
  - rewrite in_app_iff, IH. split.
    + intros [H | (k & piece & Hk & H)].
      * exists 0%nat, p. rewrite Z.add_0_r. auto.
      * exists (S k), piece. split; [exact Hk|].
        replace (i + Z.of_nat (S k)) with (i + 1 + Z.of_nat k) by lia. exact H.
    + intros (k & piece & Hk & H). destruct k as [|k].
      * left. injection Hk as <-. rewrite Z.add_0_r in H. exact H.
      * right. exists k, piece. split; [exact Hk|].
        replace (i + 1 + Z.of_nat k) with (i + Z.of_nat (S k)) by lia. exact H.
Qed.

Lemma in_pseudo_legal st m :
  In m (MoveGen.generate_pseudo_legal_moves st) <->
  exists (k : nat) piece, board st !! k = Some piece
                          /\ In m (MoveGen.piece_moves st (Z.of_nat k) piece).
Proof. unfold MoveGen.generate_pseudo_legal_moves. rewrite in_scan. reflexivity. Qed.

(** *** Knight, king and sliding moves *)

Lemma step_moves_plain st idx steps m :
  In m (MoveGen.step_moves st idx steps) ->
  plain_move (board st) (opposite (side_to_move st)) idx m.
Proof.
  unfold MoveGen.step_moves. rewrite in_flat_map. intros ([dr dc] & _ & H). simpl in H.
  destruct (on_board _ _) eqn:Hon; [|contradiction].
  apply on_board_spec in Hon.
  destruct (_ || _) eqn:Hok; [|contradiction].
  destruct H as [<- | []]. unfold plain_move. simpl.
  repeat split; try lia.
  apply orb_true_iff in Hok as [H | H].
  - left. apply Ascii.eqb_eq, H.
  - right. apply color_is_true, H.
Qed.

Lemma slide_plain b enemy idx dr dc m : forall fuel nr nc,
  In m (MoveGen.slide fuel b enemy idx nr nc dr dc) -> plain_move b enemy idx m.
Proof.
  induction fuel as [|fuel IH]; intros nr nc; simpl; [contradiction|].
  destruct (on_board nr nc) eqn:Hon; [|contradiction].
  apply on_board_spec in Hon.
  destruct (Ascii.eqb_spec (cell b (nr * 8 + nc)) EMPTY) as [He|Hne].
  - intros [<- | H]; [|exact (IH _ _ H)]. unfold plain_move. simpl.
    rewrite He. repeat split; try lia. left. reflexivity.
  - destruct (color_is _ enemy) eqn:Hc; [|contradiction].
    intros [<- | []]. unfold plain_move. simpl.
    rewrite captured_of_piece by exact Hne. repeat split; try lia.
    right. apply color_is_true, Hc.
Qed.

Lemma slider_moves_plain st idx upper m :
  In m (MoveGen.slider_moves st idx upper) ->
  plain_move (board st) (opposite (side_to_move st)) idx m.
Proof.
  unfold MoveGen.slider_moves. rewrite in_flat_map. intros (d & _ & H).
  exact (slide_plain _ _ _ _ _ _ _ _ _ H).
Qed.

Lemma plain_generated st idx m :
  0 <= idx < 64 ->
  piece_color (cell (board st) idx) = Some (side_to_move st) ->
  Py.upper (cell (board st) idx) <> "P"%char ->
  plain_move (board st) (opposite (side_to_move st)) idx m ->
  generated st m /\ from_square m = idx.
Proof.
  intros Hidx Hcol Hup (Hfrom & Hto & Hpromo & Hc & Hep & Hcap & Htarget).
  split; [|exact Hfrom]. unfold generated. rewrite Hfrom.
  repeat split; try lia; try exact Hcol.
  left. unfold normal_move. cbv zeta. rewrite Hfrom, Hpromo.
  assert (Hnot_own : color_is (piece_color (cell (board st) (to_square m))) (side_to_move st)
                     = false).
  { destruct Htarget as [-> | H]; [reflexivity|]. apply color_is_opposite, H. }
  repeat split; try assumption.
  - intros Heq. rewrite <- Heq, Hcol in Hnot_own.
    destruct (side_to_move st); discriminate.
  - intros H. contradiction.
Qed.

(** *** Pawn moves *)

Lemma pawn_moves_generated st idx m :
  0 <= idx < 64 ->
  piece_color (cell (board st) idx) = Some (side_to_move st) ->
  Py.upper (cell (board st) idx) = "P"%char ->
  In m (MoveGen.pawn_moves st idx) ->
  generated st m /\ from_square m = idx.
Proof.
  intros Hidx Hcol Hup. unfold MoveGen.pawn_moves. cbv zeta.
  assert (Hrow : 0 <= row_of idx < 8 /\ 0 <= col_of idx < 8
                 /\ idx = row_of idx * 8 + col_of idx)
    by (unfold row_of, col_of; zlia).
  set (row := row_of idx) in *. set (col := col_of idx) in *.
  set (side := side_to_move st) in *.
  assert (Hnormal : forall dest promo cap,
             0 <= dest < 64 -> dest <> idx ->
             cap = MoveGen.captured_of (cell (board st) dest) ->
             color_is (piece_color (cell (board st) dest)) side = false ->
             match promo with Some p => In p PROMOTIONS | None => True end ->
             (let d := (dest - idx) * pawn_dir side in
              d = 8 \/ d = 7 \/ d = 9
              \/ (row = pawn_start_row side /\ dest = idx + 16 * pawn_dir side
                  /\ promo = None
                  /\ cell (board st) (idx + 8 * pawn_dir side) = EMPTY)) ->
             generated st (mkMove idx dest promo false false cap)
             /\ from_square (mkMove idx dest promo false false cap) = idx).
  { intros dest promo cap Hd Hne Hcap Hown Hpromo Hstep. split; [|reflexivity].
    unfold generated. simpl. repeat split; try lia; try exact Hcol.
    left. unfold normal_move. cbv zeta. simpl. fold side.
    repeat split; try assumption; try congruence.
    - destruct promo; [split; assumption|exact I].
    - intros _. destruct Hstep as [H | [H | [H | (H1 & H2 & H3 & H4)]]]; auto.
      right. right. right. unfold double_push. simpl. fold side. auto. }
  rewrite in_app_iff. intros [Hpush | Hcapture].
  - (* pushes *)
    destruct (on_board (row + _) col) eqn:Hon; [|contradiction].
    apply on_board_spec in Hon.
    destruct (Ascii.eqb_spec (cell (board st) ((row + match side with
                                                      | White => -1 | Black => 1 end) * 8 + col))
                             EMPTY) as [He|]; [|contradiction].
    apply in_app_iff in Hpush as [Hsingle | Hdouble].
    + assert (Hgoal : forall promo,
                 match promo with Some p => In p PROMOTIONS | None => True end ->
                 generated st
                   (mkMove idx ((row + match side with White => -1 | Black => 1 end) * 8 + col)
                           promo false false None)
                 /\ from_square
                      (mkMove idx ((row + match side with White => -1 | Black => 1 end) * 8 + col)
                              promo false false None) = idx).
      { intros promo Hp. apply Hnormal; try assumption.
        - destruct side; lia.
        - destruct side; lia.
        - rewrite He. reflexivity.
        - rewrite He. reflexivity.
        - cbv zeta. left. destruct side; simpl; lia. }
      destruct (_ =? _).
      * apply in_map_iff in Hsingle as (p & <- & Hp). apply (Hgoal (Some p)), Hp.
      * destruct Hsingle as [<- | []]. apply (Hgoal None), I.
    + destruct (Z.eqb_spec row (match side with White => 6 | Black => 1 end)) as [Hstart|];
        [|contradiction].
      destruct (Ascii.eqb_spec (cell (board st) ((row + 2 * match side with
                                                            | White => -1 | Black => 1 end) * 8
                                                 + col)) EMPTY) as [He2|]; [|contradiction].
      destruct Hdouble as [<- | []].
      apply Hnormal; try assumption.
      * destruct side; lia.
      * destruct side; lia.
      * rewrite He2. reflexivity.
      * rewrite He2. reflexivity.
      * exact I.
      * cbv zeta. right. right. right.
        repeat split; try (destruct side; simpl in *; lia).
        rewrite <- He. f_equal. destruct side; simpl; lia.
  - (* captures and en passant *)
    apply in_flat_map in Hcapture as (dc & Hdc & H).
    assert (Hdc' : dc = -1 \/ dc = 1) by (simpl in Hdc; intuition lia). clear Hdc.
    destruct (on_board _ _) eqn:Hon; simpl in H; [|contradiction].
    apply on_board_spec in Hon.
    set (target := (row + match side with White => -1 | Black => 1 end) * 8 + (col + dc)) in *.
    assert (Htarget : 0 <= target < 64 /\ target <> idx
                      /\ ((target - idx) * pawn_dir side = 7
                          \/ (target - idx) * pawn_dir side = 9))
      by (unfold target; destruct side; simpl; lia).
    apply in_app_iff in H as [H | H].
    + destruct (negb _ && _) eqn:Hcond; [|contradiction].
      apply andb_true_iff in Hcond as [Hne Henemy].
      apply negb_true_iff, Ascii.eqb_neq in Hne. apply color_is_true in Henemy.
      assert (Hgoal : forall promo,
                 match promo with Some p => In p PROMOTIONS | None => True end ->
                 generated st (mkMove idx target promo false false
                                      (Some (cell (board st) target)))
                 /\ from_square (mkMove idx target promo false false
                                        (Some (cell (board st) target))) = idx).
      { intros promo Hp. apply Hnormal; try tauto.
        - rewrite captured_of_piece by exact Hne. reflexivity.
        - apply color_is_opposite, Henemy.
        - cbv zeta. tauto. }
      destruct (_ =? _).
      * simpl in H.
        repeat (destruct H as [<- | H]; [apply (Hgoal (Some _)); simpl; tauto|]).
        contradiction.
      * destruct H as [<- | []]. apply (Hgoal None), I.
    + destruct (en_passant st) as [e|] eqn:Hep; [|contradiction].
      destruct (Z.eqb_spec target e) as [<-|]; [|contradiction].
      destruct H as [<- | []]. split; [|reflexivity].
      unfold generated. simpl. repeat split; try lia; try exact Hcol.
      right. left. unfold en_passant_move. cbv zeta. simpl. fold side.
      repeat split; try assumption.
      * unfold row_of, target. destruct side; simpl; zlia.
      * unfold col_of, target. fold col. destruct Hdc' as [-> | ->]; [right|left]; zlia.
Qed.

(** *** Castling *)

Lemma castle_wing_in st idx right empties walk dest m :
  In m (MoveGen.castle_wing st idx right empties walk dest) <->
  m = mkMove idx (sq dest) None true false None
  /\ Py.contains right (castling_rights st) = true
  /\ forallb (fun s => Ascii.eqb (cell (board st) (sq s)) EMPTY) empties = true
  /\ GameState.is_square_attacked st idx (opposite (side_to_move st)) = false
  /\ forallb (fun s => negb (GameState.is_square_attacked st (sq s)
                               (opposite (side_to_move st)))) walk = true.
Proof.
  unfold MoveGen.castle_wing.
  destruct (Py.contains _ _); [|split; [contradiction|intros (_ & H & _); discriminate]].
  destruct (forallb _ empties);
    [|split; [contradiction|intros (_ & _ & H & _); discriminate]].
  destruct (GameState.is_square_attacked st idx _); simpl;
    [split; [contradiction|intros (_ & _ & _ & H & _); discriminate]|].
  destruct (forallb _ walk); simpl;
    [|split; [contradiction|intros (_ & _ & _ & _ & H); discriminate]].
  split.
  - intros [<- | []]. auto.
  - intros (-> & _). left. reflexivity.
Qed.

Lemma castling_moves_generated st idx m :
  0 <= idx < 64 ->
  piece_color (cell (board st) idx) = Some (side_to_move st) ->
  Py.upper (cell (board st) idx) = "K"%char ->
  In m (MoveGen.castling_moves st idx) ->
  generated st m /\ from_square m = idx.
Proof.
  intros Hidx Hcol Hup. unfold MoveGen.castling_moves.
  pose proof (own_king _ _ Hcol Hup) as Hking.
  destruct (side_to_move st) eqn:Hside.
  - destruct ((row_of idx =? 7) && (col_of idx =? 4)) eqn:Hhome; [|contradiction].
    apply andb_true_iff in Hhome as [Hr Hc].
    apply Z.eqb_eq in Hr, Hc.
    assert (idx = 60) by (unfold row_of, col_of in *; zlia). subst idx.
    rewrite in_app_iff, !castle_wing_in.
    intros [(-> & _ & Hempty & _) | (-> & _ & Hempty & _)];
      (split; [|reflexivity]); simpl in Hempty; eval_sq;
      repeat (apply andb_true_iff in Hempty as [?%Ascii.eqb_eq Hempty]);
      unfold generated, castle_move; simpl; rewrite Hside; simpl;
      (repeat split; try lia; try assumption);
      right; right; (repeat split; try lia; try assumption); auto.
  - destruct ((row_of idx =? 0) && (col_of idx =? 4)) eqn:Hhome; [|contradiction].
    apply andb_true_iff in Hhome as [Hr Hc].
    apply Z.eqb_eq in Hr, Hc.
    assert (idx = 4) by (unfold row_of, col_of in *; zlia). subst idx.
    rewrite in_app_iff, !castle_wing_in.
    intros [(-> & _ & Hempty & _) | (-> & _ & Hempty & _)];
      (split; [|reflexivity]); simpl in Hempty; eval_sq;
      repeat (apply andb_true_iff in Hempty as [?%Ascii.eqb_eq Hempty]);
      unfold generated, castle_move; simpl; rewrite Hside; simpl;
      (repeat split; try lia; try assumption);
      right; right; (repeat split; try lia; try assumption); auto.
Qed.

(** *** Every generated move has the shape [generated] *)

Lemma piece_moves_generated st (k : nat) piece m :
  length (board st) = 64%nat ->
  board st !! k = Some piece ->
  In m (MoveGen.piece_moves st (Z.of_nat k) piece) ->
  generated st m /\ from_square m = Z.of_nat k.
Proof.
  intros Hlen Hk. pose proof (lookup_lt_Some _ _ _ Hk) as Hlt.
  pose proof (cell_lookup _ _ _ Hk) as Hcell.
  assert (Hidx : 0 <= Z.of_nat k < 64) by lia.
  unfold MoveGen.piece_moves.
  destruct (Ascii.eqb piece EMPTY || _) eqn:Hskip; [contradiction|].
  apply orb_false_iff in Hskip as [_ Hcol]. apply negb_false_iff, color_is_true in Hcol.
  rewrite <- Hcell in Hcol.
  destruct (Ascii.eqb_spec (Py.upper piece) "P") as [HP|HnP].
  { apply pawn_moves_generated; [exact Hidx|exact Hcol|rewrite Hcell; exact HP]. }
  assert (Hup : Py.upper (cell (board st) (Z.of_nat k)) <> "P"%char) by (rewrite Hcell; exact HnP).
  destruct (Ascii.eqb (Py.upper piece) "N").
  { intros H. apply plain_generated; try assumption. eapply step_moves_plain, H. }
  destruct (_ || _).
  { intros H. apply plain_generated; try assumption. eapply slider_moves_plain, H. }
  destruct (Ascii.eqb_spec (Py.upper piece) "K") as [HK|]; [|contradiction].
  rewrite in_app_iff. intros [H | H].
  - apply plain_generated; try assumption. eapply step_moves_plain, H.
  - apply castling_moves_generated; [exact Hidx|exact Hcol|rewrite Hcell; exact HK|exact H].
Qed.

Lemma pseudo_legal_generated st m :
  length (board st) = 64%nat ->
  In m (MoveGen.generate_pseudo_legal_moves st) ->
  generated st m.
Proof.
  intros Hlen Hin. apply in_pseudo_legal in Hin as (k & piece & Hk & Hin).
  apply (piece_moves_generated st k piece m Hlen Hk Hin).
Qed.

(** C10 (as amended).  On a 64-cell board whose en-passant target, if any,
    does not hold a piece of the side to move, every pseudo-legal move goes
    from a square in 0..63 that holds a piece of the side to move to a square
    in 0..63 that does not hold a piece of the mover's colour. *)
Theorem pseudo_legal_moves_on_board :
  forall (st : GameState) (m : Move),
    length (board st) = 64%nat ->
    ep_target_not_own st ->
    In m (MoveGen.generate_pseudo_legal_moves st) ->
    0 <= from_square m < 64
    /\ 0 <= to_square m < 64
    /\ piece_color (cell (board st) (from_square m)) = Some (side_to_move st)
    /\ piece_color (cell (board st) (to_square m)) <> Some (side_to_move st).
Proof.
  intros st m Hlen Hep Hin.
  destruct (pseudo_legal_generated st m Hlen Hin) as (Hfrom & Hto & Hmover & Hkind).
  repeat split; try lia; try exact Hmover.
  intros Hown. apply color_is_true in Hown.
  destruct Hkind as [Hn | [He | Hc]].
  - destruct Hn as (_ & _ & _ & _ & Hnot & _). congruence.
  - destruct He as (_ & _ & _ & _ & _ & Htarget & _).
    rewrite (Hep _ Htarget Hto) in Hown. discriminate.
  - destruct Hc as (_ & _ & _ & _ & _ & _ & _ & Hempty & _).
    rewrite Hempty in Hown. discriminate.
Qed.

Lemma pseudo_legal_moves_on_board_witness :
  exists st, GameState.starting_state = Some st
             /\ piece_color (cell (board st) 40) <> Some (side_to_move st).
Proof.
  eexists. split; [vm_compute; reflexivity|].
  apply (pseudo_legal_moves_on_board _ (mkMove 48 40 None false false None)).
  - reflexivity.
  - intros e He. discriminate He.
  - vm_compute. left. reflexivity.
Defined.

(** C10 as stated fails: with the en-passant target set on a square that
    holds a white knight, the white pawn next to it is given an en-passant
    capture onto that knight. *)
Lemma pseudo_legal_self_capture :
  exists (st : GameState) (m : Move),
    position "4k3/8/3N4/4P3/8/8/8/4K3" White "-" (Some 19) 0 1 = Some st
    /\ length (board st) = 64%nat
    /\ In m (MoveGen.generate_pseudo_legal_moves st)
    /\ is_en_passant m = true
    /\ cell (board st) (to_square m) = "N"%char
    /\ piece_color (cell (board st) (to_square m)) = Some (side_to_move st).
Proof.
  eexists. exists (mkMove 28 19 None false true None).
  split; [vm_compute; reflexivity|].
  split; [reflexivity|]. split; [vm_compute; tauto|].
  repeat split.
Qed.

(** ** Position: applying and undoing a move *)

Lemma index_in_range {A} (xs : list A) i :
  0 <= i < Z.of_nat (length xs) -> Py.index xs i = Some (Z.to_nat i).
Proof.
  intros H. unfold Py.index. cbv zeta.
  destruct (Z.leb_spec 0 i); [|lia]. destruct (Z.ltb_spec i (Z.of_nat (length xs))); [|lia].
  reflexivity.
Qed.

Lemma getitem_cell b i :
  0 <= i < Z.of_nat (length b) -> Py.getitem b i = Some (cell b i).
Proof.
  intros H. unfold Py.getitem, cell. rewrite index_in_range by exact H.
  destruct (lookup_lt_is_Some_2 b (Z.to_nat i) ltac:(lia)) as [x ->]. reflexivity.
Qed.

Lemma setitem_put b i x :
  0 <= i < Z.of_nat (length b) -> Py.setitem b i x = Some (put b i x).
Proof. intros H. unfold Py.setitem. rewrite index_in_range by exact H. reflexivity. Qed.

Lemma length_put b i x : length (put b i x) = length b.
Proof. apply length_insert. Qed.

Lemma cell_put b i j x :
  0 <= i < Z.of_nat (length b) -> 0 <= j ->
  cell (put b i x) j = if i =? j then x else cell b j.
Proof.
  intros Hi Hj. unfold cell, put. rewrite list_lookup_insert.
  destruct (Z.eqb_spec i j) as [->|Hne].
  - rewrite decide_True by (split; [reflexivity|lia]). reflexivity.
  - rewrite decide_False by lia. reflexivity.
Qed.

Lemma board_ext b1 b2 :
  length b1 = length b2 ->
  (forall j, 0 <= j < Z.of_nat (length b1) -> cell b1 j = cell b2 j) ->
  b1 = b2.
Proof.
  intros Hlen H. apply list_eq. intros i.
  destruct (decide (i < length b1)%nat) as [Hi|Hi].
  - specialize (H (Z.of_nat i) ltac:(lia)). unfold cell in H. rewrite Nat2Z.id in H.
    destruct (lookup_lt_is_Some_2 b1 i Hi) as [x Hx].
    destruct (lookup_lt_is_Some_2 b2 i ltac:(lia)) as [y Hy].
    rewrite Hx, Hy in *. simpl in H. congruence.
  - rewrite !lookup_ge_None_2 by lia. reflexivity.
Qed.

Lemma castle_rook_squares_range to rf rt :
  GameState.castle_rook_squares to = Some (rf, rt) -> 0 <= rf < 64 /\ 0 <= rt < 64.
Proof.
  unfold GameState.castle_rook_squares. eval_sq.
  repeat (destruct (_ =? _); [intros [= <- <-]; lia|]). discriminate.
Qed.

(** A generated en-passant capture takes from a square of the board. *)
Lemma ep_victim_range st m :
  0 <= from_square m < 64 -> 0 <= to_square m < 64 ->
  en_passant_move st m ->
  0 <= ep_victim_square (side_to_move st) (to_square m) < 64
  /\ ep_victim_square (side_to_move st) (to_square m) <> from_square m
  /\ ep_victim_square (side_to_move st) (to_square m) <> to_square m.
Proof.
  intros Hf Ht (_ & _ & _ & _ & _ & _ & Hrow & Hcol).
  unfold ep_victim_square, row_of, col_of, pawn_dir in *.
  destruct (side_to_move st); zlia.
Qed.

(** [make_move] does not raise on a generated move. *)
Lemma make_move_generated st m :
  length (board st) = 64%nat -> generated st m ->
  GameState.make_move st m = Some (after_move st m).
Proof.
  intros Hlen (Hf & Ht & Hmover & Hkind).
  assert (Hvictim : is_en_passant m = true ->
                    0 <= ep_victim_square (side_to_move st) (to_square m) < 64).
  { intros Hep. destruct Hkind as [Hn | [He | Hc]].
    - destruct Hn as (_ & H & _). congruence.
    - apply (ep_victim_range st m Hf Ht He).
    - destruct Hc as (_ & H & _). congruence. }
  unfold GameState.make_move, after_move. cbv zeta.
  rewrite (getitem_cell (board st) (from_square m)) by lia. simpl.
  rewrite (proj2 (Ascii.eqb_neq _ _) (piece_color_some _ _ Hmover)).
  rewrite (getitem_cell (board st) (to_square m)) by lia. simpl.
  fold (ep_victim_square (side_to_move st) (to_square m)).
  destruct (is_en_passant m) eqn:Hep;
    [specialize (Hvictim eq_refl)|];
    destruct (is_castle m) eqn:Hc;
    try (destruct (GameState.castle_rook_squares (to_square m)) as [[rf rt]|] eqn:Hr;
         [destruct (castle_rook_squares_range _ _ _ Hr)|]);
    cbn [mbind option_bind];
    repeat (first [ rewrite setitem_put by (rewrite ?length_put; lia)
                  | rewrite getitem_cell by (rewrite ?length_put; lia) ];
            cbn [mbind option_bind]);
    reflexivity.
Qed.

(** *** The en-passant target left by a move *)

Lemma double_push_iff st m :
  generated st m ->
  double_push st m <->
  Py.upper (cell (board st) (from_square m)) = "P"%char
  /\ Z.abs (to_square m - from_square m) = 16.
Proof.
  intros (Hf & Ht & Hmover & Hkind). split.
  - intros (Hp & _ & Hto). split; [exact Hp|].
    unfold pawn_dir in Hto. destruct (side_to_move st); lia.
  - intros [Hp Habs]. destruct Hkind as [Hn | [He | Hc]].
    + destruct Hn as (_ & _ & _ & _ & _ & _ & Hstep).
      destruct (Hstep Hp) as [H | [H | [H | [H _]]]]; try exact H;
        unfold pawn_dir in H; destruct (side_to_move st); lia.
    + destruct He as (_ & _ & _ & _ & _ & _ & Hrow & Hcol).
      unfold row_of, col_of, pawn_dir in *. destruct (side_to_move st); zlia.
    + destruct Hc as (_ & _ & _ & _ & Hking & _). rewrite Hking in Hp.
      destruct (side_to_move st); discriminate Hp.
Qed.

(** C9 (as amended).  After [make_move] of a pseudo-legal move (a move of
    [generate_pseudo_legal_moves] on a board of 64 cells), the en-passant
    target is the square midway between [from] and [to] exactly when the
    move is a pawn advancing two ranks from its start rank, and is cleared
    after every other move, whatever the target was before. *)
Theorem en_passant_target_after_move :
  forall (st : GameState) (m : Move),
    length (board st) = 64%nat ->
    In m (MoveGen.generate_pseudo_legal_moves st) ->
    exists st', GameState.make_move st m = Some st'
                /\ (double_push st m ->
                    en_passant st' = Some ((from_square m + to_square m) / 2))
                /\ (~ double_push st m -> en_passant st' = None).
Proof.
  intros st m Hlen Hin.
  pose proof (pseudo_legal_generated st m Hlen Hin) as Hgen.
  exists (after_move st m). split; [apply make_move_generated; assumption|].
  pose proof (double_push_iff st m Hgen) as Hiff.
  unfold after_move. cbv zeta. simpl. unfold GameState.new_en_passant.
  destruct (Ascii.eqb_spec (Py.upper (cell (board st) (from_square m))) "P") as [Hp|Hp];
    destruct (Z.eqb_spec (Z.abs (to_square m - from_square m)) 16) as [Ha|Ha]; simpl.
  - split; [|intros H; exfalso; apply H, Hiff; auto].
    intros _. f_equal. f_equal. lia.
  - split; [|reflexivity]. intros H. apply Hiff in H. tauto.
  - split; [|reflexivity]. intros H. apply Hiff in H. tauto.
  - split; [|reflexivity]. intros H. apply Hiff in H. tauto.
Qed.

Lemma en_passant_target_after_move_witness :
  exists st st', GameState.starting_state = Some st
                 /\ GameState.make_move st (mkMove 52 36 None false false None) = Some st'
                 /\ en_passant st' = Some 44.
Proof.
  destruct GameState.starting_state as [st|] eqn:E; [|discriminate E].
  vm_compute in E. injection E as E.
  destruct (en_passant_target_after_move st (mkMove 52 36 None false false None))
    as (st' & Hmake & Hset & _).
  - rewrite <- E. reflexivity.
  - rewrite <- E. vm_compute. tauto.
  - exists st, st'. split; [reflexivity|]. split; [exact Hmake|].
    rewrite Hset; [reflexivity|]. rewrite <- E. repeat split.
Defined.

(** C9 as stated fails: [make_move] takes any move, and sets the target
    whenever a pawn moves by 16 squares, without looking at the row it leaves.
    The white pawn of this position stands on e4; the move e4-e6, which the
    move generator does not produce, is applied and leaves the target e5,
    although the pawn did not leave its start rank. *)
Lemma en_passant_target_off_start_rank :
  exists (st st' : GameState) (m : Move),
    position "4k3/8/8/8/4P3/8/8/4K3" White "-" None 0 1 = Some st
    /\ m = mkMove 36 20 None false false None
    /\ GameState.make_move st m = Some st'
    /\ ~ double_push st m
    /\ row_of (from_square m) = 4 /\ pawn_start_row (side_to_move st) = 6
    /\ ~ In m (MoveGen.generate_pseudo_legal_moves st)
    /\ en_passant st' = Some 28.
Proof.
  eexists. eexists. eexists.
  split; [vm_compute; reflexivity|]. split; [reflexivity|].
  split; [vm_compute; reflexivity|].
  split; [intros (_ & Hrow & _); vm_compute in Hrow; discriminate Hrow|].
  split; [reflexivity|]. split; [reflexivity|].
  split; [|reflexivity].
  intros Hin. vm_compute in Hin.
  repeat (destruct Hin as [Hin|Hin]; [discriminate Hin|]). exact Hin.
Qed.

(** *** Undoing a generated move *)

Lemma repetition_undo (rep : gmap string Z) (key : string) :
  map_Forall (fun _ n => 0 < n) rep ->
  let rep1 := <[key := default 0 (rep !! key) + 1]> rep in
  let n := default 1 (rep1 !! key) - 1 in
  (if n <=? 0 then delete key (<[key := n]> rep1) else <[key := n]> rep1) = rep.
Proof.
  intros Hpos. cbv zeta. rewrite lookup_insert_eq. simpl.
  rewrite insert_insert_eq.
  destruct (rep !! key) as [c|] eqn:E; simpl.
  - pose proof (Hpos key c E) as Hc. simpl in Hc.
    destruct (Z.leb_spec (c + 1 - 1) 0); [lia|].
    apply insert_id. rewrite E. f_equal. lia.
  - rewrite delete_insert_eq. apply delete_id, E.
Qed.

Lemma state_eq st b side rights ep half full hist rep :
  b = board st -> side = side_to_move st -> rights = castling_rights st ->
  ep = en_passant st -> half = halfmove_clock st -> full = fullmove_number st ->
  hist = history st -> rep = repetition st ->
  mkState b side rights ep half full hist rep = st.
Proof. destruct st; simpl; intros; subst; reflexivity. Qed.

Lemma default_captured_of p : default EMPTY (MoveGen.captured_of p) = p.
Proof.
  unfold MoveGen.captured_of. destruct (Ascii.eqb_spec p EMPTY) as [->|]; reflexivity.
Qed.

(** Compare two boards cell by cell after a series of writes. *)
Ltac cells :=
  repeat (rewrite cell_put by (rewrite ?length_put; lia));
  repeat match goal with
    | |- context [?a =? ?b] => destruct (Z.eqb_spec a b); try lia
    end;
  try reflexivity; try congruence.

Lemma castle_rook_squares_generated st m :
  castle_move st m ->
  exists rf rt, GameState.castle_rook_squares (to_square m) = Some (rf, rt)
                /\ rt = (from_square m + to_square m) / 2
                /\ 0 <= rf < 64 /\ 0 <= rt < 64
                /\ rf <> from_square m /\ rf <> to_square m /\ rf <> rt
                /\ rt <> from_square m /\ rt <> to_square m.
Proof.
  intros (_ & _ & _ & _ & _ & Hfrom & Hto & _). rewrite Hfrom.
  unfold king_home in *.
  destruct (side_to_move st), Hto as [-> | ->]; simpl;
    eexists; eexists; (split; [vm_compute; reflexivity|]); repeat split; lia.
Qed.

Lemma undo_after_move st m :
  length (board st) = 64%nat -> generated st m ->
  ep_target_vacant st -> repetition_positive st ->
  GameState.undo_move (after_move st m) = Some st.
Proof.
  intros Hlen (Hf & Ht & Hmover & Hkind) Hvac Hpos.
  unfold GameState.undo_move, after_move. cbv zeta.
  cbn [history u_move u_rep_key u_moved_piece u_captured u_ep_capture_square u_rook_move
       u_prev_side u_prev_castling u_prev_en_passant u_prev_halfmove u_prev_fullmove
       board repetition].
  destruct Hkind as [Hn | [He | Hc]].
  - (* ordinary move *)
    destruct Hn as (Hc & Hep & Hne & _). rewrite Hc, Hep.
    repeat (rewrite setitem_put by (rewrite ?length_put; lia); cbn [mbind option_bind]).
    rewrite default_captured_of.
    destruct (promotion m) as [p|]; cbn [mbind option_bind];
      f_equal; (apply state_eq; try reflexivity; [| apply repetition_undo, Hpos]);
      (apply board_ext; [rewrite ?length_put; reflexivity|]);
      rewrite ?length_put; intros j Hj; cells.
  - (* en passant *)
    pose proof (ep_victim_range st m Hf Ht He) as (Hv & Hvf & Hvt).
    destruct He as (Hep & Hc & Hpromo & _ & _ & Htarget & Hrow & _).
    pose proof (Hvac _ Htarget Ht) as Hempty.
    assert (Hne : from_square m <> to_square m).
    { intros Heq. rewrite Heq in Hrow. unfold pawn_dir in Hrow. destruct (side_to_move st); lia. }
    rewrite Hc, Hep, Hpromo.
    repeat (rewrite setitem_put by (rewrite ?length_put; lia); cbn [mbind option_bind default]).
    f_equal. apply state_eq; try reflexivity; [| apply repetition_undo, Hpos].
    apply board_ext; [rewrite ?length_put; reflexivity|].
    rewrite ?length_put. intros j Hj. cells.
  - (* castling *)
    destruct (castle_rook_squares_generated st m Hc)
      as (rf & rt & Hr & Hrt & Hrf1 & Hrt1 & Hd1 & Hd2 & Hd3 & Hd4 & Hd5).
    destruct Hc as (Hc & Hep & Hpromo & _ & _ & _ & _ & Hto_empty & Hrt_empty).
    rewrite <- Hrt in Hrt_empty.
    assert (Hne : from_square m <> to_square m).
    { intros Heq. rewrite <- Heq, Hto_empty in *. discriminate Hmover. }
    rewrite Hc, Hep, Hpromo, Hr.
    repeat (rewrite setitem_put by (rewrite ?length_put; lia); cbn [mbind option_bind]).
    rewrite default_captured_of.
    repeat (rewrite setitem_put by (rewrite ?length_put; lia); cbn [mbind option_bind]).
    f_equal. apply state_eq; try reflexivity; [| apply repetition_undo, Hpos].
    apply board_ext; [rewrite ?length_put; reflexivity|].
    rewrite ?length_put. intros j Hj. cells.
Qed.

(** ** Legal moves *)

(** The loop of [generate_legal_moves] on a position that every candidate
    leaves intact: it filters the candidates and returns the position
    unchanged. *)
Lemma legal_loop_filter st c :
  length (board st) = 64%nat -> ep_target_vacant st -> repetition_positive st ->
  forall pseudo acc legal st',
    Forall (generated st) pseudo ->
    MoveGen.legal_loop c pseudo st acc = Some (legal, st') ->
    st' = st /\ legal = acc ++ List.filter (keeps_king_safe st c) pseudo.
Proof.
  intros Hlen Hvac Hpos.
  induction pseudo as [|m rest IH]; intros acc legal st' Hgen Hloop; simpl in *.
  - injection Hloop as <- <-. rewrite app_nil_r. auto.
  - apply Forall_cons_1 in Hgen as [Hm Hrest].
    rewrite (make_move_generated st m Hlen Hm) in Hloop. cbn [mbind option_bind] in Hloop.
    unfold keeps_king_safe.
    destruct (GameState.is_in_check (after_move st m) c) as [chk|]; [|discriminate].
    cbn [mbind option_bind] in Hloop.
    rewrite (undo_after_move st m Hlen Hm Hvac Hpos) in Hloop. cbn [mbind option_bind] in Hloop.
    destruct (IH _ _ _ Hrest Hloop) as [-> ->]. split; [reflexivity|].
    destruct chk; [reflexivity|]. rewrite <- app_assoc. reflexivity.
Qed.

Lemma legal_moves_filter st legal st' :
  length (board st) = 64%nat -> ep_target_vacant st -> repetition_positive st ->
  MoveGen.generate_legal_moves st = Some (legal, st') ->
  st' = st
  /\ legal = List.filter (keeps_king_safe st (side_to_move st))
                         (MoveGen.generate_pseudo_legal_moves st).
Proof.
  intros Hlen Hvac Hpos H. unfold MoveGen.generate_legal_moves in H.
  apply (legal_loop_filter st _ Hlen Hvac Hpos _ [] legal st'); [|exact H].
  apply List.Forall_forall. intros m Hm. apply pseudo_legal_generated; assumption.
Qed.

(** Whatever the position, a legal move is one of the candidates. *)
Lemma legal_loop_subset c pseudo : forall st acc legal st',
  MoveGen.legal_loop c pseudo st acc = Some (legal, st') ->
  forall m, In m legal -> In m acc \/ In m pseudo.
Proof.
  induction pseudo as [|x rest IH]; intros st acc legal st' Hloop m Hin; simpl in *.
  - injection Hloop as <- <-. auto.
  - destruct (GameState.make_move st x) as [st1|]; [|discriminate].
    cbn [mbind option_bind] in Hloop.
    destruct (GameState.is_in_check st1 c) as [chk|]; [|discriminate].
    cbn [mbind option_bind] in Hloop.
    destruct (GameState.undo_move st1) as [st2|]; [|discriminate].
    cbn [mbind option_bind] in Hloop.
    destruct (IH _ _ _ _ Hloop m Hin) as [H | H]; [|auto].
    destruct chk; [auto|]. apply in_app_iff in H as [H | [<- | []]]; auto.
Qed.

Lemma legal_is_pseudo_legal st legal st' m :
  MoveGen.generate_legal_moves st = Some (legal, st') ->
  In m legal -> In m (MoveGen.generate_pseudo_legal_moves st).
Proof.
  intros H Hin. destruct (legal_loop_subset _ _ _ _ _ _ H m Hin) as [[] | Hp]. exact Hp.
Qed.

(** C1 (as amended).  In a position whose en-passant target, if any, is an
    empty square (the repetition counts being positive, as [__init__],
    [make_move] and [undo_move] keep them), [make_move] of a legal move
    followed by [undo_move] gives back the very same position: board, side,
    castling rights, en-passant target, both clocks, history and repetition
    table. *)
Theorem make_undo_restores_position :
  forall (st : GameState) (legal : list Move) (st' : GameState) (m : Move),
    length (board st) = 64%nat ->
    ep_target_vacant st ->
    repetition_positive st ->
    MoveGen.generate_legal_moves st = Some (legal, st') ->
    In m legal ->
    exists st1, GameState.make_move st m = Some st1
                /\ GameState.undo_move st1 = Some st.
Proof.
  intros st legal st' m Hlen Hvac Hpos Hlegal Hin.
  pose proof (legal_is_pseudo_legal _ _ _ _ Hlegal Hin) as Hp.
  pose proof (pseudo_legal_generated st m Hlen Hp) as Hgen.
  exists (after_move st m). split.
  - apply make_move_generated; assumption.
  - apply undo_after_move; assumption.
Qed.

Lemma starting_state_start : GameState.starting_state = Some start.
Proof. reflexivity. Qed.

(** The repetition counts are positive in every position that the engine
    builds. *)
Lemma init_repetition_positive b side castling ep halfmove fullmove :
  repetition_positive (GameState.init b side castling ep halfmove fullmove).
Proof.
  unfold repetition_positive, GameState.init, GameState.update_repetition. simpl.
  apply map_Forall_insert_2; [|apply map_Forall_empty].
  rewrite lookup_empty. simpl. lia.
Qed.

Lemma after_move_repetition_positive st m :
  repetition_positive st -> repetition_positive (after_move st m).
Proof.
  unfold repetition_positive, after_move. cbv zeta. simpl. intros Hpos.
  apply map_Forall_insert_2; [|exact Hpos].
  match goal with |- context [repetition st !! ?k] =>
    destruct (repetition st !! k) as [c|] eqn:E end; simpl; [|lia].
  pose proof (Hpos _ _ E) as Hc. simpl in Hc. lia.
Qed.

Lemma position_state fen side castling ep halfmove fullmove st :
  position fen side castling ep halfmove fullmove = Some st ->
  length (board st) = 64%nat /\ repetition_positive st.
Proof.
  unfold position. destruct (Board.from_fen fen) as [b|] eqn:E; [|discriminate].
  cbn [mbind option_bind]. intros [= <-]. split.
  - apply (from_fen_board _ _ E).
  - apply init_repetition_positive.
Qed.

Lemma make_undo_restores_position_witness :
  exists st1, GameState.make_move start (mkMove 52 36 None false false None) = Some st1
              /\ GameState.undo_move st1 = Some start.
Proof.
  eapply (make_undo_restores_position start _ _ (mkMove 52 36 None false false None)).
  - reflexivity.
  - intros e He. discriminate He.
  - apply init_repetition_positive.
  - vm_compute. reflexivity.
  - right. right. right. right. right. right. right. right. right. left. reflexivity.
Defined.

(** C1 as stated fails: with the en-passant target set on the square of a
    white knight, the en-passant capture of the white pawn is legal, and
    after [make_move] and [undo_move] the knight is gone. *)
Lemma make_undo_loses_piece :
  exists (st : GameState) (legal : list Move) (st' : GameState) (m : Move)
         (st1 st2 : GameState),
    position "4k3/8/3N4/4P3/8/8/8/4K3" White "-" (Some 19) 0 1 = Some st
    /\ MoveGen.generate_legal_moves st = Some (legal, st')
    /\ In m legal
    /\ GameState.make_move st m = Some st1
    /\ GameState.undo_move st1 = Some st2
    /\ Board.to_fen (board st) = "4k3/8/3N4/4P3/8/8/8/4K3"
    /\ Board.to_fen (board st2) = "4k3/8/8/4P3/8/8/8/4K3".
Proof.
  eexists. eexists. eexists. exists (mkMove 28 19 None false true None). eexists. eexists.
  split; [vm_compute; reflexivity|].
  split; [vm_compute; reflexivity|].
  split; [vm_compute; tauto|].
  split; [vm_compute; reflexivity|].
  split; [vm_compute; reflexivity|].
  split; [vm_compute; reflexivity|].
  vm_compute. reflexivity.
Qed.

(** C2 (as amended).  In a position whose en-passant target, if any, is an
    empty square (the repetition counts being positive), every move that
    [generate_legal_moves] returns can be made, and in the position it
    produces the mover's king is found and is not attacked by the
    opponent. *)
Theorem legal_moves_keep_king_safe :
  forall (st : GameState) (legal : list Move) (st' : GameState) (m : Move),
    length (board st) = 64%nat ->
    ep_target_vacant st ->
    repetition_positive st ->
    MoveGen.generate_legal_moves st = Some (legal, st') ->
    In m legal ->
    exists st1 king_sq,
      GameState.make_move st m = Some st1
      /\ Board.locate_king (board st1) (side_to_move st) = Some king_sq
      /\ GameState.is_square_attacked st1 king_sq (opposite (side_to_move st)) = false.
Proof.
  intros st legal st' m Hlen Hvac Hpos Hlegal Hin.
  pose proof (legal_is_pseudo_legal _ _ _ _ Hlegal Hin) as Hp.
  pose proof (pseudo_legal_generated st m Hlen Hp) as Hgen.
  destruct (legal_moves_filter st legal st' Hlen Hvac Hpos Hlegal) as [_ ->].
  apply filter_In in Hin as [_ Hsafe]. unfold keeps_king_safe in Hsafe.
  destruct (GameState.is_in_check (after_move st m) (side_to_move st)) as [[|]|] eqn:E;
    try discriminate.
  unfold GameState.is_in_check in E.
  destruct (Board.locate_king (board (after_move st m)) (side_to_move st)) as [king_sq|] eqn:Ek;
    [|discriminate].
  cbn [mbind option_bind] in E. injection E as E.
  exists (after_move st m), king_sq. split; [apply make_move_generated; assumption|].
  split; [exact Ek|exact E].
Qed.

Lemma legal_moves_keep_king_safe_witness :
  exists st1 king_sq,
    GameState.make_move start (mkMove 52 36 None false false None) = Some st1
    /\ Board.locate_king (board st1) White = Some king_sq
    /\ GameState.is_square_attacked st1 king_sq Black = false.
Proof.
  eapply (legal_moves_keep_king_safe start _ _ (mkMove 52 36 None false false None)).
  - reflexivity.
  - intros e He. discriminate He.
  - apply init_repetition_positive.
  - vm_compute. reflexivity.
  - right. right. right. right. right. right. right. right. right. left. reflexivity.
Defined.

(** C2 as stated fails: with the en-passant target set on the square of a
    black rook that attacks d2, the en-passant candidate is tried first, its
    undo wipes the rook off the board, and the king move d1-d2 is then
    accepted although, made in the position itself, it steps into the
    rook's file. *)
Lemma legal_move_into_check :
  exists (st : GameState) (legal : list Move) (st' : GameState) (m : Move) (st1 : GameState),
    position "4k3/8/3r4/4P3/8/8/8/3K4" White "-" (Some 19) 0 1 = Some st
    /\ one_king_per_color (board st)
    /\ MoveGen.generate_legal_moves st = Some (legal, st')
    /\ In m legal
    /\ GameState.make_move st m = Some st1
    /\ GameState.is_in_check st1 (side_to_move st) = Some true.
Proof.
  eexists. eexists. eexists. exists (mkMove 59 51 None false false None). eexists.
  split; [vm_compute; reflexivity|].
  split; [split; vm_compute; reflexivity|].
  split; [vm_compute; reflexivity|].
  split; [vm_compute; tauto|].
  split; [vm_compute; reflexivity|].
  vm_compute. reflexivity.
Qed.

(** ** Castling *)

Lemma generated_castle_from_king st m :
  generated st m -> is_castle m = true ->
  Py.upper (cell (board st) (from_square m)) = "K"%char.
Proof.
  intros (_ & _ & _ & [Hn | [He | Hc]]) Hcastle.
  - destruct Hn as (H & _). congruence.
  - destruct He as (_ & H & _). congruence.
  - destruct Hc as (_ & _ & _ & _ & -> & _). destruct (side_to_move st); reflexivity.
Qed.

(** A castling candidate can only come out of [castling_moves]. *)
Lemma castle_in_piece_moves st (k : nat) piece m :
  length (board st) = 64%nat -> board st !! k = Some piece ->
  is_castle m = true ->
  In m (MoveGen.piece_moves st (Z.of_nat k) piece) ->
  piece = king_of (side_to_move st) /\ In m (MoveGen.castling_moves st (Z.of_nat k)).
Proof.
  intros Hlen Hk Hcastle Hin.
  destruct (piece_moves_generated st k piece m Hlen Hk Hin) as [Hgen Hfrom].
  pose proof (generated_castle_from_king st m Hgen Hcastle) as Hup.
  rewrite Hfrom, (cell_lookup _ _ _ Hk) in Hup.
  destruct Hgen as (_ & _ & Hmover & _). rewrite Hfrom, (cell_lookup _ _ _ Hk) in Hmover.
  split; [apply own_king; assumption|].
  unfold MoveGen.piece_moves in Hin.
  destruct (Ascii.eqb piece EMPTY || _); [contradiction|].
  rewrite Hup in Hin. eval_eqb_in Hin. cbv beta iota zeta delta [orb] in Hin.
  apply in_app_iff in Hin as [H | H]; [|exact H].
  apply step_moves_plain in H. destruct H as (_ & _ & _ & H & _). congruence.
Qed.

Lemma king_piece_moves st c :
  side_to_move st = c ->
  forall m, In m (MoveGen.castling_moves st (king_home c)) ->
            In m (MoveGen.piece_moves st (king_home c) (king_of c)).
Proof.
  intros Hside m Hin. unfold MoveGen.piece_moves. rewrite Hside.
  destruct c; unfold king_of, white_black; eval_eqb; cbv beta iota zeta delta [orb negb color_is piece_color Py.isupper color_eqb];
    eval_eqb; apply in_app_iff; right; exact Hin.
Qed.

Lemma castling_moves_in st w :
  In (castling_move (side_to_move st) w)
     (MoveGen.castling_moves st (king_home (side_to_move st)))
  <-> castle_conditions st w.
Proof.
  unfold MoveGen.castling_moves, castle_conditions, castling_move. cbv zeta.
  destruct (side_to_move st) eqn:Hside, w; simpl;
    rewrite in_app_iff, !castle_wing_in; rewrite ?Hside; simpl; eval_sq;
    rewrite ?andb_true_iff, ?negb_true_iff, ?Ascii.eqb_eq, !Forall_cons, !Forall_nil;
    fold_numerals;
    (split;
     [ intros [(Heq & H) | (Heq & H)]; try tauto; discriminate Heq
     | intros H; first [ left; split; [reflexivity|tauto] | right; split; [reflexivity|tauto] ] ]).
Qed.

(** C5 (as amended).  On a 64-cell board, the castling move of a wing is
    among the pseudo-legal moves if and only if the king of the side to move
    stands on its home square (e1 or e8), the matching right is held, the
    squares strictly between king and rook are empty, and the king's square
    and the two squares it walks over are not attacked by the enemy; the
    rook's path is not examined.  From the position
    r3k2r/8/8/8/8/8/8/R3K2R w KQkq both white castling moves are legal. *)
Theorem castling_generated_iff :
  (forall (st : GameState) (w : wing),
      length (board st) = 64%nat ->
      In (castling_move (side_to_move st) w) (MoveGen.generate_pseudo_legal_moves st)
      <-> king_at_home st /\ castle_conditions st w)
  /\ exists st legal st',
      position "r3k2r/8/8/8/8/8/8/R3K2R" White "KQkq" None 0 1 = Some st
      /\ MoveGen.generate_legal_moves st = Some (legal, st')
      /\ In (castling_move White Kingside) legal
      /\ In (castling_move White Queenside) legal.
Proof.
  split.
  - intros st w Hlen. rewrite in_pseudo_legal. split.
    + intros (k & piece & Hk & Hin).
      destruct (piece_moves_generated st k piece _ Hlen Hk Hin) as [_ Hfrom].
      destruct (castle_in_piece_moves st k piece (castling_move (side_to_move st) w)
                  Hlen Hk eq_refl Hin) as [Hking Hc].
      assert (Hidx : Z.of_nat k = king_home (side_to_move st)).
      { rewrite <- Hfrom. destruct w; reflexivity. }
      rewrite Hidx in Hc. split; [|apply castling_moves_in, Hc].
      unfold king_at_home. rewrite <- Hidx, (cell_lookup _ _ _ Hk). exact Hking.
    + intros [Hhome Hcond]. apply castling_moves_in in Hcond.
      exists (Z.to_nat (king_home (side_to_move st))), (king_of (side_to_move st)).
      assert (Hrange : 0 <= king_home (side_to_move st) < 64)
        by (destruct (side_to_move st); simpl; lia).
      rewrite Z2Nat.id by lia. split.
      * unfold king_at_home, cell in Hhome.
        destruct (lookup_lt_is_Some_2 (board st) (Z.to_nat (king_home (side_to_move st)))
                    ltac:(lia)) as [x Hx].
        rewrite Hx in *. simpl in Hhome. congruence.
      * apply king_piece_moves; [reflexivity|exact Hcond].
  - eexists. eexists. eexists.
    split; [vm_compute; reflexivity|].
    split; [vm_compute; reflexivity|].
    split; vm_compute; tauto.
Qed.

Lemma castling_generated_iff_witness :
  let st := GameState.init (default [] (Board.from_fen "r3k2r/8/8/8/8/8/8/R3K2R"))
                           White "KQkq" None 0 1 in
  In (castling_move (side_to_move st) Kingside) (MoveGen.generate_pseudo_legal_moves st).
Proof.
  intros st.
  apply (proj2 (proj1 castling_generated_iff st Kingside ltac:(vm_compute; reflexivity))).
  split; [vm_compute; reflexivity|].
  split; [vm_compute; reflexivity|]. split; repeat constructor.
Defined.

(** C5 as stated fails: the three conditions hold for the king side, but the
    white king stands on d1 and no castling move is generated. *)
Lemma castling_conditions_without_castle :
  exists st,
    position "4k3/8/8/8/8/8/8/3K3R" White "K" None 0 1 = Some st
    /\ castle_conditions st Kingside
    /\ GameState.is_square_attacked st 59 Black = false
    /\ cell (board st) 60 = EMPTY
    /\ forall m, In m (MoveGen.generate_pseudo_legal_moves st) -> is_castle m = false.
Proof.
  eexists. split; [vm_compute; reflexivity|].
  split; [split; [reflexivity|]; split; repeat constructor|].
  split; [reflexivity|]. split; [reflexivity|].
  intros m H. vm_compute in H.
  repeat (destruct H as [<- | H]; [reflexivity|]). contradiction.
Qed.

(** ** Attacks *)

(** More fuel never loses an attacker. *)
Lemma attack_ray_more_fuel b hits dr dc : forall fuel nr nc,
  GameState.attack_ray fuel b hits nr nc dr dc = true ->
  GameState.attack_ray (S fuel) b hits nr nc dr dc = true.
Proof.
  induction fuel as [|fuel IH]; intros nr nc; [discriminate|].
  intros H. simpl in H. change (GameState.attack_ray (S (S fuel)) b hits nr nc dr dc)
    with (if on_board nr nc
          then if negb (Ascii.eqb (cell b (nr * 8 + nc)) EMPTY)
               then hits (cell b (nr * 8 + nc))
               else GameState.attack_ray (S fuel) b hits (nr + dr) (nc + dc) dr dc
          else false).
  destruct (on_board nr nc); [|discriminate].
  destruct (negb _); [exact H|]. apply IH, H.
Qed.

Lemma attack_ray_fuel_enough b hits dr dc :
  is_direction dr dc ->
  forall fuel nr nc,
    edge_distance nr nc dr dc <= Z.of_nat fuel ->
    GameState.attack_ray (S fuel) b hits nr nc dr dc
    = GameState.attack_ray fuel b hits nr nc dr dc.
Proof.
  intros Hdir. induction fuel as [|fuel IH]; intros nr nc Hd.
  - simpl. destruct (on_board nr nc) eqn:Hon; [|reflexivity].
    apply on_board_spec in Hon. unfold edge_distance, is_direction in *.
    repeat match goal with
      | H : context [?a =? ?b] |- _ => destruct (Z.eqb_spec a b)
      end; lia.
  - change (GameState.attack_ray (S (S fuel)) b hits nr nc dr dc)
      with (if on_board nr nc
            then if negb (Ascii.eqb (cell b (nr * 8 + nc)) EMPTY)
                 then hits (cell b (nr * 8 + nc))
                 else GameState.attack_ray (S fuel) b hits (nr + dr) (nc + dc) dr dc
            else false).
    change (GameState.attack_ray (S fuel) b hits nr nc dr dc)
      with (if on_board nr nc
            then if negb (Ascii.eqb (cell b (nr * 8 + nc)) EMPTY)
                 then hits (cell b (nr * 8 + nc))
                 else GameState.attack_ray fuel b hits (nr + dr) (nc + dc) dr dc
            else false).
    destruct (on_board nr nc); [|reflexivity].
    destruct (negb _); [reflexivity|]. apply IH.
    unfold edge_distance, is_direction in *.
    repeat match goal with
      | |- context [?a =? ?b] => destruct (Z.eqb_spec a b)
      | H : context [?a =? ?b] |- _ => destruct (Z.eqb_spec a b)
      end; lia.
Qed.

(** Whatever fuel finds an attacker, the eight squares of [RAY_FUEL] do. *)
Lemma attack_ray_fuel b hits dr dc fuel nr nc :
  is_direction dr dc ->
  GameState.attack_ray fuel b hits nr nc dr dc = true ->
  GameState.attack_ray RAY_FUEL b hits nr nc dr dc = true.
Proof.
  intros Hdir H.
  assert (Hon : on_board nr nc = true).
  { destruct fuel; [discriminate|]. simpl in H. destruct (on_board nr nc); [reflexivity|discriminate]. }
  apply on_board_spec in Hon.
  assert (Hd : edge_distance nr nc dr dc <= 8).
  { unfold edge_distance. repeat match goal with
      | |- context [?a =? ?b] => destruct (Z.eqb_spec a b) end; lia. }
  assert (Hmore : forall k, GameState.attack_ray (k + fuel) b hits nr nc dr dc = true).
  { induction k as [|k IHk]; [exact H|]. apply attack_ray_more_fuel, IHk. }
  assert (Hless : forall k, GameState.attack_ray (k + RAY_FUEL) b hits nr nc dr dc
                            = GameState.attack_ray RAY_FUEL b hits nr nc dr dc).
  { induction k as [|k IHk]; [reflexivity|]. rewrite <- IHk.
    apply attack_ray_fuel_enough; [exact Hdir|]. unfold RAY_FUEL. lia. }
  rewrite <- (Hless fuel). rewrite Nat.add_comm. apply Hmore.
Qed.

(** The squares that a slider reaches along a ray are attacked by it, the
    attack being traced back along the same ray. *)
Lemma slide_attacked b hits enemy idx dr dc m : forall fuel nr nc n,
  GameState.attack_ray n b hits (nr - dr) (nc - dc) (- dr) (- dc) = true ->
  In m (MoveGen.slide fuel b enemy idx nr nc dr dc) ->
  exists r c n', on_board r c = true /\ to_square m = r * 8 + c
                 /\ GameState.attack_ray n' b hits (r - dr) (c - dc) (- dr) (- dc) = true.
Proof.
  induction fuel as [|fuel IH]; intros nr nc n Hback; simpl; [contradiction|].
  destruct (on_board nr nc) eqn:Hon; [|contradiction].
  destruct (Ascii.eqb_spec (cell b (nr * 8 + nc)) EMPTY) as [He|Hne].
  - intros [<- | H].
    + exists nr, nc, n. auto.
    + apply (IH (nr + dr) (nc + dc) (S n)); [|exact H].
      replace (nr + dr - dr) with nr by lia. replace (nc + dc - dc) with nc by lia.
      simpl. rewrite Hon, He. eval_eqb. simpl.
      replace (nr + - dr) with (nr - dr) by lia. replace (nc + - dc) with (nc - dc) by lia.
      exact Hback.
  - destruct (color_is _ enemy); [|contradiction].
    intros [<- | []]. exists nr, nc, n. auto.
Qed.

(** The pieces of a colour by their upper-case letter. *)
Lemma own_pawn p c : piece_color p = Some c -> Py.upper p = "P"%char -> p = pawn_of c.
Proof. destruct c; destruct p as [[] [] [] [] [] [] [] []]; vm_compute; congruence. Qed.

Lemma own_knight p c :
  piece_color p = Some c -> Py.upper p = "N"%char -> p = white_black c "N" "n".
Proof. destruct c; destruct p as [[] [] [] [] [] [] [] []]; vm_compute; congruence. Qed.

Lemma own_bishop p c :
  piece_color p = Some c -> Py.upper p = "B"%char -> p = white_black c "B" "b".
Proof. destruct c; destruct p as [[] [] [] [] [] [] [] []]; vm_compute; congruence. Qed.

Lemma own_rook p c :
  piece_color p = Some c -> Py.upper p = "R"%char -> p = white_black c "R" "r".
Proof. destruct c; destruct p as [[] [] [] [] [] [] [] []]; vm_compute; congruence. Qed.

Lemma own_queen p c :
  piece_color p = Some c -> Py.upper p = "Q"%char -> p = white_black c "Q" "q".
Proof. destruct c; destruct p as [[] [] [] [] [] [] [] []]; vm_compute; congruence. Qed.

Lemma square_row_col r c :
  on_board r c = true -> row_of (r * 8 + c) = r /\ col_of (r * 8 + c) = c.
Proof. intros H. apply on_board_spec in H. unfold row_of, col_of. zlia. Qed.

Lemma index_row_col idx :
  0 <= idx < 64 ->
  on_board (row_of idx) (col_of idx) = true /\ row_of idx * 8 + col_of idx = idx.
Proof. intros H. rewrite on_board_spec. unfold row_of, col_of. zlia. Qed.

(** One step back from a step lands on the origin. *)
Lemma step_attack_back b piece idx (steps' : list (Z * Z)) dr dc :
  0 <= idx < 64 -> cell b idx = piece ->
  In (- dr, - dc) steps' ->
  on_board (row_of idx + dr) (col_of idx + dc) = true ->
  GameState.step_attack b piece (row_of ((row_of idx + dr) * 8 + (col_of idx + dc)))
    (col_of ((row_of idx + dr) * 8 + (col_of idx + dc))) steps' = true.
Proof.
  intros Hidx Hcell Hin Hon.
  destruct (square_row_col _ _ Hon) as [-> ->].
  destruct (index_row_col idx Hidx) as [Hon0 Hsq].
  unfold GameState.step_attack. apply existsb_exists. exists (- dr, - dc).
  split; [exact Hin|]. simpl.
  replace (row_of idx + dr + - dr) with (row_of idx) by lia.
  replace (col_of idx + dc + - dc) with (col_of idx) by lia.
  rewrite Hon0, Hsq, Hcell, Ascii.eqb_refl. reflexivity.
Qed.

Lemma knight_steps_symmetric dr dc :
  In (dr, dc) knight_steps -> In (- dr, - dc) knight_steps.
Proof.
  unfold knight_steps. simpl. intros H.
  repeat (destruct H as [[= <- <-] | H]; [simpl; tauto|]). contradiction.
Qed.

Lemma king_dirs_symmetric dr dc :
  In (dr, dc) king_dirs -> In (- dr, - dc) (diag_dirs ++ ortho_dirs).
Proof.
  unfold king_dirs. simpl. intros H.
  repeat (destruct H as [[= <- <-] | H]; [simpl; tauto|]). contradiction.
Qed.

Lemma diag_dirs_symmetric dr dc :
  In (dr, dc) diag_dirs -> In (- dr, - dc) diag_dirs /\ is_direction (- dr) (- dc).
Proof.
  unfold diag_dirs, is_direction. simpl. intros H.
  repeat (destruct H as [[= <- <-] | H]; [simpl; split; [tauto|lia]|]). contradiction.
Qed.

Lemma ortho_dirs_symmetric dr dc :
  In (dr, dc) ortho_dirs -> In (- dr, - dc) ortho_dirs /\ is_direction (- dr) (- dc).
Proof.
  unfold ortho_dirs, is_direction. simpl. intros H.
  repeat (destruct H as [[= <- <-] | H]; [simpl; split; [tauto|lia]|]). contradiction.
Qed.

(** The five tests of [is_square_attacked]. *)
Lemma is_square_attacked_parts st square by_color :
  GameState.is_square_attacked st square by_color =
  let row := row_of square in
  let col := col_of square in
  let b := board st in
  let pd := match by_color with White => 1 | Black => -1 end in
  GameState.step_attack b (white_black by_color "P" "p") row col [(pd, -1); (pd, 1)]
  || GameState.step_attack b (white_black by_color "N" "n") row col knight_steps
  || existsb (fun d => GameState.attack_ray RAY_FUEL b
                (fun piece => Ascii.eqb piece (white_black by_color "B" "b")
                              || Ascii.eqb piece (white_black by_color "Q" "q"))
                (row + fst d) (col + snd d) (fst d) (snd d)) diag_dirs
  || existsb (fun d => GameState.attack_ray RAY_FUEL b
                (fun piece => Ascii.eqb piece (white_black by_color "R" "r")
                              || Ascii.eqb piece (white_black by_color "Q" "q"))
                (row + fst d) (col + snd d) (fst d) (snd d)) ortho_dirs
  || GameState.step_attack b (white_black by_color "K" "k") row col (diag_dirs ++ ortho_dirs).
Proof. reflexivity. Qed.

(** *** What a piece can capture it attacks *)

Lemma step_moves_attack st idx steps steps' piece m :
  0 <= idx < 64 -> cell (board st) idx = piece ->
  (forall dr dc, In (dr, dc) steps -> In (- dr, - dc) steps') ->
  In m (MoveGen.step_moves st idx steps) ->
  GameState.step_attack (board st) piece (row_of (to_square m)) (col_of (to_square m)) steps'
  = true.
Proof.
  intros Hidx Hcell Hsym. unfold MoveGen.step_moves. rewrite in_flat_map.
  intros ([dr dc] & Hd & H). simpl in H.
  destruct (on_board _ _) eqn:Hon; [|contradiction].
  destruct (_ || _); [|contradiction]. destruct H as [<- | []]. simpl.
  apply step_attack_back; auto.
Qed.

Lemma slider_moves_attack st idx piece m :
  0 <= idx < 64 -> cell (board st) idx = piece ->
  piece_color piece = Some (side_to_move st) ->
  In m (MoveGen.slider_moves st idx (Py.upper piece)) ->
  GameState.is_square_attacked st (to_square m) (side_to_move st) = true.
Proof.
  intros Hidx Hcell Hcol. unfold MoveGen.slider_moves.
  destruct (index_row_col idx Hidx) as [Hon0 Hsq].
  pose proof (piece_color_some _ _ Hcol) as Hne.
  rewrite in_flat_map. intros ([dr dc] & Hd & H). cbn [fst snd] in H.
  rewrite is_square_attacked_parts. cbv zeta.
  apply in_app_iff in Hd as [Hd | Hd].
  - (* a diagonal of a bishop or queen *)
    destruct (_ || _) eqn:Hkind in Hd; [|contradiction].
    destruct (diag_dirs_symmetric _ _ Hd) as [Hback Hdir].
    set (hits := fun p => Ascii.eqb p (white_black (side_to_move st) "B" "b")
                          || Ascii.eqb p (white_black (side_to_move st) "Q" "q")).
    assert (Hhit : hits piece = true).
    { unfold hits. apply orb_true_iff in Hkind as [Hk | Hk]; apply Ascii.eqb_eq in Hk.
      - rewrite <- (own_bishop _ _ Hcol Hk), Ascii.eqb_refl. reflexivity.
      - rewrite <- (own_queen _ _ Hcol Hk), Ascii.eqb_refl. apply orb_true_r. }
    destruct (slide_attacked (board st) hits (opposite (side_to_move st)) idx dr dc m
                RAY_FUEL (row_of idx + dr) (col_of idx + dc) 1%nat)
      as (r & c & n' & Hon & Hto & Hray); [|exact H|].
    { replace (row_of idx + dr - dr) with (row_of idx) by lia.
      replace (col_of idx + dc - dc) with (col_of idx) by lia.
      simpl. rewrite Hon0, Hsq, Hcell, (proj2 (Ascii.eqb_neq _ _) Hne). exact Hhit. }
    rewrite Hto. destruct (square_row_col _ _ Hon) as [-> ->].
    assert (Hex : existsb (fun d => GameState.attack_ray RAY_FUEL (board st) hits
                             (r + fst d) (c + snd d) (fst d) (snd d)) diag_dirs = true).
    { apply existsb_exists. exists (- dr, - dc). split; [exact Hback|]. simpl.
      eapply attack_ray_fuel; [exact Hdir|]. exact Hray. }
    fold hits. rewrite Hex. rewrite !orb_true_r. reflexivity.
  - (* a rank or file of a rook or queen *)
    destruct (_ || _) eqn:Hkind in Hd; [|contradiction].
    destruct (ortho_dirs_symmetric _ _ Hd) as [Hback Hdir].
    set (hits := fun p => Ascii.eqb p (white_black (side_to_move st) "R" "r")
                          || Ascii.eqb p (white_black (side_to_move st) "Q" "q")).
    assert (Hhit : hits piece = true).
    { unfold hits. apply orb_true_iff in Hkind as [Hk | Hk]; apply Ascii.eqb_eq in Hk.
      - rewrite <- (own_rook _ _ Hcol Hk), Ascii.eqb_refl. reflexivity.
      - rewrite <- (own_queen _ _ Hcol Hk), Ascii.eqb_refl. apply orb_true_r. }
    destruct (slide_attacked (board st) hits (opposite (side_to_move st)) idx dr dc m
                RAY_FUEL (row_of idx + dr) (col_of idx + dc) 1%nat)
      as (r & c & n' & Hon & Hto & Hray); [|exact H|].
    { replace (row_of idx + dr - dr) with (row_of idx) by lia.
      replace (col_of idx + dc - dc) with (col_of idx) by lia.
      simpl. rewrite Hon0, Hsq, Hcell, (proj2 (Ascii.eqb_neq _ _) Hne). exact Hhit. }
    rewrite Hto. destruct (square_row_col _ _ Hon) as [-> ->].
    assert (Hex : existsb (fun d => GameState.attack_ray RAY_FUEL (board st) hits
                             (r + fst d) (c + snd d) (fst d) (snd d)) ortho_dirs = true).
    { apply existsb_exists. exists (- dr, - dc). split; [exact Hback|]. simpl.
      eapply attack_ray_fuel; [exact Hdir|]. exact Hray. }
    fold hits. rewrite Hex. rewrite !orb_true_r. reflexivity.
Qed.

Lemma pawn_capture_attack st idx m :
  0 <= idx < 64 ->
  piece_color (cell (board st) idx) = Some (side_to_move st) ->
  Py.upper (cell (board st) idx) = "P"%char ->
  In m (MoveGen.pawn_moves st idx) ->
  is_en_passant m = false -> cell (board st) (to_square m) <> EMPTY ->
  GameState.is_square_attacked st (to_square m) (side_to_move st) = true.
Proof.
  intros Hidx Hcol Hup Hin Hep Hocc.
  pose proof (own_pawn _ _ Hcol Hup) as Hpawn.
  destruct (index_row_col idx Hidx) as [Hon0 Hsq].
  unfold MoveGen.pawn_moves in Hin. cbv zeta in Hin.
  apply in_app_iff in Hin as [Hpush | Hcapture].
  - (* a push lands on an empty square *)
    exfalso.
    destruct (on_board _ _); [|contradiction].
    destruct (Ascii.eqb_spec (cell (board st) ((row_of idx + match side_to_move st with
                                                             | White => -1 | Black => 1 end) * 8
                                               + col_of idx)) EMPTY) as [He|]; [|contradiction].
    apply in_app_iff in Hpush as [Hsingle | Hdouble].
    + destruct (_ =? _).
      * apply in_map_iff in Hsingle as (p & <- & _). exact (Hocc He).
      * destruct Hsingle as [<- | []]. exact (Hocc He).
    + destruct (_ =? _); [|contradiction].
      destruct (Ascii.eqb_spec (cell (board st) ((row_of idx + 2 * match side_to_move st with
                                                                   | White => -1 | Black => 1
                                                                   end) * 8 + col_of idx))
                               EMPTY) as [He2|]; [|contradiction].
      destruct Hdouble as [<- | []]. exact (Hocc He2).
  - apply in_flat_map in Hcapture as (dc & Hdc & H).
    assert (Hdc' : dc = -1 \/ dc = 1) by (simpl in Hdc; intuition lia). clear Hdc.
    destruct (on_board _ _) eqn:Hon; cbn [negb] in H; [|contradiction].
    assert (Hto : to_square m
                  = (row_of idx + match side_to_move st with White => -1 | Black => 1 end) * 8
                    + (col_of idx + dc)).
    { apply in_app_iff in H as [H | H].
      - destruct (negb _ && _); [|contradiction]. destruct (_ =? _).
        + apply in_map_iff in H as (p & <- & _). reflexivity.
        + destruct H as [<- | []]. reflexivity.
      - destruct (en_passant st); [|contradiction]. destruct (_ =? _); [|contradiction].
        destruct H as [<- | []]. discriminate Hep. }
    rewrite Hto, is_square_attacked_parts. cbv zeta.
    assert (Hpart : GameState.step_attack (board st) (white_black (side_to_move st) "P" "p")
                      (row_of ((row_of idx + match side_to_move st with
                                             | White => -1 | Black => 1 end) * 8
                               + (col_of idx + dc)))
                      (col_of ((row_of idx + match side_to_move st with
                                             | White => -1 | Black => 1 end) * 8
                               + (col_of idx + dc)))
                      [(match side_to_move st with White => 1 | Black => -1 end, -1);
                       (match side_to_move st with White => 1 | Black => -1 end, 1)] = true).
    { apply step_attack_back; [exact Hidx|exact Hpawn| |exact Hon].
      destruct (side_to_move st), Hdc' as [-> | ->]; simpl; tauto. }
    rewrite Hpart. reflexivity.
Qed.

Lemma castling_moves_empty_target st idx m :
  In m (MoveGen.castling_moves st idx) -> cell (board st) (to_square m) = EMPTY.
Proof.
  unfold MoveGen.castling_moves.
  destruct (side_to_move st); (destruct (_ && _); [|contradiction]);
    rewrite in_app_iff, !castle_wing_in;
    intros [(-> & _ & He & _) | (-> & _ & He & _)]; simpl in *;
    repeat (apply andb_true_iff in He as [?%Ascii.eqb_eq He]); assumption.
Qed.

(** Every capture other than en passant lands on a square that the mover
    attacks in the sense of [is_square_attacked]. *)
Lemma capture_is_attack st m :
  length (board st) = 64%nat ->
  In m (MoveGen.generate_pseudo_legal_moves st) ->
  is_en_passant m = false -> cell (board st) (to_square m) <> EMPTY ->
  GameState.is_square_attacked st (to_square m) (side_to_move st) = true.
Proof.
  intros Hlen Hin Hep Hocc. apply in_pseudo_legal in Hin as (k & piece & Hk & Hin).
  pose proof (lookup_lt_Some _ _ _ Hk) as Hlt.
  pose proof (cell_lookup _ _ _ Hk) as Hcell.
  assert (Hidx : 0 <= Z.of_nat k < 64) by lia.
  unfold MoveGen.piece_moves in Hin.
  destruct (Ascii.eqb piece EMPTY || _) eqn:Hskip; [contradiction|].
  apply orb_false_iff in Hskip as [_ Hcol]. apply negb_false_iff, color_is_true in Hcol.
  cbv zeta in Hin.
  destruct (Ascii.eqb_spec (Py.upper piece) "P") as [HP|_].
  { apply (pawn_capture_attack st (Z.of_nat k)); rewrite ?Hcell; assumption. }
  destruct (Ascii.eqb_spec (Py.upper piece) "N") as [HN|_].
  { rewrite is_square_attacked_parts. cbv zeta.
    rewrite (step_moves_attack st _ knight_steps knight_steps _ m Hidx
               (eq_trans Hcell (own_knight _ _ Hcol HN)) knight_steps_symmetric Hin).
    rewrite !orb_true_r. reflexivity. }
  destruct (_ || _).
  { apply (slider_moves_attack st (Z.of_nat k) piece); assumption. }
  destruct (Ascii.eqb_spec (Py.upper piece) "K") as [HK|_]; [|contradiction].
  apply in_app_iff in Hin as [Hin | Hin].
  - rewrite is_square_attacked_parts. cbv zeta.
    pose proof (step_moves_attack st _ king_dirs (diag_dirs ++ ortho_dirs) _ m Hidx
                  (eq_trans Hcell (own_king _ _ Hcol HK)) king_dirs_symmetric Hin) as Hs.
    unfold king_of in Hs. rewrite Hs, !orb_true_r. reflexivity.
  - exfalso. apply Hocc. eapply castling_moves_empty_target, Hin.
Qed.

(** ** Kings *)

Lemma count_insert k (b : list ascii) : forall (n : nat) x,
  (n < length b)%nat ->
  Z.of_nat (count_piece k (<[n := x]> b))
  = Z.of_nat (count_piece k b) - Z.b2z (Ascii.eqb k (default EMPTY (b !! n)))
    + Z.b2z (Ascii.eqb k x).
Proof.
  unfold count_piece. induction b as [|y b IH]; intros n x Hn; simpl in Hn; [lia|].
  destruct n as [|n]; simpl.
  - destruct (Ascii.eqb k x), (Ascii.eqb k y); simpl; lia.
  - specialize (IH n x ltac:(lia)).
    destruct (Ascii.eqb k y); simpl; simpl in IH; lia.
Qed.

Lemma count_put k b i x :
  0 <= i < Z.of_nat (length b) ->
  Z.of_nat (count_piece k (put b i x))
  = Z.of_nat (count_piece k b) - Z.b2z (Ascii.eqb k (cell b i)) + Z.b2z (Ascii.eqb k x).
Proof. intros H. unfold put, cell. apply count_insert. lia. Qed.

Lemma count_zero_absent k (b : list ascii) (i : nat) :
  count_piece k b = 0%nat -> b !! i <> Some k.
Proof.
  unfold count_piece. revert i. induction b as [|y b IH]; intros i Hc Hi; [destruct i; discriminate|].
  simpl in Hc. destruct i as [|i]; simpl in Hi.
  - injection Hi as ->. rewrite Ascii.eqb_refl in Hc. discriminate.
  - destruct (Ascii.eqb k y); [discriminate|]. exact (IH i Hc Hi).
Qed.

Lemma locate_from_found k : forall b z,
  (1 <= count_piece k b)%nat -> exists i, Board.locate_from k z b = Some i.
Proof.
  unfold count_piece. induction b as [|y b IH]; intros z Hc; simpl in *; [lia|].
  rewrite (Ascii.eqb_sym y k). destruct (Ascii.eqb k y); [eauto|]. apply IH, Hc.
Qed.

Lemma locate_from_unique k : forall b z (i : nat),
  count_piece k b = 1%nat -> b !! i = Some k ->
  Board.locate_from k z b = Some (z + Z.of_nat i).
Proof.
  induction b as [|y b IH]; intros z i Hc Hi; [destruct i; discriminate|].
  simpl. rewrite (Ascii.eqb_sym y k). unfold count_piece in Hc. simpl in Hc.
  destruct (Ascii.eqb_spec k y) as [<-|Hne].
  - destruct i as [|i]; [f_equal; lia|]. simpl in Hc, Hi.
    exfalso. apply (count_zero_absent k b i); [unfold count_piece; lia|exact Hi].
  - destruct i as [|i]; simpl in Hi; [congruence|].
    rewrite (IH (z + 1) i Hc Hi). f_equal. lia.
Qed.

Lemma one_king_count b c : one_king_per_color b -> count_piece (king_of c) b = 1%nat.
Proof. intros [HK Hk]. destruct c; assumption. Qed.

Lemma locate_king_found b c :
  (1 <= count_piece (king_of c) b)%nat -> exists i, Board.locate_king b c = Some i.
Proof. intros H. unfold Board.locate_king. destruct c; apply locate_from_found, H. Qed.

Lemma locate_king_unique b c i :
  count_piece (king_of c) b = 1%nat -> 0 <= i < Z.of_nat (length b) ->
  cell b i = king_of c -> Board.locate_king b c = Some i.
Proof.
  intros Hc Hi Hcell.
  assert (Hlook : b !! Z.to_nat i = Some (king_of c)).
  { unfold cell in Hcell. destruct (lookup_lt_is_Some_2 b (Z.to_nat i) ltac:(lia)) as [x Hx].
    rewrite Hx in *. simpl in Hcell. congruence. }
  unfold Board.locate_king.
  replace i with (0 + Z.of_nat (Z.to_nat i)) by lia.
  destruct c; apply locate_from_unique; assumption.
Qed.

(** In a valid position no pseudo-legal move takes the enemy king: the king
    would be attacked, and the side that has just moved is not in check. *)
Lemma enemy_king_not_taken st m :
  valid st -> In m (MoveGen.generate_pseudo_legal_moves st) ->
  cell (board st) (to_square m) <> king_of (opposite (side_to_move st)).
Proof.
  intros (Hlen & _ & Hkings & Hep & _ & Hcheck) Hin Hking.
  pose proof (pseudo_legal_generated st m Hlen Hin) as (_ & Hto & _ & Hkind).
  assert (Hocc : cell (board st) (to_square m) <> EMPTY).
  { rewrite Hking. destruct (side_to_move st); discriminate. }
  assert (Hnep : is_en_passant m = false).
  { destruct Hkind as [Hn | [He | Hc]].
    - destruct Hn as (_ & H & _). exact H.
    - destruct He as (_ & _ & _ & _ & _ & Htarget & _).
      destruct (Hep _ Htarget Hto) as [Hempty _]. contradiction.
    - destruct Hc as (_ & H & _). exact H. }
  pose proof (capture_is_attack st m Hlen Hin Hnep Hocc) as Hattack.
  unfold GameState.is_in_check in Hcheck.
  rewrite (locate_king_unique _ _ (to_square m) (one_king_count _ _ Hkings)) in Hcheck
    by (assumption || lia).
  cbn [mbind option_bind] in Hcheck.
  destruct (side_to_move st); simpl in Hcheck; congruence.
Qed.

Lemma king_not_pawn c x : Py.upper x = "P"%char -> Ascii.eqb (king_of c) x = false.
Proof.
  intros H. apply Ascii.eqb_neq. intros <-. destruct c; discriminate H.
Qed.

Lemma king_not_empty c : Ascii.eqb (king_of c) EMPTY = false.
Proof. destruct c; reflexivity. Qed.

Lemma king_not_promoted c side p :
  In p PROMOTIONS ->
  Ascii.eqb (king_of c) (match side with White => Py.upper p | Black => Py.lower p end) = false.
Proof.
  unfold PROMOTIONS. simpl. intros H.
  repeat (destruct H as [<- | H]; [destruct c, side; reflexivity|]). contradiction.
Qed.

Lemma king_not_enemy_pawn c side : Ascii.eqb (king_of c) (pawn_of side) = false.
Proof. destruct c, side; reflexivity. Qed.

(** A generated move that does not land on a king leaves the number of
    kings as it is. *)
Lemma king_count_after_move st m c :
  length (board st) = 64%nat -> generated st m -> ep_target_genuine st ->
  cell (board st) (to_square m) <> king_of c ->
  count_piece (king_of c) (board (after_move st m)) = count_piece (king_of c) (board st).
Proof.
  intros Hlen (Hf & Ht & Hmover & Hkind) Hgen Hto.
  assert (Hto' : Ascii.eqb (king_of c) (cell (board st) (to_square m)) = false)
    by (apply Ascii.eqb_neq; congruence).
  apply Nat2Z.inj. unfold after_move. cbv zeta. cbn [board].
  destruct Hkind as [Hn | [He | Hc]].
  - destruct Hn as (Hc & Hep & Hne & _ & _ & Hpromo & _). rewrite Hc, Hep.
    rewrite !count_put by (rewrite ?length_put; lia).
    rewrite !cell_put by (rewrite ?length_put; lia).
    destruct (Z.eqb_spec (from_square m) (to_square m)); [contradiction|].
    rewrite Hto', king_not_empty.
    destruct (promotion m) as [p|]; [|simpl; lia].
    destruct Hpromo as [Hp Hpawn].
    rewrite (king_not_pawn c _ Hpawn), (king_not_promoted c _ p Hp). simpl. lia.
  - pose proof (ep_victim_range st m Hf Ht He) as (Hv & Hvf & Hvt).
    destruct He as (Hep & Hc & Hpromo & _ & _ & Htarget & Hrow & _).
    destruct (Hgen _ Htarget Ht) as [Hempty Hvictim].
    assert (Hne : from_square m <> to_square m).
    { intros Heq. rewrite Heq in Hrow. unfold pawn_dir in Hrow. destruct (side_to_move st); lia. }
    rewrite Hc, Hep, Hpromo.
    rewrite !count_put by (rewrite ?length_put; lia).
    rewrite !cell_put by (rewrite ?length_put; lia).
    repeat match goal with
      | |- context [?a =? ?b] => destruct (Z.eqb_spec a b); try lia
      end.
    rewrite Hto', Hvictim, king_not_empty, king_not_enemy_pawn. simpl. lia.
  - destruct (castle_rook_squares_generated st m Hc)
      as (rf & rt & Hr & Hrt & Hrf1 & Hrt1 & Hd1 & Hd2 & Hd3 & Hd4 & Hd5).
    destruct Hc as (Hc & Hep & Hpromo & _ & _ & _ & _ & Hto_empty & Hrt_empty).
    rewrite <- Hrt in Hrt_empty.
    assert (Hne : from_square m <> to_square m).
    { intros Heq. rewrite <- Heq, Hto_empty in *. discriminate Hmover. }
    rewrite Hc, Hep, Hpromo, Hr.
    rewrite !count_put by (rewrite ?length_put; lia).
    rewrite !cell_put by (rewrite ?length_put; lia).
    repeat match goal with
      | |- context [?a =? ?b] => destruct (Z.eqb_spec a b); try lia
      end.
    rewrite Hto_empty, Hrt_empty, king_not_empty. simpl. lia.
Qed.

(** *** Piece letters *)

Lemma piece_letter_put b i x :
  forallb piece_letter b = true -> piece_letter x = true ->
  forallb piece_letter (put b i x) = true.
Proof.
  unfold put. generalize (Z.to_nat i). clear i.
  induction b as [|y b IH]; intros n Hb Hx; [reflexivity|].
  simpl in Hb. apply andb_true_iff in Hb as [Hy Hb].
  destruct n as [|n]; simpl.
  - rewrite Hx, Hb. reflexivity.
  - rewrite Hy. apply IH; assumption.
Qed.

Lemma piece_letter_cell b i : forallb piece_letter b = true -> piece_letter (cell b i) = true.
Proof.
  intros H. unfold cell. destruct (b !! Z.to_nat i) as [x|] eqn:E; [|reflexivity].
  simpl. rewrite forallb_forall in H. apply H. apply list_elem_of_In.
  eapply list_elem_of_lookup_2, E.
Qed.

Lemma piece_letter_promoted side p :
  In p PROMOTIONS ->
  piece_letter (match side with White => Py.upper p | Black => Py.lower p end) = true.
Proof.
  unfold PROMOTIONS. simpl. intros H.
  repeat (destruct H as [<- | H]; [destruct side; reflexivity|]). contradiction.
Qed.

Lemma piece_letters_after_move st m :
  generated st m -> forallb piece_letter (board st) = true ->
  forallb piece_letter (board (after_move st m)) = true.
Proof.
  intros (_ & _ & _ & Hkind) Hb. unfold after_move. cbv zeta. cbn [board].
  assert (Hplaced : piece_letter
                      match promotion m with
                      | Some p => match side_to_move st with
                                  | White => Py.upper p | Black => Py.lower p end
                      | None => cell (board st) (from_square m)
                      end = true).
  { destruct (promotion m) as [p|] eqn:Hp; [|apply piece_letter_cell, Hb].
    apply piece_letter_promoted.
    destruct Hkind as [Hn | [He | Hc]].
    - destruct Hn as (_ & _ & _ & _ & _ & Hpromo & _). rewrite Hp in Hpromo. tauto.
    - destruct He as (_ & _ & H & _). congruence.
    - destruct Hc as (_ & _ & H & _). congruence. }
  assert (Hb3 : forallb piece_letter
                  (put (put (if is_en_passant m
                             then put (board st)
                                      (ep_victim_square (side_to_move st) (to_square m)) EMPTY
                             else board st) (from_square m) EMPTY) (to_square m)
                       match promotion m with
                       | Some p => match side_to_move st with
                                   | White => Py.upper p | Black => Py.lower p end
                       | None => cell (board st) (from_square m)
                       end) = true).
  { apply piece_letter_put; [|exact Hplaced].
    apply piece_letter_put; [|reflexivity].
    destruct (is_en_passant m); [apply piece_letter_put; [exact Hb|reflexivity]|exact Hb]. }
  destruct (is_castle m); [|exact Hb3].
  destruct (GameState.castle_rook_squares (to_square m)) as [[rf rt]|]; [|exact Hb3].
  apply piece_letter_put;
    [apply piece_letter_put; [exact Hb3|reflexivity] | apply piece_letter_cell, Hb3].
Qed.

(** *** Validity is kept by legal moves *)

Lemma length_after_move st m : length (board (after_move st m)) = length (board st).
Proof.
  unfold after_move. cbv zeta. cbn [board].
  destruct (is_castle m); [destruct (GameState.castle_rook_squares _) as [[rf rt]|]|];
    destruct (is_en_passant m); rewrite ?length_put; reflexivity.
Qed.

Lemma genuine_vacant st : ep_target_genuine st -> ep_target_vacant st.
Proof. intros H e He Hr. apply (H e He Hr). Qed.

Lemma target_not_own_king st m :
  length (board st) = 64%nat -> ep_target_vacant st -> generated st m ->
  cell (board st) (to_square m) <> king_of (side_to_move st).
Proof.
  intros Hlen Hvac (_ & Hto & _ & Hkind) Hking.
  assert (Hown : color_is (piece_color (cell (board st) (to_square m))) (side_to_move st) = true).
  { rewrite Hking. destruct (side_to_move st); reflexivity. }
  destruct Hkind as [Hn | [He | Hc]].
  - destruct Hn as (_ & _ & _ & _ & Hnot & _). congruence.
  - destruct He as (_ & _ & _ & _ & _ & Htarget & _).
    rewrite (Hvac _ Htarget Hto) in Hown. discriminate.
  - destruct Hc as (_ & _ & _ & _ & _ & _ & _ & Hempty & _).
    rewrite Hempty in Hown. discriminate.
Qed.

Lemma ep_genuine_after_move st m :
  length (board st) = 64%nat -> generated st m -> ep_target_genuine (after_move st m).
Proof.
  intros Hlen Hgen e He Hrange.
  pose proof (double_push_iff st m Hgen) as Hiff.
  destruct Hgen as (Hf & Ht & Hmover & Hkind).
  unfold after_move in He. cbv zeta in He. cbn [en_passant] in He.
  unfold GameState.new_en_passant in He.
  destruct (Ascii.eqb_spec (Py.upper (cell (board st) (from_square m))) "P") as [Hp|];
    [|discriminate].
  destruct (Z.eqb_spec (Z.abs (to_square m - from_square m)) 16) as [Ha|]; [|discriminate].
  simpl in He. injection He as <-.
  destruct (proj2 Hiff (conj Hp Ha)) as (_ & _ & Hto).
  destruct Hkind as [Hn | [He | Hc]].
  - destruct Hn as (Hc & Hep & Hne & _ & _ & _ & Hstep).
    destruct (Hstep Hp) as [H | [H | [H | (_ & Hpromo & Hmid)]]];
      try (unfold pawn_dir in H; destruct (side_to_move st); lia).
    unfold after_move. cbv zeta. cbn [board side_to_move]. rewrite Hc, Hep, Hpromo.
    assert (Hmid' : (to_square m + from_square m) / 2
                    = from_square m + 8 * pawn_dir (side_to_move st))
      by (rewrite Hto; unfold pawn_dir; destruct (side_to_move st); zlia).
    rewrite Hmid'. split.
    + rewrite !cell_put by (rewrite ?length_put; unfold pawn_dir in *;
                            destruct (side_to_move st); lia).
      repeat match goal with
        | |- context [?a =? ?b] =>
            destruct (Z.eqb_spec a b);
            try (unfold pawn_dir in *; destruct (side_to_move st); lia)
        end.
      exact Hmid.
    + replace (ep_victim_square (opposite (side_to_move st))
                 (from_square m + 8 * pawn_dir (side_to_move st))) with (to_square m)
        by (rewrite Hto; unfold ep_victim_square, pawn_dir; destruct (side_to_move st);
            simpl; lia).
      rewrite !cell_put by (rewrite ?length_put; lia).
      rewrite Z.eqb_refl. rewrite (own_pawn _ _ Hmover Hp).
      destruct (side_to_move st); reflexivity.
  - destruct He as (_ & _ & _ & _ & _ & _ & Hrow & Hcol).
    unfold row_of, col_of, pawn_dir in *. destruct (side_to_move st); zlia.
  - destruct Hc as (_ & _ & _ & _ & Hking & _). rewrite Hking in Hp.
    destruct (side_to_move st); discriminate Hp.
Qed.

Lemma valid_after_move st m :
  valid st -> In m (MoveGen.generate_pseudo_legal_moves st) ->
  keeps_king_safe st (side_to_move st) m = true ->
  valid (after_move st m).
Proof.
  intros Hvalid Hin Hsafe.
  pose proof (enemy_king_not_taken st m Hvalid Hin) as Henemy.
  destruct Hvalid as (Hlen & Hletters & Hkings & Hep & Hpos & Hcheck).
  pose proof (pseudo_legal_generated st m Hlen Hin) as Hgen.
  pose proof (target_not_own_king st m Hlen (genuine_vacant st Hep) Hgen) as Hown.
  refine (conj _ (conj _ (conj (conj _ _) (conj _ (conj _ _))))).
  - rewrite length_after_move. exact Hlen.
  - apply piece_letters_after_move; assumption.
  - change "K"%char with (king_of White).
    rewrite (king_count_after_move st m White Hlen Hgen Hep); [apply Hkings|].
    destruct (side_to_move st); assumption.
  - change "k"%char with (king_of Black).
    rewrite (king_count_after_move st m Black Hlen Hgen Hep); [apply Hkings|].
    destruct (side_to_move st); assumption.
  - apply ep_genuine_after_move; assumption.
  - apply after_move_repetition_positive, Hpos.
  - unfold keeps_king_safe in Hsafe.
    replace (opposite (side_to_move (after_move st m))) with (side_to_move st)
      by (unfold after_move; cbv zeta; cbn [side_to_move]; destruct (side_to_move st); reflexivity).
    destruct (GameState.is_in_check (after_move st m) (side_to_move st)) as [[|]|];
      (reflexivity || discriminate).
Qed.

(** On a valid position [generate_legal_moves] does not raise: it filters
    the candidates and leaves the position as it was. *)
Lemma legal_loop_total st c :
  length (board st) = 64%nat -> ep_target_vacant st -> repetition_positive st ->
  forall pseudo acc,
    Forall (fun m => generated st m
                     /\ GameState.is_in_check (after_move st m) c <> None) pseudo ->
    MoveGen.legal_loop c pseudo st acc
    = Some (acc ++ List.filter (keeps_king_safe st c) pseudo, st).
Proof.
  intros Hlen Hvac Hpos.
  induction pseudo as [|m rest IH]; intros acc Hall; simpl.
  - rewrite app_nil_r. reflexivity.
  - apply Forall_cons_1 in Hall as [[Hm Hchk] Hrest].
    rewrite (make_move_generated st m Hlen Hm). cbn [mbind option_bind].
    unfold keeps_king_safe.
    destruct (GameState.is_in_check (after_move st m) c) as [chk|]; [|congruence].
    cbn [mbind option_bind].
    rewrite (undo_after_move st m Hlen Hm Hvac Hpos). cbn [mbind option_bind].
    rewrite (IH _ Hrest). destruct chk; [reflexivity|]. rewrite <- app_assoc. reflexivity.
Qed.

Lemma legal_moves_valid st :
  valid st ->
  MoveGen.generate_legal_moves st
  = Some (List.filter (keeps_king_safe st (side_to_move st))
                      (MoveGen.generate_pseudo_legal_moves st), st).
Proof.
  intros (Hlen & Hletters & Hkings & Hep & Hpos & Hcheck).
  unfold MoveGen.generate_legal_moves.
  rewrite (legal_loop_total st _ Hlen (genuine_vacant st Hep) Hpos); [reflexivity|].
  apply List.Forall_forall. intros m Hin.
  pose proof (pseudo_legal_generated st m Hlen Hin) as Hgen. split; [exact Hgen|].
  unfold GameState.is_in_check.
  destruct (locate_king_found (board (after_move st m)) (side_to_move st)) as [i ->];
    [|discriminate].
  rewrite (king_count_after_move st m _ Hlen Hgen Hep).
  - rewrite (one_king_count _ _ Hkings). lia.
  - apply target_not_own_king; [exact Hlen|apply genuine_vacant, Hep|exact Hgen].
Qed.

(** ** Search *)

(** *** Draws by the clock and by repetition *)

(** C3.  At a node whose halfmove clock has reached 100, or whose repetition
    key has been counted three times or more (so that
    [is_draw_by_repetition] holds), [alpha_beta] returns 0.0 and leaves the
    position as it is, whatever the depth, the window, the evaluator and the
    material on the board. *)
Theorem alpha_beta_draw_scores_zero :
  forall (fuel : nat) (model : option evaluator) (st : GameState) (depth : Z)
         (alpha beta : score) (quiescence_depth : Z),
    100 <= halfmove_clock st
    \/ 3 <= default 0 (repetition st !! GameState.repetition_key st) ->
    (3 <= default 0 (repetition st !! GameState.repetition_key st) ->
       GameState.is_draw_by_repetition st = true)
    /\ Search.alpha_beta (S fuel) model st depth alpha beta quiescence_depth
       = Ok (Fin 0, st).
Proof.
  intros fuel model st depth alpha beta qd Hdraw. split.
  - intros H. unfold GameState.is_draw_by_repetition. apply Z.leb_le. exact H.
  - simpl.
    assert (Hcond : (100 <=? halfmove_clock st) || GameState.insufficient_material st
                    || GameState.is_draw_by_repetition st = true).
    { destruct Hdraw as [H | H].
      - apply Z.leb_le in H. rewrite H. reflexivity.
      - unfold GameState.is_draw_by_repetition. apply Z.leb_le in H. rewrite H.
        apply orb_true_r. }
    rewrite Hcond. reflexivity.
Qed.

Lemma alpha_beta_draw_scores_zero_witness :
  let st := GameState.init (default [] (Board.from_fen START_FEN)) White "KQkq" None 100 1 in
  Search.alpha_beta 1 None st 2 NegInf PosInf 3 = Ok (Fin 0, st).
Proof.
  intros st.
  apply (alpha_beta_draw_scores_zero 0 None st 2 NegInf PosInf 3).
  left. vm_compute. discriminate.
Defined.

(** *** Scores *)

Lemma score_leb_finite b q : b <> NegInf -> score_leb b (Fin q) = true -> is_finite b.
Proof. destruct b as [|x|]; simpl; intros Hb H; [contradiction|exists x; reflexivity|discriminate]. Qed.

Lemma score_max_finite a q : a <> PosInf -> is_finite (score_max a (Fin q)).
Proof.
  intros Ha. unfold score_max. destruct (score_ltb a (Fin q)) eqn:E; [exists q; reflexivity|].
  destruct a as [|x|]; [discriminate E|exists x; reflexivity|contradiction].
Qed.


Lemma score_neg_not_pos b : b <> NegInf -> score_neg b <> PosInf.
Proof. destruct b; simpl; congruence. Qed.


(** *** Move ordering *)

Lemma in_insert_move x m : forall l, In x (Search.insert_move m l) <-> x = m \/ In x l.
Proof.
  induction l as [|y l IH]; simpl; [intuition congruence|].
  destruct (_ <? _); simpl; rewrite ?IH; intuition congruence.
Qed.

Lemma in_order_moves x l : In x (Search.order_moves l) <-> In x l.
Proof.
  unfold Search.order_moves. induction l as [|y l IH]; simpl; [tauto|].
  rewrite in_insert_move, IH. intuition congruence.
Qed.


(** *** The material evaluator *)

Lemma piece_letter_value p :
  piece_letter p = true ->
  Ascii.eqb p EMPTY = true \/ exists v, PIECE_VALUES (Py.upper p) = Some v.
Proof.
  destruct p as [[] [] [] [] [] [] [] []]; intros H; vm_compute in H; try discriminate;
    vm_compute; eauto.
Qed.

Lemma material_total b :
  forallb piece_letter b = true -> exists z, Evaluation.material b = Some z.
Proof.
  induction b as [|p b IH]; simpl; [eauto|]. intros H.
  apply andb_true_iff in H as [Hp Hb]. destruct (IH Hb) as [z Hz]. rewrite Hz.
  destruct (piece_letter_value p Hp) as [-> | [v ->]]; [eauto|].
  destruct (Ascii.eqb p EMPTY); eauto.
Qed.

Lemma material_eval_finite : evaluator_finite None.
Proof.
  intros st (_ & Hletters & _). unfold Evaluation.evaluate_position, Evaluation.simple_material_eval.
  destruct (material_total _ Hletters) as [z ->]. simpl. eauto.
Qed.

(** *** The search returns, with a finite score *)

Section SearchReturns.

Variable model : option evaluator.
Hypothesis model_finite : evaluator_finite model.

Lemma playable_step st m :
  valid st -> playable st m ->
  GameState.make_move st m = Some (after_move st m)
  /\ valid (after_move st m)
  /\ GameState.undo_move (after_move st m) = Some st.
Proof.
  intros Hvalid [Hin Hsafe].
  pose proof (valid_after_move st m Hvalid Hin Hsafe) as Hafter.
  destruct Hvalid as (Hlen & _ & _ & Hep & Hpos & _).
  pose proof (pseudo_legal_generated st m Hlen Hin) as Hgen.
  split; [apply make_move_generated; assumption|]. split; [exact Hafter|].
  apply undo_after_move; try assumption. apply genuine_vacant, Hep.
Qed.

Lemma legal_moves_playable st :
  valid st ->
  exists legal, MoveGen.generate_legal_moves st = Some (legal, st)
                /\ forall m, In m (Search.order_moves legal) -> playable st m.
Proof.
  intros Hvalid. eexists. split; [apply legal_moves_valid, Hvalid|].
  intros m Hin. apply (proj1 (in_order_moves _ _)), filter_In in Hin. exact Hin.
Qed.

Lemma quiescence_loop_finite rec st beta :
  (forall st' a b, valid st' -> a <> PosInf -> b <> NegInf ->
                   exists q, rec st' a b = Some (Fin q, st')) ->
  valid st -> beta <> NegInf ->
  forall moves alpha,
    (forall m, In m moves -> playable st m) -> is_finite alpha ->
    exists q, Search.quiescence_loop rec moves st alpha beta = Some (Fin q, st).
Proof.
  intros Hrec Hvalid Hbeta.
  induction moves as [|m rest IH]; intros alpha Hmoves [qa ->]; simpl; [eauto|].
  assert (Hrest : forall x, In x rest -> playable st x) by (intros x Hx; apply Hmoves; right; exact Hx).
  destruct (negb _ && negb _); [apply IH; [exact Hrest|eexists; reflexivity]|].
  destruct (playable_step st m Hvalid (Hmoves m (or_introl eq_refl))) as (-> & Hafter & Hundo).
  cbn [mbind option_bind].
  destruct (Hrec (after_move st m) (score_neg beta) (Fin (- qa)) Hafter
              (score_neg_not_pos _ Hbeta) ltac:(discriminate)) as [v ->].
  cbn [mbind option_bind]. rewrite Hundo. cbn [mbind option_bind score_neg].
  destruct (score_leb beta (Fin (- v))) eqn:Hcut.
  - destruct (score_leb_finite _ _ Hbeta Hcut) as [qb ->]. eauto.
  - apply IH; [exact Hrest|]. apply score_max_finite. discriminate.
Qed.

Lemma quiescence_search_finite : forall depth st alpha beta,
  valid st -> alpha <> PosInf -> beta <> NegInf ->
  exists q, Search.quiescence_search model depth st alpha beta = Some (Fin q, st).
Proof.
  induction depth as [|depth IH]; intros st alpha beta Hvalid Halpha Hbeta;
    destruct (model_finite st Hvalid) as [q0 Hq0]; simpl; rewrite Hq0; cbn [mbind option_bind].
  - destruct (score_leb beta (Fin q0)) eqn:Hcut; [|eauto].
    destruct (score_leb_finite _ _ Hbeta Hcut) as [qb ->]. eauto.
  - destruct (score_leb beta (Fin q0)) eqn:Hcut.
    + destruct (score_leb_finite _ _ Hbeta Hcut) as [qb ->]. eauto.
    + destruct (legal_moves_playable st Hvalid) as (legal & -> & Hplay).
      cbn [mbind option_bind].
      apply quiescence_loop_finite; try assumption.
      apply score_max_finite, Halpha.
Qed.




End SearchReturns.

Lemma start_valid : valid start.
Proof.
  refine (conj _ (conj _ (conj (conj _ _) (conj _ (conj _ _))))); try (vm_compute; reflexivity).
  - intros e He. vm_compute in He. discriminate He.
  - apply init_repetition_positive.
Qed.




(** * Further properties of the code *)

(** ** Square names *)

Lemma str_find_files f k :
  str_find f FILES = Some k -> 0 <= k < 8 /\ f = Py.chr (97 + k).
Proof.
  destruct f as [[] [] [] [] [] [] [] []]; intros H; vm_compute in H; try discriminate;
    injection H as <-; (split; [lia|reflexivity]).
Qed.

Lemma str_find_ranks r k :
  str_find r RANKS = Some k -> 0 <= k < 8 /\ r = Py.chr (49 + k).
Proof.
  destruct r as [[] [] [] [] [] [] [] []]; intros H; vm_compute in H; try discriminate;
    injection H as <-; (split; [lia|reflexivity]).
Qed.

Lemma square_name_index (file rk : Z) :
  0 <= file < 8 -> 0 <= rk < 8 ->
  index_to_square ((8 - (rk + 1)) * 8 + file)
  = String (Py.chr (97 + file)) (String (Py.chr (49 + rk)) EmptyString).
Proof.
  intros Hf Hr.
  assert (Hfile : In file [0; 1; 2; 3; 4; 5; 6; 7]) by (simpl; lia).
  assert (Hrank : In rk [0; 1; 2; 3; 4; 5; 6; 7]) by (simpl; lia).
  simpl in Hfile, Hrank.
  repeat (destruct Hfile as [<- | Hfile]; [repeat (destruct Hrank as [<- | Hrank]; [vm_compute; reflexivity|]); contradiction|]).
  contradiction.
Qed.

Lemma index_square_name (i : Z) :
  0 <= i < 64 -> square_to_index (index_to_square i) = Some i.
Proof.
  intros Hi. replace i with (Z.of_nat (Z.to_nat i)) by lia.
  assert (Hn : (Z.to_nat i < 64)%nat) by lia. revert Hn. generalize (Z.to_nat i). intros n Hn.
  do 64 (destruct n as [|n]; [vm_compute; reflexivity|]). lia.
Qed.

Lemma square_index_name (s : string) (i : Z) :
  square_to_index s = Some i -> 0 <= i < 64 /\ index_to_square i = s.
Proof.
  unfold square_to_index.
  destruct s as [|f [|r [|]]]; try discriminate.
  destruct (str_find f FILES) as [file|] eqn:Ef; [|discriminate].
  destruct (str_find r RANKS) as [rk|] eqn:Er; [|discriminate].
  intros [= <-].
  apply str_find_files in Ef as [Hf ->]. apply str_find_ranks in Er as [Hr ->].
  split; [lia|]. apply square_name_index; assumption.
Qed.

(** X1.  [square_to_index] and [index_to_square] are inverse to each other
    on the 64 squares, and [square_to_index] raises on every other string. *)
Theorem square_to_index_iff (s : string) (i : Z) :
  square_to_index s = Some i <-> 0 <= i < 64 /\ index_to_square i = s.
Proof.
  split.
  - apply square_index_name.
  - intros [Hi Hname]. rewrite <- Hname. apply index_square_name, Hi.
Qed.

(** ** Board: what [from_fen] accepts *)

(** X2.  Whatever string [Board.from_fen] accepts, the board has 64 cells,
    none of them a digit or the separator, and writing it with [to_fen] and
    reading it again gives the same board. *)
Theorem from_fen_normal_form (s : string) (b : list ascii) :
  Board.from_fen s = Some b ->
  length b = 64%nat
  /\ forallb cell_char b = true
  /\ Board.from_fen (Board.to_fen b) = Some b.
Proof.
  intros H. destruct (from_fen_board s b H) as [Hlen Hcells].
  split; [exact Hlen|]. split; [exact Hcells|]. apply from_fen_to_fen; assumption.
Qed.

Lemma from_fen_normal_form_witness :
  exists b, Board.from_fen "rnbqkbnr/pppppppp/44/8/.7/8/PPPPPPPP/RNBQKBNR" = Some b
            /\ length b = 64%nat
            /\ forallb cell_char b = true
            /\ Board.from_fen (Board.to_fen b) = Some b.
Proof.
  eexists. split; [vm_compute; reflexivity|].
  apply (from_fen_normal_form "rnbqkbnr/pppppppp/44/8/.7/8/PPPPPPPP/RNBQKBNR").
  vm_compute. reflexivity.
Defined.

(** The cells of the rows of a board field are the cells of the field with
    its separators taken out. *)
Lemma expand_rows_split s :
  Board.expand_rows (Py.split "/" s) = Board.expand_row (Py.remove "/" s).
Proof.
  induction s as [|c rest IH]; [reflexivity|].
  cbn [Py.split Py.remove]. rewrite (Ascii.eqb_sym c "/").
  destruct (Ascii.eqb_spec "/"%char c) as [<-|Hne].
  - cbn [Board.expand_rows Board.expand_row]. rewrite IH.
    destruct (Board.expand_row (Py.remove "/" rest)); reflexivity.
  - pose proof (split_nonempty rest) as Hs.
    destruct (Py.split "/" rest) as [|w ws]; [contradiction|].
    cbn [Board.expand_rows Board.expand_row] in IH |- *. rewrite <- IH.
    destruct (Py.isdigit c).
    + destruct (Py.int_of_char c) as [n|]; [|reflexivity].
      destruct (Board.expand_row w) as [a|]; [|reflexivity].
      destruct (Board.expand_rows ws) as [d|]; [|reflexivity].
      simpl. rewrite app_assoc. reflexivity.
    + destruct (Board.expand_row w) as [a|]; [|reflexivity].
      destruct (Board.expand_rows ws) as [d|]; reflexivity.
Qed.

(** X3.  [Board.from_fen] counts the rows and the cells but not the cells
    of each row: two board fields of eight rows with the same characters
    between the separators are read alike, wherever their separators are. *)
Theorem from_fen_ignores_row_width (s s' : string) :
  length (Py.split "/" s) = 8%nat -> length (Py.split "/" s') = 8%nat ->
  Py.remove "/" s = Py.remove "/" s' ->
  Board.from_fen s = Board.from_fen s'.
Proof.
  intros H H' Heq. unfold Board.from_fen. cbv zeta.
  rewrite H, H', !expand_rows_split, Heq. reflexivity.
Qed.

Lemma from_fen_ignores_row_width_witness :
  Board.from_fen "rnbqkbnrp/ppppppp/8/8/8/8/PPPPPPPP/RNBQKBNR" = Board.from_fen START_FEN
  /\ Board.from_fen START_FEN <> None.
Proof.
  split; [|vm_compute; discriminate].
  apply from_fen_ignores_row_width; vm_compute; reflexivity.
Defined.

(** ** Board: finding the king *)

Lemma locate_from_first k : forall b z i,
  Board.locate_from k z b = Some i
  <-> z <= i /\ b !! Z.to_nat (i - z) = Some k
      /\ forall j, (j < Z.to_nat (i - z))%nat -> b !! j <> Some k.
Proof.
  induction b as [|y b IH]; intros z i; simpl.
  - split; [discriminate|]. intros (_ & H & _). rewrite lookup_nil in H. discriminate.
  - destruct (Ascii.eqb_spec y k) as [->|Hne].
    + split.
      * intros [= <-]. rewrite Z.sub_diag. split; [lia|]. split; [reflexivity|]. intros j Hj. simpl in Hj. lia.
      * intros (Hz & Hi & Hfirst). destruct (Z.to_nat (i - z)) as [|n] eqn:En; [f_equal; lia|].
        exfalso. apply (Hfirst 0%nat); [lia|reflexivity].
    + rewrite IH. split.
      * intros (Hz & Hi & Hfirst).
        replace (Z.to_nat (i - z)) with (S (Z.to_nat (i - (z + 1)))) by lia.
        split; [lia|]. split; [exact Hi|]. intros [|j] Hj; simpl; [congruence|].
        apply Hfirst. lia.
      * intros (Hz & Hi & Hfirst).
        destruct (Z.to_nat (i - z)) as [|n] eqn:En; [simpl in Hi; congruence|].
        replace (Z.to_nat (i - (z + 1))) with n by lia.
        split; [lia|]. split; [exact Hi|]. intros j Hj. apply (Hfirst (S j)). lia.
Qed.

Lemma locate_from_none k : forall b z,
  Board.locate_from k z b = None <-> ~ In k b.
Proof.
  induction b as [|y b IH]; intros z; simpl; [tauto|].
  destruct (Ascii.eqb_spec y k) as [->|Hne].
  - split; [discriminate|]. intros H. exfalso. apply H. left. reflexivity.
  - rewrite IH. tauto.
Qed.

(** X4.  [Board.locate_king] returns the index of the first king of the
    colour, also when there are several. *)
Theorem locate_king_first (b : list ascii) (c : color) (i : Z) :
  Board.locate_king b c = Some i
  <-> 0 <= i /\ b !! Z.to_nat i = Some (king_of c)
      /\ forall j, (j < Z.to_nat i)%nat -> b !! j <> Some (king_of c).
Proof.
  unfold Board.locate_king. fold (white_black c "K" "k"). fold (king_of c).
  rewrite locate_from_first, Z.sub_0_r. reflexivity.
Qed.

(** X5.  On a board of 64 cells [is_in_check] raises exactly when the board
    has no king of the colour asked about. *)
Theorem is_in_check_raises_iff (st : GameState) (c : color) :
  length (board st) = 64%nat ->
  (GameState.is_in_check st c = None <-> ~ In (king_of c) (board st)).
Proof.
  intros _. unfold GameState.is_in_check, Board.locate_king.
  fold (white_black c "K" "k"). fold (king_of c).
  rewrite <- (locate_from_none (king_of c) (board st) 0).
  destruct (Board.locate_from (king_of c) 0 (board st)); simpl; split; congruence.
Qed.

Lemma is_in_check_raises_iff_witness :
  exists st, position "8/8/8/8/8/8/8/4K3" White "-" None 0 1 = Some st
             /\ length (board st) = 64%nat
             /\ GameState.is_in_check st Black = None.
Proof.
  eexists. split; [vm_compute; reflexivity|]. split; [reflexivity|].
  apply is_in_check_raises_iff; [reflexivity|].
  intros Hin. vm_compute in Hin.
  repeat (destruct Hin as [Hin|Hin]; [discriminate Hin|]). exact Hin.
Defined.

(** ** Position: what [make_move] does to the fields *)

Lemma setitem_length {A} (xs : list A) i x ys :
  Py.setitem xs i x = Some ys -> length ys = length xs.
Proof.
  unfold Py.setitem. destruct (Py.index xs i); [|discriminate].
  intros [= <-]. apply length_insert.
Qed.

Lemma index_is_Some {A} (xs : list A) i :
  is_Some (Py.index xs i) <-> - Z.of_nat (length xs) <= i < Z.of_nat (length xs).
Proof.
  unfold Py.index. cbv zeta.
  destruct (Z.leb_spec 0 i); destruct (Z.ltb_spec i (Z.of_nat (length xs))); simpl;
    try (split; [intros _; lia|intros _; eexists; reflexivity]).
  all: destruct (Z.leb_spec (- Z.of_nat (length xs)) i); destruct (Z.ltb_spec i 0); simpl;
    try (split; [intros _; lia|intros _; eexists; reflexivity]).
  all: split; [intros [? [=]]|lia].
Qed.

Lemma index_lt {A} (xs : list A) i k : Py.index xs i = Some k -> (k < length xs)%nat.
Proof.
  unfold Py.index. cbv zeta.
  destruct (Z.leb_spec 0 i); destruct (Z.ltb_spec i (Z.of_nat (length xs))); simpl;
    try (intros [= Hk]; subst k; lia).
  all: destruct (Z.leb_spec (- Z.of_nat (length xs)) i); destruct (Z.ltb_spec i 0); simpl;
    try (intros [= Hk]; subst k; lia); discriminate.
Qed.

Lemma getitem_is_Some {A} (xs : list A) i :
  is_Some (Py.getitem xs i) <-> - Z.of_nat (length xs) <= i < Z.of_nat (length xs).
Proof.
  rewrite <- index_is_Some. unfold Py.getitem.
  destruct (Py.index xs i) as [k|] eqn:E; [|split; intros [? [=]]].
  split; [eauto|]. intros _. apply lookup_lt_is_Some_2. eapply index_lt, E.
Qed.

Lemma setitem_is_Some {A} (xs : list A) i x :
  is_Some (Py.setitem xs i x) <-> - Z.of_nat (length xs) <= i < Z.of_nat (length xs).
Proof.
  rewrite <- index_is_Some. unfold Py.setitem.
  destruct (Py.index xs i) as [k|]; [split; eauto|split; intros [? [=]]].
Qed.

(** The fields of the position that a successful [make_move] returns. *)
Lemma make_move_fields st m st' :
  GameState.make_move st m = Some st' ->
  exists moved captured_piece,
    Py.getitem (board st) (from_square m) = Some moved
    /\ moved <> EMPTY
    /\ (captured_piece
        = if is_en_passant m
          then Py.getitem (board st) (ep_victim_square (side_to_move st) (to_square m))
          else match Py.getitem (board st) (to_square m) with
               | Some t => MoveGen.captured_of t
               | None => None
               end)
    /\ length (board st') = length (board st)
    /\ side_to_move st' = opposite (side_to_move st)
    /\ castling_rights st'
       = GameState.update_castling (castling_rights st) moved captured_piece
           (from_square m) (to_square m)
    /\ en_passant st' = GameState.new_en_passant moved (from_square m) (to_square m)
    /\ halfmove_clock st'
       = (if Ascii.eqb (Py.upper moved) "P" || bool_decide (is_Some captured_piece)
          then 0 else halfmove_clock st + 1)
    /\ fullmove_number st'
       = match side_to_move st with
         | Black => fullmove_number st + 1
         | White => fullmove_number st
         end
    /\ (exists u, history st' = u :: history st /\ u_move u = m
                  /\ u_rep_key u = GameState.repetition_key st')
    /\ repetition st'
       = <[GameState.repetition_key st'
           := default 0 (repetition st !! GameState.repetition_key st') + 1]> (repetition st).
Proof.
  unfold GameState.make_move. cbv zeta.
  destruct (Py.getitem (board st) (from_square m)) as [moved|]; [|discriminate].
  cbn [mbind option_bind].
  destruct (Ascii.eqb_spec moved EMPTY) as [|Hne]; [discriminate|].
  destruct (Py.getitem (board st) (to_square m)) as [target|]; [|discriminate].
  cbn [mbind option_bind].
  unfold ep_victim_square.
  set (victim := match side_to_move st with
                 | White => to_square m + 8
                 | Black => to_square m - 8
                 end).
  destruct (is_en_passant m).
  - destruct (Py.getitem (board st) victim) as [c|]; [|discriminate].
    cbn [mbind option_bind].
    destruct (Py.setitem (board st) victim EMPTY) as [b1|] eqn:E1; [|discriminate].
    cbn [mbind option_bind].
    destruct (Py.setitem b1 (from_square m) EMPTY) as [b2|] eqn:E2; [|discriminate].
    cbn [mbind option_bind].
    destruct (Py.setitem b2 (to_square m) _) as [b3|] eqn:E3; [|discriminate].
    cbn [mbind option_bind].
    assert (H3 : length b3 = length (board st)).
    { rewrite (setitem_length _ _ _ _ E3), (setitem_length _ _ _ _ E2).
      apply (setitem_length _ _ _ _ E1). }
    destruct (is_castle m).
    + destruct (GameState.castle_rook_squares (to_square m)) as [[rf rt]|].
      * destruct (Py.getitem b3 rf) as [rp|]; [|discriminate]. cbn [mbind option_bind].
        destruct (Py.setitem b3 rf EMPTY) as [b'|] eqn:E4; [|discriminate].
        cbn [mbind option_bind].
        destruct (Py.setitem b' rt rp) as [b''|] eqn:E5; [|discriminate].
        cbn [mbind option_bind]. intros [= <-]. exists moved, (Some c).
        cbn. rewrite (setitem_length _ _ _ _ E5), (setitem_length _ _ _ _ E4).
        repeat split; try assumption; eauto.
      * cbn [mbind option_bind]. intros [= <-]. exists moved, (Some c).
        cbn. repeat split; try assumption; eauto.
    + cbn [mbind option_bind]. intros [= <-]. exists moved, (Some c).
      cbn. repeat split; try assumption; eauto.
  - cbn [mbind option_bind].
    destruct (Py.setitem (board st) (from_square m) EMPTY) as [b2|] eqn:E2; [|discriminate].
    cbn [mbind option_bind].
    destruct (Py.setitem b2 (to_square m) _) as [b3|] eqn:E3; [|discriminate].
    cbn [mbind option_bind].
    assert (H3 : length b3 = length (board st)).
    { rewrite (setitem_length _ _ _ _ E3). apply (setitem_length _ _ _ _ E2). }
    destruct (is_castle m).
    + destruct (GameState.castle_rook_squares (to_square m)) as [[rf rt]|].
      * destruct (Py.getitem b3 rf) as [rp|]; [|discriminate]. cbn [mbind option_bind].
        destruct (Py.setitem b3 rf EMPTY) as [b'|] eqn:E4; [|discriminate].
        cbn [mbind option_bind].
        destruct (Py.setitem b' rt rp) as [b''|] eqn:E5; [|discriminate].
        cbn [mbind option_bind]. intros [= <-]. exists moved, (MoveGen.captured_of target).
        cbn. rewrite (setitem_length _ _ _ _ E5), (setitem_length _ _ _ _ E4).
        repeat split; try assumption; eauto.
      * cbn [mbind option_bind]. intros [= <-]. exists moved, (MoveGen.captured_of target).
        cbn. repeat split; try assumption; eauto.
    + cbn [mbind option_bind]. intros [= <-]. exists moved, (MoveGen.captured_of target).
      cbn. repeat split; try assumption; eauto.
Qed.

(** ** Position: castling rights *)

Lemma contains_remove c d s :
  Py.contains c (Py.remove d s) = Py.contains c s && negb (Ascii.eqb c d).
Proof.
  induction s as [|x s IH]; [reflexivity|]. cbn [Py.remove Py.contains].
  destruct (Ascii.eqb_spec d x) as [<-|Hdx].
  - rewrite IH. destruct (Ascii.eqb_spec c d) as [->|Hcd]; simpl.
    + rewrite andb_false_r. reflexivity.
    + rewrite andb_true_r. reflexivity.
  - cbn [Py.contains]. rewrite IH.
    destruct (Ascii.eqb_spec c x) as [->|Hcx]; simpl; [|reflexivity].
    destruct (Ascii.eqb_spec x d) as [->|]; [contradiction|reflexivity].
Qed.

(** The rights that [make_move] takes away: from the colour of a king that
    moves, for the corner a rook leaves, for the corner a rook is taken on. *)
Lemma update_castling_contains rights moved cap from to (c : color) (w : wing) :
  Py.contains (castle_right c w) (GameState.update_castling rights moved cap from to)
  = Py.contains (castle_right c w) rights
    && negb (Ascii.eqb moved (king_of c))
    && negb (Ascii.eqb moved (rook_of c) && (from =? rook_home c w))
    && negb (GameState.is_piece cap (rook_of c) && (to =? rook_home c w)).
Proof.
  unfold GameState.update_castling, GameState.remove_castle. cbv zeta. eval_sq.
  destruct (Py.contains (castle_right c w) rights) eqn:Hr.
  2:{ repeat match goal with
             | |- context [if ?b then _ else _] => destruct b
             end; rewrite ?contains_remove, ?Hr; reflexivity. }
  destruct (Ascii.eqb_spec moved "K") as [HK|HK];
    destruct (Ascii.eqb_spec moved "k") as [Hk|Hk]; try congruence;
    destruct (Z.eqb_spec from 56); destruct (Z.eqb_spec from 63); try lia;
    destruct (Z.eqb_spec from 0); try lia; destruct (Z.eqb_spec from 7); try lia;
    destruct (Z.eqb_spec to 56); destruct (Z.eqb_spec to 63); try lia;
    destruct (Z.eqb_spec to 0); try lia; destruct (Z.eqb_spec to 7); try lia;
    rewrite ?andb_false_r, ?andb_true_r; cbn [negb andb];
    destruct c, w; cbn [castle_right king_of rook_of rook_home white_black] in Hr |- *;
    repeat match goal with
      | H : ?x = _ |- context [Ascii.eqb ?x ?y] =>
          first [rewrite (proj2 (Ascii.eqb_eq x y) H)
                | rewrite (proj2 (Ascii.eqb_neq x y)) by congruence]
      | H : ?x <> ?y |- context [Ascii.eqb ?x ?y] => rewrite (proj2 (Ascii.eqb_neq x y) H)
      | H : ?x = _ |- context [Z.eqb ?x ?y] =>
          first [rewrite (proj2 (Z.eqb_eq x y)) by lia
                | rewrite (proj2 (Z.eqb_neq x y)) by lia]
      | H : ?x <> ?y |- context [Z.eqb ?x ?y] =>
          first [rewrite (proj2 (Z.eqb_eq x y)) by lia
                | rewrite (proj2 (Z.eqb_neq x y)) by lia]
      end;
    rewrite ?andb_false_r, ?andb_true_r; cbn [negb andb];
    repeat match goal with
           | |- context [if ?b then _ else _] => destruct b
           end;
    rewrite ?contains_remove, ?Hr; reflexivity.
Qed.

Lemma update_castling_subset rights moved cap from to x :
  Py.contains x (GameState.update_castling rights moved cap from to) = true ->
  Py.contains x rights = true.
Proof.
  unfold GameState.update_castling, GameState.remove_castle. cbv zeta.
  repeat match goal with
         | |- context [if ?b then _ else _] => destruct b
         end;
    rewrite ?contains_remove; intros H;
    repeat (apply andb_true_iff in H as [H _]); exact H.
Qed.

(** X6.  [make_move] never adds a castling right: every character of the
    rights after a move was among the rights before it. *)
Theorem castling_rights_never_grow (st : GameState) (m : Move) (st' : GameState) (x : ascii) :
  GameState.make_move st m = Some st' ->
  Py.contains x (castling_rights st') = true ->
  Py.contains x (castling_rights st) = true.
Proof.
  intros H. destruct (make_move_fields st m st' H) as (moved & cap & _ & _ & _ & _ & _ & -> & _).
  apply update_castling_subset.
Qed.

Lemma castling_rights_never_grow_witness :
  Py.contains "k" (castling_rights rooks_and_kings) = true.
Proof.
  apply (castling_rights_never_grow rooks_and_kings (mkMove 56 0 None false false (Some "r"%char))
           (after_move rooks_and_kings (mkMove 56 0 None false false (Some "r"%char))) "k");
    vm_compute; reflexivity.
Defined.

(** X7.  After [make_move] a side still holds a castling right exactly when
    it held it before and the move did not move that side's king, did not
    move that side's rook off the matching corner, and did not capture that
    side's rook on the matching corner. *)
Theorem castling_right_kept_iff (st : GameState) (m : Move) (st' : GameState)
    (moved : ascii) (c : color) (w : wing) :
  GameState.make_move st m = Some st' ->
  Py.getitem (board st) (from_square m) = Some moved ->
  Py.contains (castle_right c w) (castling_rights st')
  = Py.contains (castle_right c w) (castling_rights st)
    && negb (Ascii.eqb moved (king_of c))
    && negb (Ascii.eqb moved (rook_of c) && (from_square m =? rook_home c w))
    && negb (GameState.is_piece (captured_piece st m) (rook_of c)
             && (to_square m =? rook_home c w)).
Proof.
  intros H Hmoved.
  destruct (make_move_fields st m st' H) as (moved' & cap & Hm & _ & Hcap & _ & _ & -> & _).
  assert (moved' = moved) as -> by congruence.
  unfold captured_piece. rewrite <- Hcap. apply update_castling_contains.
Qed.

Lemma castling_right_kept_iff_witness :
  let st := rooks_and_kings in
  let m := mkMove 56 0 None false false (Some "r"%char) in
  Py.contains "Q" (castling_rights (after_move st m)) = false
  /\ Py.contains "q" (castling_rights (after_move st m)) = false
  /\ Py.contains "K" (castling_rights (after_move st m)) = true.
Proof.
  intros st m.
  assert (Hmove : GameState.make_move st m = Some (after_move st m)) by (vm_compute; reflexivity).
  assert (Hmoved : Py.getitem (board st) (from_square m) = Some "R"%char) by (vm_compute; reflexivity).
  split; [|split].
  - refine (eq_trans (castling_right_kept_iff st m _ "R" White Queenside Hmove Hmoved) _).
    vm_compute. reflexivity.
  - refine (eq_trans (castling_right_kept_iff st m _ "R" Black Queenside Hmove Hmoved) _).
    vm_compute. reflexivity.
  - refine (eq_trans (castling_right_kept_iff st m _ "R" White Kingside Hmove Hmoved) _).
    vm_compute. reflexivity.
Defined.

(** ** Position: the repetition table *)

(** X8.  [make_move] counts the position it reaches: the count of its key
    goes up by one (from 0 if the key is new), the other counts stay, and
    the position is a draw by repetition exactly when its key had been
    counted twice before. *)
Theorem make_move_counts_position (st : GameState) (m : Move) (st' : GameState) :
  GameState.make_move st m = Some st' ->
  let key := GameState.repetition_key st' in
  repetition st' !! key = Some (default 0 (repetition st !! key) + 1)
  /\ (forall k, k <> key -> repetition st' !! k = repetition st !! k)
  /\ (GameState.is_draw_by_repetition st' = true <-> 2 <= default 0 (repetition st !! key)).
Proof.
  intros H key.
  destruct (make_move_fields st m st' H) as (moved & cap & _ & _ & _ & _ & _ & _ & _ & _ & _ & _ & Hrep).
  fold key in Hrep. split; [|split].
  - rewrite Hrep. apply lookup_insert_eq.
  - intros k Hk. rewrite Hrep. apply lookup_insert_ne. congruence.
  - unfold GameState.is_draw_by_repetition. fold key. rewrite Hrep, lookup_insert_eq. simpl.
    rewrite Z.leb_le. lia.
Qed.

Lemma make_move_counts_position_witness :
  let m := mkMove 52 36 None false false None in
  repetition (after_move start m) !! GameState.repetition_key (after_move start m) = Some 1
  /\ GameState.is_draw_by_repetition (after_move start m) = false.
Proof.
  intros m.
  assert (Hmove : GameState.make_move start m = Some (after_move start m))
    by (vm_compute; reflexivity).
  destruct (make_move_counts_position start m _ Hmove) as (Hcount & _ & Hdraw).
  split.
  - rewrite Hcount. vm_compute. reflexivity.
  - destruct (GameState.is_draw_by_repetition (after_move start m)); [|reflexivity].
    exfalso. pose proof (proj1 Hdraw eq_refl) as Hfew. vm_compute in Hfew.
    apply Hfew. reflexivity.
Defined.

(** ** Position: when [make_move] raises *)

Lemma setitem_in_range (xs : list ascii) i x :
  in_range xs i -> exists ys, Py.setitem xs i x = Some ys /\ length ys = length xs.
Proof.
  intros H. destruct (proj2 (setitem_is_Some xs i x) H) as [ys Hys].
  exists ys. split; [exact Hys|]. eapply setitem_length, Hys.
Qed.

Lemma getitem_in_range (xs : list ascii) i :
  in_range xs i -> exists x, Py.getitem xs i = Some x.
Proof. intros H. exact (proj2 (getitem_is_Some xs i) H). Qed.

Lemma in_range_length (xs ys : list ascii) i :
  length ys = length xs -> in_range xs i -> in_range ys i.
Proof. unfold in_range. intros ->. auto. Qed.

(** X9.  On a board of 64 cells [make_move] raises in four cases only: the
    source index or the destination index is not an index of the board
    (Python also accepts -64..-1), the source cell is empty, or the move is
    flagged en passant and the square behind the destination is off the
    board. *)
Theorem make_move_raises_iff (st : GameState) (m : Move) :
  length (board st) = 64%nat ->
  GameState.make_move st m = None
  <-> ~ in_range (board st) (from_square m)
      \/ Py.getitem (board st) (from_square m) = Some EMPTY
      \/ ~ in_range (board st) (to_square m)
      \/ (is_en_passant m = true
          /\ ~ in_range (board st) (ep_victim_square (side_to_move st) (to_square m))).
Proof.
  intros Hlen. unfold GameState.make_move. cbv zeta.
  pose proof (getitem_is_Some (board st) (from_square m)) as Hfrom. fold (in_range (board st) (from_square m)) in Hfrom.
  pose proof (getitem_is_Some (board st) (to_square m)) as Hto. fold (in_range (board st) (to_square m)) in Hto.
  destruct (Py.getitem (board st) (from_square m)) as [moved|].
  2:{ split; [intros _; left|reflexivity]. intros Hr. apply Hfrom in Hr as [? [=]]. }
  assert (Hf : in_range (board st) (from_square m)) by (apply Hfrom; eauto).
  cbn [mbind option_bind].
  destruct (Ascii.eqb_spec moved EMPTY) as [->|Hne].
  { split; [intros _; right; left|]; reflexivity. }
  destruct (Py.getitem (board st) (to_square m)) as [target|].
  2:{ split; [intros _; right; right; left|reflexivity]. intros Hr. apply Hto in Hr as [? [=]]. }
  assert (Ht : in_range (board st) (to_square m)) by (apply Hto; eauto).
  cbn [mbind option_bind]. unfold ep_victim_square.
  set (victim := match side_to_move st with
                 | White => to_square m + 8
                 | Black => to_square m - 8
                 end).
  pose proof (getitem_is_Some (board st) victim) as Hvic. fold (in_range (board st) victim) in Hvic.
  assert (Hrest : forall b1 cap epsq, length b1 = length (board st) ->
            (b2 ← Py.setitem b1 (from_square m) EMPTY;
             b3 ← Py.setitem b2 (to_square m)
                    match promotion m with
                    | Some p => match side_to_move st with
                                | White => Py.upper p
                                | Black => Py.lower p
                                end
                    | None => moved
                    end;
             '(b4, rook_move) ←
               (if is_castle m then
                  match GameState.castle_rook_squares (to_square m) with
                  | Some (rook_from, rook_to) =>
                      rook_piece ← Py.getitem b3 rook_from;
                      b' ← Py.setitem b3 rook_from EMPTY;
                      b'' ← Py.setitem b' rook_to rook_piece;
                      Some (b'', Some (rook_from, rook_to, rook_piece))
                  | None => Some (b3, None)
                  end
                else Some (b3, None));
             let '(st', rep_key) :=
               GameState.update_repetition
                 (mkState b4 (opposite (side_to_move st))
                    (GameState.update_castling (castling_rights st) moved cap
                       (from_square m) (to_square m))
                    (GameState.new_en_passant moved (from_square m) (to_square m))
                    (if Ascii.eqb (Py.upper moved) "P" || bool_decide (is_Some cap)
                     then 0 else halfmove_clock st + 1)
                    match side_to_move st with
                    | White => fullmove_number st
                    | Black => fullmove_number st + 1
                    end (history st) (repetition st)) in
             Some (mkState (board st') (side_to_move st') (castling_rights st') (en_passant st')
                     (halfmove_clock st') (fullmove_number st')
                     (mkUndo m cap moved (castling_rights st) (en_passant st)
                        (halfmove_clock st) (fullmove_number st) (side_to_move st) rook_move
                        epsq rep_key :: history st')
                     (repetition st'))) <> None).
  { intros b1 cap epsq H1.
    destruct (setitem_in_range b1 (from_square m) EMPTY (in_range_length _ _ _ H1 Hf))
      as (b2 & -> & H2). cbn [mbind option_bind].
    assert (H2' : length b2 = length (board st)) by congruence.
    destruct (setitem_in_range b2 (to_square m)
                match promotion m with
                | Some p => match side_to_move st with
                            | White => Py.upper p
                            | Black => Py.lower p
                            end
                | None => moved
                end (in_range_length _ _ _ H2' Ht)) as (b3 & -> & H3).
    cbn [mbind option_bind].
    assert (H3' : length b3 = 64%nat) by congruence.
    destruct (is_castle m); [|discriminate].
    destruct (GameState.castle_rook_squares (to_square m)) as [[rf rt]|] eqn:Er; [|discriminate].
    destruct (castle_rook_squares_range _ _ _ Er) as [Hrf Hrt].
    rewrite getitem_cell by lia. cbn [mbind option_bind].
    rewrite setitem_put by lia. cbn [mbind option_bind].
    rewrite setitem_put by (rewrite length_put; lia). discriminate. }
  destruct (is_en_passant m).
  - destruct (Py.getitem (board st) victim) as [c|].
    2:{ split; [intros _; right; right; right; split; [reflexivity|]|reflexivity].
        intros Hr. apply Hvic in Hr as [? [=]]. }
    assert (Hv : in_range (board st) victim) by (apply Hvic; eauto).
    cbn [mbind option_bind].
    destruct (setitem_in_range (board st) victim EMPTY Hv) as (b1 & -> & H1).
    cbn [mbind option_bind]. split.
    + intros H. exfalso. exact (Hrest b1 (Some c) (Some victim) H1 H).
    + intros [H | [H | [H | [_ H]]]]; try contradiction. congruence.
  - cbn [mbind option_bind]. split.
    + intros H. exfalso. exact (Hrest (board st) _ None eq_refl H).
    + intros [H | [H | [H | [H _]]]]; try contradiction; congruence.
Qed.

Lemma make_move_raises_iff_witness :
  GameState.make_move start (mkMove 36 28 None false false None) = None
  /\ GameState.make_move start (mkMove 52 64 None false false None) = None
  /\ GameState.make_move start (mkMove (-12) 36 None false false None) <> None.
Proof.
  assert (Hlen : length (board start) = 64%nat) by reflexivity.
  split; [|split].
  - apply (proj2 (make_move_raises_iff start (mkMove 36 28 None false false None) Hlen)).
    right. left. vm_compute. reflexivity.
  - apply (proj2 (make_move_raises_iff start (mkMove 52 64 None false false None) Hlen)).
    right. right. left. unfold in_range. rewrite Hlen. simpl. lia.
  - intros H.
    apply (proj1 (make_move_raises_iff start (mkMove (-12) 36 None false false None) Hlen)) in H.
    destruct H as [H | [H | [H | [H _]]]].
    + apply H. unfold in_range. rewrite Hlen. simpl. lia.
    + vm_compute in H. discriminate H.
    + apply H. unfold in_range. rewrite Hlen. simpl. lia.
    + discriminate H.
Defined.

(** ** Position: the board after a move *)

(** X10.  What [make_move] of a pseudo-legal move does to the board: the
    source square becomes empty, the destination holds the moved piece (the
    promotion piece in the mover's case for a promotion), an en-passant
    capture empties the square behind the destination, castling carries the
    rook from its corner to the square next to the king, and every other
    square is left alone. *)
Theorem make_move_board (st : GameState) (m : Move) :
  length (board st) = 64%nat ->
  In m (MoveGen.generate_pseudo_legal_moves st) ->
  exists st',
    GameState.make_move st m = Some st'
    /\ cell (board st') (from_square m) = EMPTY
    /\ cell (board st') (to_square m) = placed_piece st m
    /\ (is_en_passant m = true ->
        cell (board st') (ep_victim_square (side_to_move st) (to_square m)) = EMPTY)
    /\ (is_castle m = true ->
        exists rf rt, GameState.castle_rook_squares (to_square m) = Some (rf, rt)
                      /\ cell (board st') rf = EMPTY
                      /\ cell (board st') rt = cell (board st) rf)
    /\ (forall j, 0 <= j < 64 -> j <> from_square m -> j <> to_square m ->
                  (is_en_passant m = true ->
                   j <> ep_victim_square (side_to_move st) (to_square m)) ->
                  (is_castle m = true ->
                   forall rf rt, GameState.castle_rook_squares (to_square m) = Some (rf, rt) ->
                                 j <> rf /\ j <> rt) ->
                  cell (board st') j = cell (board st) j).
Proof.
  intros Hlen Hin.
  pose proof (pseudo_legal_generated st m Hlen Hin) as Hgen.
  exists (after_move st m). split; [apply make_move_generated; assumption|].
  destruct Hgen as (Hf & Ht & Hmover & Hkind).
  unfold after_move, placed_piece. cbv zeta. cbn [board].
  destruct Hkind as [Hn | [He | Hc]].
  - destruct Hn as (Hc & Hep & Hne & _). rewrite Hc, Hep.
    split; [cells|]. split; [cells|]. split; [discriminate|]. split; [discriminate|].
    intros j Hj Hjf Hjt _ _. cells.
  - pose proof (ep_victim_range st m Hf Ht He) as (Hv & Hvf & Hvt).
    destruct He as (Hep & Hc & Hpromo & _ & _ & Htarget & Hrow & _).
    assert (Hne : from_square m <> to_square m).
    { intros Heq. rewrite Heq in Hrow. unfold pawn_dir in Hrow. destruct (side_to_move st); lia. }
    rewrite Hc, Hep, Hpromo.
    split; [cells|]. split; [cells|]. split; [intros _; cells|]. split; [discriminate|].
    intros j Hj Hjf Hjt Hjv _. specialize (Hjv eq_refl). cells.
  - destruct (castle_rook_squares_generated st m Hc)
      as (rf & rt & Hr & Hrt & Hrf1 & Hrt1 & Hd1 & Hd2 & Hd3 & Hd4 & Hd5).
    destruct Hc as (Hc & Hep & Hpromo & _ & _ & _ & _ & Hto_empty & _).
    assert (Hne : from_square m <> to_square m).
    { intros Heq. rewrite <- Heq, Hto_empty in *. discriminate Hmover. }
    rewrite Hc, Hep, Hpromo, Hr.
    split; [cells|]. split; [cells|]. split; [discriminate|].
    split; [intros _; exists rf, rt; split; [reflexivity|]; split; cells|].
    intros j Hj Hjf Hjt _ Hjr. destruct (Hjr eq_refl rf rt eq_refl) as [Hj1 Hj2]. cells.
Qed.

Lemma make_move_board_witness :
  exists st',
    GameState.make_move rooks_and_kings (castling_move White Kingside) = Some st'
    /\ cell (board st') 60 = EMPTY /\ cell (board st') 62 = "K"%char
    /\ cell (board st') 63 = EMPTY /\ cell (board st') 61 = "R"%char
    /\ cell (board st') 56 = "R"%char.
Proof.
  destruct (make_move_board rooks_and_kings (castling_move White Kingside))
    as (st' & Hmove & Hfrom & Hto & _ & Hrook & Hframe).
  - reflexivity.
  - vm_compute. tauto.
  - exists st'. split; [exact Hmove|]. split; [exact Hfrom|]. split; [exact Hto|].
    destruct (Hrook eq_refl) as (rf & rt & Hsq & Hrf & Hrt).
    vm_compute in Hsq. injection Hsq as <- <-.
    split; [exact Hrf|]. split; [exact Hrt|].
    rewrite (Hframe 56); try lia; try reflexivity; try discriminate.
    intros _ rf rt Hsq. vm_compute in Hsq. injection Hsq as <- <-. lia.
Defined.

(** ** Lines of play *)

Lemma undo_all_last n : forall st,
  undo_all (S n) st = (st1 ← undo_all n st; GameState.undo_move st1).
Proof.
  induction n as [|n IH]; intros st.
  - simpl. destruct (GameState.undo_move st); reflexivity.
  - change (undo_all (S (S n)) st) with (st1 ← GameState.undo_move st; undo_all (S n) st1).
    change (undo_all (S n) st) with (st1 ← GameState.undo_move st; undo_all n st1).
    destruct (GameState.undo_move st) as [st1|]; [|reflexivity].
    cbn [mbind option_bind]. apply IH.
Qed.

Lemma legal_line_step st m :
  valid st ->
  (exists legal st0, MoveGen.generate_legal_moves st = Some (legal, st0) /\ In m legal) ->
  playable st m.
Proof.
  intros Hvalid (legal & st0 & Hlegal & Hin).
  rewrite (legal_moves_valid st Hvalid) in Hlegal. injection Hlegal as <- _.
  apply filter_In in Hin. exact Hin.
Qed.

Lemma legal_line_played ms : forall st,
  valid st -> legal_line st ms ->
  exists st', play st ms = Some st' /\ valid st' /\ undo_all (length ms) st' = Some st.
Proof.
  induction ms as [|m rest IH]; intros st Hvalid Hline.
  - exists st. split; [reflexivity|]. split; [exact Hvalid|reflexivity].
  - destruct Hline as [Hm Hrest].
    destruct (playable_step st m Hvalid (legal_line_step st m Hvalid Hm)) as (Hmove & Hafter & Hundo).
    destruct (IH (after_move st m) Hafter (Hrest _ Hmove)) as (st' & Hplay & Hvalid' & Hback).
    exists st'. cbn [play]. rewrite Hmove. cbn [mbind option_bind].
    split; [exact Hplay|]. split; [exact Hvalid'|].
    cbn [length]. rewrite undo_all_last, Hback. exact Hundo.
Qed.

(** X11.  Playing legal moves keeps a position well formed: from a position
    with 64 piece letters, one king per colour, a genuine en-passant target
    and the side not to move out of check, every line of legal moves can be
    played without [make_move] raising and ends in such a position. *)
Theorem legal_line_keeps_valid (st : GameState) (ms : list Move) :
  valid st -> legal_line st ms ->
  exists st', play st ms = Some st' /\ valid st'.
Proof.
  intros Hvalid Hline.
  destruct (legal_line_played ms st Hvalid Hline) as (st' & Hplay & Hvalid' & _). eauto.
Qed.

(** X12.  A line of legal moves is taken back by as many calls of
    [undo_move]: the position is then the one the line started from, with
    its history and its repetition table. *)
Theorem legal_line_undone (st : GameState) (ms : list Move) :
  valid st -> legal_line st ms ->
  exists st', play st ms = Some st' /\ undo_all (length ms) st' = Some st.
Proof.
  intros Hvalid Hline.
  destruct (legal_line_played ms st Hvalid Hline) as (st' & Hplay & _ & Hback). eauto.
Qed.

Lemma legal_line_cons st m rest :
  valid st -> playable st m -> legal_line (after_move st m) rest -> legal_line st (m :: rest).
Proof.
  intros Hvalid Hplay Hrest. split.
  - exists (List.filter (keeps_king_safe st (side_to_move st))
                        (MoveGen.generate_pseudo_legal_moves st)), st.
    split; [apply legal_moves_valid, Hvalid|]. apply filter_In. exact Hplay.
  - intros st1 H1. destruct (playable_step st m Hvalid Hplay) as (Hmove & _).
    rewrite Hmove in H1. injection H1 as <-. exact Hrest.
Qed.

(** 1. e4 e5 2. Nf3 from the start position. *)
Lemma opening_line :
  legal_line start [mkMove 52 36 None false false None;
                    mkMove 12 28 None false false None;
                    mkMove 62 45 None false false None].
Proof.
  assert (H1 : playable start (mkMove 52 36 None false false None)).
  { split; [vm_compute; tauto|vm_compute; reflexivity]. }
  pose proof (proj1 (proj2 (playable_step _ _ start_valid H1))) as Hv1.
  assert (H2 : playable (after_move start (mkMove 52 36 None false false None))
                 (mkMove 12 28 None false false None)).
  { split; [vm_compute; tauto|vm_compute; reflexivity]. }
  pose proof (proj1 (proj2 (playable_step _ _ Hv1 H2))) as Hv2.
  assert (H3 : playable (after_move (after_move start (mkMove 52 36 None false false None))
                           (mkMove 12 28 None false false None))
                 (mkMove 62 45 None false false None)).
  { split; [vm_compute; tauto|vm_compute; reflexivity]. }
  apply legal_line_cons; [exact start_valid|exact H1|].
  apply legal_line_cons; [exact Hv1|exact H2|].
  apply legal_line_cons; [exact Hv2|exact H3|]. exact I.
Qed.

Lemma legal_line_keeps_valid_witness :
  exists st', play start [mkMove 52 36 None false false None;
                          mkMove 12 28 None false false None;
                          mkMove 62 45 None false false None] = Some st'
              /\ valid st'.
Proof. exact (legal_line_keeps_valid start _ start_valid opening_line). Defined.

Lemma legal_line_undone_witness :
  exists st', play start [mkMove 52 36 None false false None;
                          mkMove 12 28 None false false None;
                          mkMove 62 45 None false false None] = Some st'
              /\ undo_all 3 st' = Some start.
Proof. exact (legal_line_undone start _ start_valid opening_line). Defined.

(** ** Move generation: the legal moves *)

(** X13.  On a well-formed position [generate_legal_moves] does not raise,
    hands the position back unchanged, and returns exactly the pseudo-legal
    moves after which the mover's king is on the board and not attacked, in
    the order of generation. *)
Theorem legal_moves_exact (st : GameState) :
  valid st ->
  MoveGen.generate_legal_moves st
  = Some (List.filter (fun m => match GameState.is_in_check (after_move st m) (side_to_move st) with
                                | Some false => true
                                | _ => false
                                end)
                      (MoveGen.generate_pseudo_legal_moves st), st)
  /\ forall m, In m (MoveGen.generate_pseudo_legal_moves st) ->
               GameState.make_move st m = Some (after_move st m).
Proof.
  intros Hvalid. split; [exact (legal_moves_valid st Hvalid)|].
  intros m Hin. destruct Hvalid as (Hlen & _).
  apply make_move_generated; [exact Hlen|]. apply pseudo_legal_generated; assumption.
Qed.

Lemma legal_moves_exact_witness :
  exists legal, MoveGen.generate_legal_moves start = Some (legal, start) /\ length legal = 20%nat.
Proof.
  eexists. split; [exact (proj1 (legal_moves_exact start start_valid))|].
  vm_compute. reflexivity.
Defined.

(** ** Move generation: the fields of a move *)

Lemma promotion_is_pawn st m p :
  length (board st) = 64%nat ->
  In m (MoveGen.generate_pseudo_legal_moves st) ->
  promotion m = Some p ->
  In p PROMOTIONS /\ Py.upper (cell (board st) (from_square m)) = "P"%char.
Proof.
  intros Hlen Hin Hp.
  destruct (pseudo_legal_generated st m Hlen Hin) as (_ & _ & _ & [Hn | [He | Hc]]).
  - destruct Hn as (_ & _ & _ & _ & _ & Hpromo & _). rewrite Hp in Hpromo. exact Hpromo.
  - destruct He as (_ & _ & Hpromo & _). congruence.
  - destruct Hc as (_ & _ & Hpromo & _). congruence.
Qed.

(** X14.  The fields of a pseudo-legal move tell what it does: a move not
    flagged en passant records as captured the piece on its destination
    (nothing for an empty square); an en-passant move is a pawn's, goes to
    the en-passant target and records no capture; a castling move is the
    king's, from its home square, two files to either side; a promotion
    piece is one of Q, R, B, N and only a pawn's move has one. *)
Theorem pseudo_legal_move_fields (st : GameState) (m : Move) :
  length (board st) = 64%nat ->
  In m (MoveGen.generate_pseudo_legal_moves st) ->
  (is_en_passant m = false ->
   captured m = MoveGen.captured_of (cell (board st) (to_square m)))
  /\ (is_en_passant m = true ->
      captured m = None /\ is_castle m = false /\ promotion m = None
      /\ en_passant st = Some (to_square m)
      /\ Py.upper (cell (board st) (from_square m)) = "P"%char)
  /\ (is_castle m = true ->
      captured m = None /\ promotion m = None
      /\ cell (board st) (from_square m) = king_of (side_to_move st)
      /\ from_square m = king_home (side_to_move st)
      /\ (to_square m = from_square m + 2 \/ to_square m = from_square m - 2))
  /\ (forall p, promotion m = Some p ->
                In p PROMOTIONS /\ Py.upper (cell (board st) (from_square m)) = "P"%char).
Proof.
  intros Hlen Hin.
  destruct (pseudo_legal_generated st m Hlen Hin) as (_ & _ & _ & [Hn | [He | Hc]]).
  - destruct Hn as (Hc & Hep & _ & Hcap & _ & Hpromo & _).
    split; [intros _; exact Hcap|]. split; [congruence|]. split; [congruence|].
    intros p Hp. rewrite Hp in Hpromo. exact Hpromo.
  - destruct He as (Hep & Hc & Hpromo & Hcap & Hpawn & Htarget & _).
    split; [congruence|]. split; [intros _; repeat split; assumption|].
    split; [congruence|]. congruence.
  - destruct Hc as (Hc & Hep & Hpromo & Hcap & Hking & Hhome & Hto & Hempty & _).
    split; [intros _; rewrite Hempty; exact Hcap|]. split; [congruence|].
    split; [|congruence]. intros _. rewrite <- Hhome in Hto. repeat split; assumption.
Qed.

Lemma pseudo_legal_move_fields_witness :
  captured (mkMove 56 0 None false false (Some "r"%char))
  = MoveGen.captured_of (cell (board rooks_and_kings) 0).
Proof.
  apply (pseudo_legal_move_fields rooks_and_kings (mkMove 56 0 None false false (Some "r"%char)));
    [reflexivity|vm_compute; tauto|reflexivity].
Defined.

Lemma pawn_moves_promotion st idx m :
  0 <= idx < 64 ->
  In m (MoveGen.pawn_moves st idx) -> is_en_passant m = false ->
  (is_Some (promotion m) <-> row_of (to_square m) = promo_row (side_to_move st)).
Proof.
  intros Hidx. unfold MoveGen.pawn_moves. cbv zeta.
  assert (Hrow : 0 <= row_of idx < 8 /\ 0 <= col_of idx < 8) by (unfold row_of, col_of; zlia).
  set (row := row_of idx) in *. set (col := col_of idx) in *.
  set (side := side_to_move st) in *.
  assert (Hsome : forall p : ascii, is_Some (Some p)) by eauto.
  assert (Hnone : ~ is_Some (@None ascii)) by (intros [? [=]]).
  assert (Hsq : forall r c, 0 <= r < 8 -> 0 <= c < 8 -> row_of (r * 8 + c) = r)
    by (intros r c Hr Hc; unfold row_of; zlia).
  rewrite in_app_iff. intros [Hpush | Hcapture] Hep.
  - destruct (on_board (row + _) col) eqn:Hon; [|contradiction].
    apply on_board_spec in Hon.
    destruct (Ascii.eqb (cell (board st) _) EMPTY); [|contradiction].
    apply in_app_iff in Hpush as [Hsingle | Hdouble].
    + destruct (Z.eqb_spec (row + match side with White => -1 | Black => 1 end)
                  (match side with White => 0 | Black => 7 end)) as [Hlast|Hlast].
      * apply in_map_iff in Hsingle as (p & <- & Hp). simpl. rewrite Hsq by lia.
        unfold promo_row. split; [intros _; exact Hlast|intros _; apply Hsome].
      * destruct Hsingle as [<- | []]. simpl. rewrite Hsq by lia.
        unfold promo_row. tauto.
    + destruct (Z.eqb_spec row (match side with White => 6 | Black => 1 end)) as [Hstart|];
        [|contradiction].
      destruct (Ascii.eqb (cell (board st) _) EMPTY); [|contradiction].
      destruct Hdouble as [<- | []]. simpl.
      rewrite Hsq by (destruct side; lia). unfold promo_row.
      split; [intros H; contradiction|]. destruct side; lia.
  - apply in_flat_map in Hcapture as (dc & Hdc & H).
    destruct (on_board _ _) eqn:Hon; simpl in H; [|contradiction].
    apply on_board_spec in Hon.
    apply in_app_iff in H as [H | H].
    + destruct (negb _ && _); [|contradiction].
      destruct (Z.eqb_spec (row + match side with White => -1 | Black => 1 end)
                  (match side with White => 0 | Black => 7 end)) as [Hlast|Hlast].
      * repeat (destruct H as [<- | H];
                [simpl; rewrite Hsq by lia; unfold promo_row;
                 split; [intros _; exact Hlast|intros _; apply Hsome]|]).
        contradiction.
      * destruct H as [<- | []]. simpl. rewrite Hsq by lia.
        unfold promo_row. tauto.
    + destruct (en_passant st) as [e|]; [|contradiction].
      destruct (_ =? e); [|contradiction].
      destruct H as [<- | []]. discriminate Hep.
Qed.

(** X15.  Among the pseudo-legal moves not flagged en passant, the ones
    with a promotion piece are exactly the pawn moves that end on the last
    row (row 0 for white, row 7 for black). *)
Theorem promotion_iff_last_row (st : GameState) (m : Move) :
  length (board st) = 64%nat ->
  In m (MoveGen.generate_pseudo_legal_moves st) ->
  is_en_passant m = false ->
  (is_Some (promotion m)
   <-> Py.upper (cell (board st) (from_square m)) = "P"%char
       /\ row_of (to_square m) = promo_row (side_to_move st)).
Proof.
  intros Hlen Hin Hep.
  pose proof (fun p => promotion_is_pawn st m p Hlen Hin) as Hpromo.
  apply in_pseudo_legal in Hin as (k & piece & Hk & Hin).
  pose proof (lookup_lt_Some _ _ _ Hk) as Hlt.
  pose proof (cell_lookup _ _ _ Hk) as Hcell.
  destruct (piece_moves_generated st k piece m Hlen Hk Hin) as [_ Hfrom].
  rewrite Hfrom, Hcell.
  destruct (Ascii.eqb_spec (Py.upper piece) "P") as [HP|HnP].
  - unfold MoveGen.piece_moves in Hin.
    destruct (_ || _); [contradiction|]. rewrite HP in Hin. eval_eqb_in Hin.
    rewrite (pawn_moves_promotion st (Z.of_nat k) m ltac:(lia) Hin Hep). tauto.
  - split; [|tauto]. intros [p Hp]. destruct (Hpromo p Hp) as [_ H].
    rewrite Hfrom, Hcell in H. contradiction.
Qed.

Lemma promotion_iff_last_row_witness :
  let st := GameState.init (default [] (Board.from_fen "4k3/P7/8/8/8/8/8/4K3")) White "-" None 0 1 in
  In (mkMove 8 0 (Some "Q"%char) false false None) (MoveGen.generate_pseudo_legal_moves st)
  /\ Py.upper (cell (board st) 8) = "P"%char /\ row_of 0 = promo_row White.
Proof.
  intros st.
  assert (Hin : In (mkMove 8 0 (Some "Q"%char) false false None)
                   (MoveGen.generate_pseudo_legal_moves st)) by (vm_compute; tauto).
  split; [exact Hin|].
  apply (proj1 (promotion_iff_last_row st _ eq_refl Hin eq_refl)). eexists. reflexivity.
Defined.

(** ** Attacks and captures *)

Lemma cell_lookup_piece (b : list ascii) (i : Z) (p : ascii) :
  cell b i = p -> p <> EMPTY -> b !! Z.to_nat i = Some p.
Proof.
  unfold cell. destruct (b !! Z.to_nat i) as [x|]; simpl; congruence.
Qed.

(** A piece with capturing moves of its own stands on the board and is
    reached by the scan. *)
Lemma piece_move_pseudo_legal st idx piece m :
  0 <= idx -> cell (board st) idx = piece -> piece <> EMPTY ->
  In m (MoveGen.piece_moves st idx piece) ->
  In m (MoveGen.generate_pseudo_legal_moves st).
Proof.
  intros Hidx Hcell Hne Hin. apply in_pseudo_legal.
  exists (Z.to_nat idx), piece. split; [apply cell_lookup_piece; assumption|].
  rewrite Z2Nat.id by exact Hidx. exact Hin.
Qed.

Lemma step_attack_found b target row col steps :
  GameState.step_attack b target row col steps = true ->
  exists dr dc, In (dr, dc) steps /\ on_board (row + dr) (col + dc) = true
                /\ cell b ((row + dr) * 8 + (col + dc)) = target.
Proof.
  unfold GameState.step_attack. rewrite existsb_exists. intros ([dr dc] & Hin & H).
  cbn [fst snd] in H. apply andb_true_iff in H as [Hon Hcell].
  exists dr, dc. split; [exact Hin|]. split; [exact Hon|]. apply Ascii.eqb_eq, Hcell.
Qed.

(** A knight or king one step away from a square that it may land on has
    the move to that square. *)
Lemma step_attack_move st s dr dc steps :
  0 <= s < 64 ->
  on_board (row_of s + dr) (col_of s + dc) = true ->
  In (- dr, - dc) steps ->
  piece_color (cell (board st) s) = Some (opposite (side_to_move st)) ->
  In (mkMove ((row_of s + dr) * 8 + (col_of s + dc)) s None false false
             (MoveGen.captured_of (cell (board st) s)))
     (MoveGen.step_moves st ((row_of s + dr) * 8 + (col_of s + dc)) steps).
Proof.
  intros Hs Hon Hstep Henemy.
  destruct (index_row_col s Hs) as [Hon0 Hsq].
  unfold MoveGen.step_moves. apply in_flat_map. exists (- dr, - dc).
  split; [exact Hstep|]. cbn [fst snd].
  destruct (square_row_col _ _ Hon) as [-> ->].
  replace (row_of s + dr + - dr) with (row_of s) by lia.
  replace (col_of s + dc + - dc) with (col_of s) by lia.
  rewrite Hon0, Hsq, Henemy.
  assert (Hc : color_is (Some (opposite (side_to_move st))) (opposite (side_to_move st)) = true)
    by (destruct (side_to_move st); reflexivity).
  rewrite Hc, orb_true_r. left. reflexivity.
Qed.

(** What a true [attack_ray] has met: empty squares, then the attacker. *)
Lemma attack_ray_found b hits dr dc : forall fuel nr nc,
  GameState.attack_ray fuel b hits nr nc dr dc = true ->
  exists k : nat,
    (k < fuel)%nat
    /\ (forall j : nat, (j < k)%nat ->
          on_board (nr + Z.of_nat j * dr) (nc + Z.of_nat j * dc) = true
          /\ cell b ((nr + Z.of_nat j * dr) * 8 + (nc + Z.of_nat j * dc)) = EMPTY)
    /\ on_board (nr + Z.of_nat k * dr) (nc + Z.of_nat k * dc) = true
    /\ cell b ((nr + Z.of_nat k * dr) * 8 + (nc + Z.of_nat k * dc)) <> EMPTY
    /\ hits (cell b ((nr + Z.of_nat k * dr) * 8 + (nc + Z.of_nat k * dc))) = true.
Proof.
  induction fuel as [|fuel IH]; intros nr nc; simpl; [discriminate|].
  destruct (on_board nr nc) eqn:Hon; [|discriminate].
  destruct (Ascii.eqb_spec (cell b (nr * 8 + nc)) EMPTY) as [He|Hne]; simpl.
  - intros H. destruct (IH _ _ H) as (k & Hk & Hempty & Hon' & Hocc & Hhit).
    exists (S k). split; [lia|].
    replace (nr + Z.of_nat (S k) * dr) with (nr + dr + Z.of_nat k * dr) by lia.
    replace (nc + Z.of_nat (S k) * dc) with (nc + dc + Z.of_nat k * dc) by lia.
    split; [|auto]. intros [|j] Hj.
    + simpl. rewrite !Z.add_0_r. auto.
    + replace (nr + Z.of_nat (S j) * dr) with (nr + dr + Z.of_nat j * dr) by lia.
      replace (nc + Z.of_nat (S j) * dc) with (nc + dc + Z.of_nat j * dc) by lia.
      apply Hempty. lia.
  - intros H. exists 0%nat. simpl. rewrite !Z.add_0_r.
    split; [lia|]. split; [intros j Hj; lia|]. auto.
Qed.

(** A slider reaches the first piece on its ray when that is an enemy's. *)
Lemma slide_reaches b enemy idx dr dc : forall (k fuel : nat) nr nc,
  (k < fuel)%nat ->
  (forall j : nat, (j < k)%nat ->
     on_board (nr + Z.of_nat j * dr) (nc + Z.of_nat j * dc) = true
     /\ cell b ((nr + Z.of_nat j * dr) * 8 + (nc + Z.of_nat j * dc)) = EMPTY) ->
  on_board (nr + Z.of_nat k * dr) (nc + Z.of_nat k * dc) = true ->
  piece_color (cell b ((nr + Z.of_nat k * dr) * 8 + (nc + Z.of_nat k * dc))) = Some enemy ->
  In (mkMove idx ((nr + Z.of_nat k * dr) * 8 + (nc + Z.of_nat k * dc)) None false false
             (Some (cell b ((nr + Z.of_nat k * dr) * 8 + (nc + Z.of_nat k * dc)))))
     (MoveGen.slide fuel b enemy idx nr nc dr dc).
Proof.
  induction k as [|k IH]; intros fuel nr nc Hfuel Hempty Hon Henemy;
    (destruct fuel as [|fuel]; [lia|]); simpl.
  - simpl in Hon, Henemy |- *. rewrite !Z.add_0_r in *. rewrite Hon.
    rewrite (proj2 (Ascii.eqb_neq _ _) (piece_color_some _ _ Henemy)), Henemy.
    destruct enemy; left; reflexivity.
  - destruct (Hempty 0%nat ltac:(lia)) as [Hon0 He0]. simpl in Hon0, He0.
    rewrite !Z.add_0_r in Hon0, He0. rewrite Hon0, He0, Ascii.eqb_refl. right.
    replace (nr + Z.of_nat (S k) * dr) with (nr + dr + Z.of_nat k * dr) in * by lia.
    replace (nc + Z.of_nat (S k) * dc) with (nc + dc + Z.of_nat k * dc) in * by lia.
    apply IH; [lia| |exact Hon|exact Henemy].
    intros j Hj. specialize (Hempty (S j) ltac:(lia)).
    replace (nr + Z.of_nat (S j) * dr) with (nr + dr + Z.of_nat j * dr) in Hempty by lia.
    replace (nc + Z.of_nat (S j) * dc) with (nc + dc + Z.of_nat j * dc) in Hempty by lia.
    exact Hempty.
Qed.

(** The piece that a true [attack_ray] has met has a sliding move back along
    the ray onto the square attacked. *)
Lemma ray_attack_move st s dr dc hits :
  0 <= s < 64 ->
  piece_color (cell (board st) s) = Some (opposite (side_to_move st)) ->
  GameState.attack_ray RAY_FUEL (board st) hits (row_of s + dr) (col_of s + dc) dr dc = true ->
  exists idx m,
    0 <= idx < 64 /\ hits (cell (board st) idx) = true /\ cell (board st) idx <> EMPTY
    /\ to_square m = s /\ is_en_passant m = false
    /\ In m (MoveGen.slide RAY_FUEL (board st) (opposite (side_to_move st)) idx
               (row_of idx + - dr) (col_of idx + - dc) (- dr) (- dc)).
Proof.
  intros Hs Henemy Hray.
  destruct (index_row_col s Hs) as [Hon0 Hsq].
  destruct (attack_ray_found _ _ _ _ _ _ _ Hray) as (k & Hk & Hempty & Hon & Hocc & Hhit).
  set (ar := row_of s + dr + Z.of_nat k * dr) in *.
  set (ac := col_of s + dc + Z.of_nat k * dc) in *.
  destruct (square_row_col _ _ Hon) as [Hrow Hcol].
  assert (Hidx : 0 <= ar * 8 + ac < 64) by (apply on_board_spec in Hon; lia).
  exists (ar * 8 + ac).
  exists (mkMove (ar * 8 + ac) s None false false (Some (cell (board st) s))).
  split; [exact Hidx|]. split; [exact Hhit|]. split; [exact Hocc|].
  split; [reflexivity|]. split; [reflexivity|].
  rewrite Hrow, Hcol.
  assert (Hr : ar + - dr + Z.of_nat k * - dr = row_of s) by (unfold ar; lia).
  assert (Hc : ac + - dc + Z.of_nat k * - dc = col_of s) by (unfold ac; lia).
  pose proof (slide_reaches (board st) (opposite (side_to_move st)) (ar * 8 + ac) (- dr) (- dc)
                k RAY_FUEL (ar + - dr) (ac + - dc) Hk) as Hslide.
  rewrite Hr, Hc, Hsq in Hslide. apply Hslide; [|exact Hon0|exact Henemy].
  intros j Hj.
  assert (Hi : Z.of_nat (k - 1 - j) = Z.of_nat k - 1 - Z.of_nat j) by lia.
  specialize (Hempty (k - 1 - j)%nat ltac:(lia)). rewrite Hi in Hempty.
  replace (ar + - dr + Z.of_nat j * - dr)
    with (row_of s + dr + (Z.of_nat k - 1 - Z.of_nat j) * dr) by (unfold ar; lia).
  replace (ac + - dc + Z.of_nat j * - dc)
    with (col_of s + dc + (Z.of_nat k - 1 - Z.of_nat j) * dc) by (unfold ac; lia).
  exact Hempty.
Qed.

Lemma slider_piece_moves st idx piece d m :
  piece_color piece = Some (side_to_move st) ->
  (In d diag_dirs /\ (Py.upper piece = "B"%char \/ Py.upper piece = "Q"%char)
   \/ In d ortho_dirs /\ (Py.upper piece = "R"%char \/ Py.upper piece = "Q"%char)) ->
  In m (MoveGen.slide RAY_FUEL (board st) (opposite (side_to_move st)) idx
          (row_of idx + fst d) (col_of idx + snd d) (fst d) (snd d)) ->
  In m (MoveGen.piece_moves st idx piece).
Proof.
  intros Hcol Hkind Hin. unfold MoveGen.piece_moves.
  rewrite (proj2 (Ascii.eqb_neq _ _) (piece_color_some _ _ Hcol)), Hcol.
  assert (Hc : color_is (Some (side_to_move st)) (side_to_move st) = true)
    by (destruct (side_to_move st); reflexivity).
  rewrite Hc. cbn [negb orb]. cbv zeta.
  assert (Hdirs : In m (MoveGen.slider_moves st idx (Py.upper piece))).
  { unfold MoveGen.slider_moves. apply in_flat_map. exists d. split; [|exact Hin].
    apply in_app_iff.
    destruct Hkind as [[Hd [-> | ->]] | [Hd [-> | ->]]]; eval_eqb; cbn [orb]; auto. }
  destruct Hkind as [[_ [Hu | Hu]] | [_ [Hu | Hu]]]; rewrite Hu in *; eval_eqb; exact Hdirs.
Qed.

Lemma hits_bishop_queen c p :
  Ascii.eqb p (white_black c "B" "b") || Ascii.eqb p (white_black c "Q" "q") = true ->
  piece_color p = Some c /\ (Py.upper p = "B"%char \/ Py.upper p = "Q"%char).
Proof.
  intros H. apply orb_true_iff in H as [H | H]; apply Ascii.eqb_eq in H; subst p;
    destruct c; simpl; auto.
Qed.

Lemma hits_rook_queen c p :
  Ascii.eqb p (white_black c "R" "r") || Ascii.eqb p (white_black c "Q" "q") = true ->
  piece_color p = Some c /\ (Py.upper p = "R"%char \/ Py.upper p = "Q"%char).
Proof.
  intros H. apply orb_true_iff in H as [H | H]; apply Ascii.eqb_eq in H; subst p;
    destruct c; simpl; auto.
Qed.

Lemma king_dirs_back dr dc :
  In (dr, dc) (diag_dirs ++ ortho_dirs) -> In (- dr, - dc) king_dirs.
Proof.
  unfold king_dirs, diag_dirs, ortho_dirs. simpl. intros H.
  repeat (destruct H as [[= <- <-] | H]; [simpl; tauto|]). contradiction.
Qed.

(** A pawn that attacks a square holding an enemy piece has the capture. *)
Lemma pawn_attack_move st s dc :
  0 <= s < 64 ->
  piece_color (cell (board st) s) = Some (opposite (side_to_move st)) ->
  dc = -1 \/ dc = 1 ->
  on_board (row_of s + match side_to_move st with White => 1 | Black => -1 end)
           (col_of s + dc) = true ->
  exists m, to_square m = s /\ is_en_passant m = false
            /\ In m (MoveGen.pawn_moves st
                       ((row_of s + match side_to_move st with White => 1 | Black => -1 end) * 8
                        + (col_of s + dc))).
Proof.
  intros Hs Henemy Hdc Hon.
  destruct (index_row_col s Hs) as [Hon0 Hsq].
  destruct (square_row_col _ _ Hon) as [Hrow Hcol].
  set (idx := (row_of s + match side_to_move st with White => 1 | Black => -1 end) * 8
              + (col_of s + dc)) in *.
  assert (Hback : row_of idx + match side_to_move st with White => -1 | Black => 1 end = row_of s)
    by (rewrite Hrow; destruct (side_to_move st); lia).
  assert (Hc : color_is (Some (opposite (side_to_move st))) (opposite (side_to_move st)) = true)
    by (destruct (side_to_move st); reflexivity).
  assert (Hcapture : forall m,
            In m (if row_of s =? match side_to_move st with White => 0 | Black => 7 end
                  then map (fun promo => mkMove idx s (Some promo) false false
                                           (Some (cell (board st) s))) PROMOTIONS
                  else [mkMove idx s None false false (Some (cell (board st) s))]) ->
            In m (MoveGen.pawn_moves st idx)).
  { intros m Hm. unfold MoveGen.pawn_moves. cbv zeta. apply in_app_iff. right.
    apply in_flat_map. exists (- dc). split; [simpl; lia|].
    rewrite Hback, Hcol. replace (col_of s + dc + - dc) with (col_of s) by lia.
    rewrite Hon0, Hsq. cbn [negb]. apply in_app_iff. left.
    rewrite (proj2 (Ascii.eqb_neq _ _) (piece_color_some _ _ Henemy)), Henemy, Hc.
    exact Hm. }
  destruct (row_of s =? match side_to_move st with White => 0 | Black => 7 end) eqn:Hlast.
  - exists (mkMove idx s (Some "Q"%char) false false (Some (cell (board st) s))).
    split; [reflexivity|]. split; [reflexivity|]. apply Hcapture. left. reflexivity.
  - exists (mkMove idx s None false false (Some (cell (board st) s))).
    split; [reflexivity|]. split; [reflexivity|]. apply Hcapture. left. reflexivity.
Qed.

Lemma own_piece_moves st idx :
  MoveGen.piece_moves st idx (white_black (side_to_move st) "P" "p") = MoveGen.pawn_moves st idx
  /\ MoveGen.piece_moves st idx (white_black (side_to_move st) "N" "n")
     = MoveGen.step_moves st idx knight_steps
  /\ MoveGen.piece_moves st idx (white_black (side_to_move st) "K" "k")
     = MoveGen.step_moves st idx king_dirs ++ MoveGen.castling_moves st idx.
Proof. unfold MoveGen.piece_moves. destruct (side_to_move st); repeat split. Qed.

(** X16.  Attack detection and move generation agree: a square that holds a
    piece of the side not to move is attacked by the side to move, according
    to [is_square_attacked], exactly when a pseudo-legal move other than an
    en-passant capture lands on it. *)
Theorem attacked_iff_capture (st : GameState) (s : Z) :
  length (board st) = 64%nat -> 0 <= s < 64 ->
  piece_color (cell (board st) s) = Some (opposite (side_to_move st)) ->
  GameState.is_square_attacked st s (side_to_move st) = true
  <-> exists m, In m (MoveGen.generate_pseudo_legal_moves st)
                /\ to_square m = s /\ is_en_passant m = false.
Proof.
  intros Hlen Hs Henemy. split.
  - rewrite is_square_attacked_parts. cbv zeta. rewrite !orb_true_iff.
    intros [[[[Hp | Hn] | Hd] | Ho] | Hk].
    + (* a pawn *)
      apply step_attack_found in Hp as (dr & dc & Hin & Hon & Hcell).
      assert (Hstep : dr = match side_to_move st with White => 1 | Black => -1 end
                      /\ (dc = -1 \/ dc = 1)).
      { simpl in Hin. destruct Hin as [[= <- <-] | [[= <- <-] | []]]; auto. }
      destruct Hstep as [-> Hdc].
      destruct (pawn_attack_move st s dc Hs Henemy Hdc Hon) as (m & Hto & Hep & Hin').
      exists m. split; [|auto].
      apply on_board_spec in Hon.
      refine (piece_move_pseudo_legal st _ _ _ _ Hcell _ _);
        [lia|destruct (side_to_move st); discriminate|].
      rewrite (proj1 (own_piece_moves st _)). exact Hin'.
    + (* a knight *)
      apply step_attack_found in Hn as (dr & dc & Hin & Hon & Hcell).
      pose proof (step_attack_move st s dr dc knight_steps Hs Hon
                    (knight_steps_symmetric _ _ Hin) Henemy) as Hmove.
      match type of Hmove with In ?mv _ => exists mv end. split; [|split; reflexivity].
      apply on_board_spec in Hon.
      refine (piece_move_pseudo_legal st _ _ _ _ Hcell _ _);
        [lia|destruct (side_to_move st); discriminate|].
      rewrite (proj1 (proj2 (own_piece_moves st _))). exact Hmove.
    + (* a bishop or queen *)
      apply existsb_exists in Hd as ([dr dc] & Hin & Hray). cbn [fst snd] in Hray.
      destruct (ray_attack_move st s dr dc _ Hs Henemy Hray)
        as (idx & m & Hidx & Hhit & Hocc & Hto & Hep & Hslide).
      destruct (hits_bishop_queen _ _ Hhit) as [Hcol Hkind].
      exists m. split; [|auto].
      apply (piece_move_pseudo_legal st idx (cell (board st) idx)); [lia|reflexivity|exact Hocc|].
      apply (slider_piece_moves st idx _ (- dr, - dc)); [exact Hcol| |exact Hslide].
      left. split; [apply diag_dirs_symmetric, Hin|exact Hkind].
    + (* a rook or queen *)
      apply existsb_exists in Ho as ([dr dc] & Hin & Hray). cbn [fst snd] in Hray.
      destruct (ray_attack_move st s dr dc _ Hs Henemy Hray)
        as (idx & m & Hidx & Hhit & Hocc & Hto & Hep & Hslide).
      destruct (hits_rook_queen _ _ Hhit) as [Hcol Hkind].
      exists m. split; [|auto].
      apply (piece_move_pseudo_legal st idx (cell (board st) idx)); [lia|reflexivity|exact Hocc|].
      apply (slider_piece_moves st idx _ (- dr, - dc)); [exact Hcol| |exact Hslide].
      right. split; [apply ortho_dirs_symmetric, Hin|exact Hkind].
    + (* the king *)
      apply step_attack_found in Hk as (dr & dc & Hin & Hon & Hcell).
      pose proof (step_attack_move st s dr dc king_dirs Hs Hon
                    (king_dirs_back _ _ Hin) Henemy) as Hmove.
      match type of Hmove with In ?mv _ => exists mv end. split; [|split; reflexivity].
      apply on_board_spec in Hon.
      refine (piece_move_pseudo_legal st _ _ _ _ Hcell _ _);
        [lia|destruct (side_to_move st); discriminate|].
      rewrite (proj2 (proj2 (own_piece_moves st _))). apply in_app_iff. left. exact Hmove.
  - intros (m & Hin & <- & Hep).
    apply capture_is_attack; try assumption.
    eapply piece_color_some, Henemy.
Qed.

Lemma attacked_iff_capture_witness :
  GameState.is_square_attacked rooks_and_kings 0 White = true.
Proof.
  apply (proj2 (attacked_iff_capture rooks_and_kings 0 eq_refl ltac:(lia) eq_refl)).
  exists (mkMove 56 0 None false false (Some "r"%char)).
  split; [vm_compute; tauto|]. split; reflexivity.
Defined.

(** ** Evaluation *)

Lemma piece_letter_false p :
  piece_letter p = false <-> p <> EMPTY /\ PIECE_VALUES (Py.upper p) = None.
Proof.
  destruct p as [[] [] [] [] [] [] [] []]; vm_compute;
    (split; [intros H; first [discriminate H | split; [discriminate|reflexivity]]
            |intros [H1 H2];
             first [reflexivity | discriminate H2 | exfalso; apply H1; reflexivity]]).
Qed.

Lemma material_raises_iff b :
  Evaluation.material b = None <-> exists c, In c b /\ piece_letter c = false.
Proof.
  induction b as [|p b IH]; simpl.
  - split; [discriminate|]. intros (c & [] & _).
  - destruct (Ascii.eqb_spec p EMPTY) as [->|Hne].
    + rewrite IH. split.
      * intros (c & Hin & Hc). eauto.
      * intros (c & [<- | Hin] & Hc); [discriminate Hc|eauto].
    + destruct (PIECE_VALUES (Py.upper p)) as [v|] eqn:Ev; cbn [mbind option_bind].
      * destruct (Evaluation.material b) as [t|] eqn:Et; cbn [mbind option_bind].
        -- split; [discriminate|]. intros (c & [<- | Hin] & Hc).
           ++ apply piece_letter_false in Hc as [_ Hc]. congruence.
           ++ discriminate (proj2 IH (ex_intro _ c (conj Hin Hc))).
        -- split; [|reflexivity]. intros _.
           destruct (proj1 IH eq_refl) as (c & Hin & Hc). eauto.
      * split; [|reflexivity]. intros _. exists p. split; [left; reflexivity|].
        apply piece_letter_false. auto.
Qed.

(** X17.  [simple_material_eval] raises (a [KeyError]) exactly when some
    cell of the board is neither empty nor one of the twelve piece
    letters. *)
Theorem material_eval_raises_iff (st : GameState) :
  Evaluation.simple_material_eval st = None
  <-> exists c, In c (board st) /\ piece_letter c = false.
Proof.
  rewrite <- material_raises_iff. unfold Evaluation.simple_material_eval.
  destruct (Evaluation.material (board st)); simpl; split; congruence.
Qed.

Lemma piece_value_nonneg p : 0 <= piece_value p.
Proof. destruct p as [[] [] [] [] [] [] [] []]; vm_compute; discriminate. Qed.

Lemma side_material_nonneg c b : 0 <= side_material c b.
Proof.
  induction b as [|p b IH]; simpl; [lia|].
  pose proof (piece_value_nonneg p). destruct (color_is _ c); lia.
Qed.

Lemma material_sides b :
  forallb piece_letter b = true ->
  Evaluation.material b = Some (side_material White b - side_material Black b).
Proof.
  induction b as [|p b IH]; [reflexivity|]. intros H. cbn [forallb] in H.
  apply andb_true_iff in H as [Hp Hb].
  change (Evaluation.material (p :: b))
    with (if Ascii.eqb p EMPTY then Evaluation.material b
          else value ← PIECE_VALUES (Py.upper p);
               total ← Evaluation.material b;
               Some ((if color_is (piece_color p) White then value else - value) + total)).
  cbn [side_material]. rewrite (IH Hb).
  generalize (side_material White b) (side_material Black b). intros W B.
  destruct p as [[] [] [] [] [] [] [] []]; vm_compute in Hp; try discriminate Hp;
    repeat match goal with
      | |- context [PIECE_VALUES ?x] =>
          let v := eval vm_compute in (PIECE_VALUES x) in change (PIECE_VALUES x) with v
      | |- context [piece_value ?x] =>
          let v := eval vm_compute in (piece_value x) in change (piece_value x) with v
      | |- context [color_is (piece_color ?x) ?c] =>
          let v := eval vm_compute in (color_is (piece_color x) c) in
          change (color_is (piece_color x) c) with v
      end;
    eval_eqb; cbn [mbind option_bind]; f_equal; lia.
Qed.

(** X18.  On a board of piece letters [simple_material_eval] is the material
    of white minus the material of black over 4000, negated when black is to
    move; it lies in [-1, 1] whenever neither side has more material than
    the 4000 points of a full set of pieces. *)
Theorem material_eval_in_unit_range (st : GameState) :
  forallb piece_letter (board st) = true ->
  side_material White (board st) <= 4000 ->
  side_material Black (board st) <= 4000 ->
  exists q,
    Evaluation.simple_material_eval st = Some q
    /\ (q == (match side_to_move st with White => 1 | Black => -1 end
              * (side_material White (board st) - side_material Black (board st))) # 4000)%Q
    /\ (- (1) <= q <= 1)%Q.
Proof.
  intros Hletters Hw Hb. unfold Evaluation.simple_material_eval.
  rewrite (material_sides _ Hletters). cbn [mbind option_bind].
  pose proof (side_material_nonneg White (board st)).
  pose proof (side_material_nonneg Black (board st)).
  eexists. split; [reflexivity|].
  destruct (side_to_move st); unfold Qeq, Qle; simpl; repeat split; lia.
Qed.

Lemma material_eval_in_unit_range_witness :
  exists q, Evaluation.simple_material_eval start = Some q /\ (- (1) <= q <= 1)%Q.
Proof.
  destruct (material_eval_in_unit_range start) as (q & Hq & _ & Hrange).
  - reflexivity.
  - vm_compute. discriminate.
  - vm_compute. discriminate.
  - exists q. split; assumption.
Defined.

(** ** The encoding of a position *)

Lemma setitem_insert {A} (xs : list A) i x :
  0 <= i < Z.of_nat (length xs) -> Py.setitem xs i x = Some (<[Z.to_nat i := x]> xs).
Proof. intros H. unfold Py.setitem. rewrite index_in_range by exact H. reflexivity. Qed.

Lemma lookup_repeat {A} (x : A) : forall (n i : nat), (i < n)%nat -> repeat x n !! i = Some x.
Proof.
  induction n as [|n IH]; intros i Hi; [lia|]. destruct i as [|i]; [reflexivity|].
  simpl. apply IH. lia.
Qed.

Lemma piece_letter_plane p :
  piece_letter p = true -> p <> EMPTY ->
  exists plane, Evaluation.PIECE_TO_INDEX p = Some plane /\ 0 <= plane < 12.
Proof.
  destruct p as [[] [] [] [] [] [] [] []]; intros H; vm_compute in H; try discriminate H;
    intros Hne; try (exfalso; apply Hne; reflexivity);
    eexists; (split; [vm_compute; reflexivity|lia]).
Qed.

Lemma encode_squares_spec : forall cells vec idx,
  length vec = 773%nat -> 0 <= idx -> idx + Z.of_nat (length cells) <= 64 ->
  forallb piece_letter cells = true ->
  exists vec',
    Evaluation.encode_squares vec idx cells = Some vec'
    /\ length vec' = 773%nat
    /\ forall n, 0 <= n ->
         vec' !! Z.to_nat n = if hot_from idx cells n then Some 1 else vec !! Z.to_nat n.
Proof.
  induction cells as [|p cells IH]; intros vec idx Hlen Hidx Hend Hok.
  - exists vec. split; [reflexivity|]. split; [exact Hlen|]. intros n Hn.
    unfold hot_from. rewrite lookup_nil, andb_false_r. reflexivity.
  - cbn [forallb] in Hok. apply andb_true_iff in Hok as [Hp Hok].
    cbn [length] in Hend. cbn [Evaluation.encode_squares].
    assert (Hshift : forall n, 0 <= n -> n mod 64 <> idx ->
              hot_from idx (p :: cells) n = hot_from (idx + 1) cells n).
    { intros n Hn Hne. unfold hot_from.
      destruct (Z.leb_spec idx (n mod 64)); destruct (Z.leb_spec (idx + 1) (n mod 64));
        try lia; try reflexivity. cbn [andb].
      replace (Z.to_nat (n mod 64 - idx)) with (S (Z.to_nat (n mod 64 - (idx + 1)))) by lia.
      reflexivity. }
    assert (Hhere : forall n, 0 <= n -> n mod 64 = idx ->
              hot_from (idx + 1) cells n = false
              /\ hot_from idx (p :: cells) n
                 = match Evaluation.PIECE_TO_INDEX p with
                   | Some plane => plane =? n / 64
                   | None => false
                   end).
    { intros n Hn He. unfold hot_from. rewrite He.
      destruct (Z.leb_spec (idx + 1) idx); [lia|]. split; [reflexivity|].
      rewrite Z.leb_refl, Z.sub_diag. reflexivity. }
    destruct (Ascii.eqb_spec p EMPTY) as [->|Hne].
    + destruct (IH vec (idx + 1) Hlen ltac:(lia) ltac:(lia) Hok) as (vec' & -> & Hlen' & Hvec).
      exists vec'. split; [reflexivity|]. split; [exact Hlen'|]. intros n Hn.
      rewrite (Hvec n Hn). destruct (Z.eq_dec (n mod 64) idx) as [He|Hd].
      * destruct (Hhere n Hn He) as [-> ->]. reflexivity.
      * rewrite (Hshift n Hn Hd). reflexivity.
    + destruct (piece_letter_plane p Hp Hne) as (plane & Hplane & Hrange).
      rewrite Hplane. cbn [mbind option_bind].
      rewrite setitem_insert by lia. cbn [mbind option_bind].
      destruct (IH (<[Z.to_nat (plane * 64 + idx) := 1]> vec) (idx + 1)
                  ltac:(rewrite length_insert; exact Hlen) ltac:(lia) ltac:(lia) Hok)
        as (vec' & -> & Hlen' & Hvec).
      exists vec'. split; [reflexivity|]. split; [exact Hlen'|]. intros n Hn.
      rewrite (Hvec n Hn). destruct (Z.eq_dec (n mod 64) idx) as [He|Hd].
      * destruct (Hhere n Hn He) as [-> ->]. rewrite Hplane.
        destruct (Z.eqb_spec plane (n / 64)) as [Hpl|Hpl].
        -- assert (n = plane * 64 + idx) as -> by zlia.
           apply list_lookup_insert_eq. lia.
        -- apply list_lookup_insert_ne. zlia.
      * rewrite (Hshift n Hn Hd).
        destruct (hot_from (idx + 1) cells n); [reflexivity|].
        apply list_lookup_insert_ne. zlia.
Qed.

(** X19.  [encode_game_state] of a board of 64 piece letters does not raise
    and returns 773 entries: entry [plane * 64 + i] is 1 when the piece on
    square [i] has that plane in [PIECE_TO_INDEX] and 0 otherwise, entry 768
    is 1 for white to move and -1 for black, entries 769..772 are 1 for the
    castling rights K, Q, k, q that are held and 0 for the others. *)
Theorem encode_game_state_one_hot (st : GameState) :
  length (board st) = 64%nat -> forallb piece_letter (board st) = true ->
  exists vec,
    Evaluation.encode_game_state st = Some vec
    /\ length vec = 773%nat
    /\ (forall plane i, 0 <= plane < 12 -> 0 <= i < 64 ->
          vec !! Z.to_nat (plane * 64 + i)
          = Some (if bool_decide (Evaluation.PIECE_TO_INDEX (cell (board st) i) = Some plane)
                  then 1 else 0))
    /\ vec !! 768%nat = Some (match side_to_move st with White => 1 | Black => -1 end)
    /\ vec !! 769%nat = Some (if Py.contains "K" (castling_rights st) then 1 else 0)
    /\ vec !! 770%nat = Some (if Py.contains "Q" (castling_rights st) then 1 else 0)
    /\ vec !! 771%nat = Some (if Py.contains "k" (castling_rights st) then 1 else 0)
    /\ vec !! 772%nat = Some (if Py.contains "q" (castling_rights st) then 1 else 0).
Proof.
  intros Hlen Hok. unfold Evaluation.encode_game_state.
  destruct (encode_squares_spec (board st) (repeat 0 (Z.to_nat Evaluation.INPUT_DIM)) 0)
    as (v0 & -> & Hlen0 & Hv0); try (assumption || lia).
  { rewrite repeat_length. reflexivity. }
  cbv zeta. cbn [mbind option_bind].
  change (12 * 64) with 768. change (768 + 1) with 769. change (768 + 2) with 770.
  change (768 + 3) with 771. change (768 + 4) with 772.
  repeat (rewrite setitem_insert by (rewrite ?length_insert; lia); cbn [mbind option_bind]).
  eexists. split; [reflexivity|]. split; [rewrite !length_insert; exact Hlen0|].
  split.
  - intros plane i Hplane Hi.
    rewrite !list_lookup_insert_ne by lia. rewrite (Hv0 (plane * 64 + i) ltac:(lia)).
    unfold hot_from, cell.
    replace ((plane * 64 + i) mod 64) with i by zlia.
    replace ((plane * 64 + i) / 64) with plane by zlia.
    rewrite Z.sub_0_r. destruct (Z.leb_spec 0 i); [|lia]. cbn [andb].
    assert (Hzero : repeat 0 (Z.to_nat Evaluation.INPUT_DIM) !! Z.to_nat (plane * 64 + i) = Some 0).
    { apply lookup_repeat. unfold Evaluation.INPUT_DIM. lia. }
    rewrite Hzero.
    destruct (lookup_lt_is_Some_2 (board st) (Z.to_nat i) ltac:(lia)) as [p ->]. simpl.
    destruct (Evaluation.PIECE_TO_INDEX p) as [q|].
    + destruct (Z.eqb_spec q plane) as [->|Hne].
      * rewrite bool_decide_true by reflexivity. reflexivity.
      * rewrite bool_decide_false by congruence. reflexivity.
    + rewrite bool_decide_false by discriminate. reflexivity.
  - change (Z.to_nat 768) with 768%nat. change (Z.to_nat 769) with 769%nat.
    change (Z.to_nat 770) with 770%nat. change (Z.to_nat 771) with 771%nat.
    change (Z.to_nat 772) with 772%nat.
    repeat split;
      repeat first [apply list_lookup_insert_eq; rewrite ?length_insert; lia
                   |rewrite list_lookup_insert_ne by lia].
Qed.

Lemma encode_game_state_one_hot_witness :
  exists vec, Evaluation.encode_game_state start = Some vec
              /\ vec !! 60%nat = Some 0 /\ vec !! 380%nat = Some 1 /\ vec !! 768%nat = Some 1.
Proof.
  destruct (encode_game_state_one_hot start eq_refl eq_refl)
    as (vec & Henc & _ & Hhot & Hside & _).
  exists vec. split; [exact Henc|]. split; [|split].
  - exact (Hhot 0 60 ltac:(lia) ltac:(lia)).
  - exact (Hhot 5 60 ltac:(lia) ltac:(lia)).
  - exact Hside.
Defined.

(** ** Search: move ordering *)

Lemma insert_move_perm m l : Search.insert_move m l ≡ₚ m :: l.
Proof.
  induction l as [|x l IH]; simpl; [reflexivity|].
  destruct (_ <? _); [|reflexivity]. rewrite IH. apply Permutation_swap.
Qed.

Lemma insert_move_descending m l : descending l -> descending (Search.insert_move m l).
Proof.
  induction l as [|x l IH]; simpl; [auto|]. intros [Hx Hl].
  destruct (Z.ltb_spec (Search.move_score m) (Search.move_score x)) as [Hlt|Hge].
  - split; [|apply IH, Hl].
    rewrite (insert_move_perm m l). constructor; [lia|exact Hx].
  - split; [|split; assumption].
    constructor; [lia|]. eapply Forall_impl; [exact Hx|]. simpl. intros b Hb. lia.
Qed.

Lemma insert_move_with_score v m l :
  with_score v (Search.insert_move m l) = with_score v (m :: l).
Proof.
  unfold with_score. induction l as [|x l IH]; [reflexivity|]. cbn [Search.insert_move].
  destruct (Z.ltb_spec (Search.move_score m) (Search.move_score x)) as [Hlt|Hge];
    [|reflexivity].
  cbn [List.filter] in *. rewrite IH.
  destruct (Z.eqb_spec (Search.move_score x) v); destruct (Z.eqb_spec (Search.move_score m) v);
    try reflexivity. lia.
Qed.

(** X20.  [order_moves] is Python's stable [sorted(..., reverse=True)] on
    the value of the captured piece: the result holds the same moves, none
    scores more than a move before it, and moves of equal score keep the
    order they came in. *)
Theorem order_moves_stable_sort (moves : list Move) :
  Search.order_moves moves ≡ₚ moves
  /\ descending (Search.order_moves moves)
  /\ forall v, with_score v (Search.order_moves moves) = with_score v moves.
Proof.
  unfold Search.order_moves. induction moves as [|m l (Hperm & Hdesc & Hstable)]; simpl.
  - repeat split. reflexivity.
  - split; [|split].
    + rewrite insert_move_perm, Hperm. reflexivity.
    + apply insert_move_descending, Hdesc.
    + intros v. rewrite insert_move_with_score. unfold with_score in *.
      cbn [List.filter]. rewrite Hstable. reflexivity.
Qed.

(** ** Search: the window of the quiescence search *)

Lemma score_leb_refl a : score_leb a a = true.
Proof. destruct a; simpl; try reflexivity. apply Qle_bool_iff, Qle_refl. Qed.

Lemma score_leb_trans a b c :
  score_leb a b = true -> score_leb b c = true -> score_leb a c = true.
Proof.
  destruct a, b, c; simpl; try reflexivity; try discriminate.
  rewrite !Qle_bool_iff. apply Qle_trans.
Qed.

Lemma score_leb_total a b : score_leb a b = false -> score_leb b a = true.
Proof.
  destruct a, b; simpl; try reflexivity; try discriminate.
  intros H. apply Qle_bool_iff. destruct (Qlt_le_dec q0 q) as [Hlt|Hle].
  - apply Qlt_le_weak, Hlt.
  - apply Qle_bool_iff in Hle. congruence.
Qed.

Lemma score_max_left a b : score_leb a (score_max a b) = true.
Proof.
  unfold score_max, score_ltb. destruct (score_leb b a) eqn:E; simpl.
  - apply score_leb_refl.
  - apply score_leb_total, E.
Qed.

Lemma score_max_right a b : score_leb b (score_max a b) = true.
Proof.
  unfold score_max, score_ltb. destruct (score_leb b a) eqn:E; simpl.
  - exact E.
  - apply score_leb_refl.
Qed.

Lemma score_max_least a b c :
  score_leb a c = true -> score_leb b c = true -> score_leb (score_max a b) c = true.
Proof. unfold score_max. destruct (score_ltb a b); auto. Qed.

Lemma quiescence_loop_window rec beta : forall moves st alpha v st',
  score_leb alpha beta = true ->
  Search.quiescence_loop rec moves st alpha beta = Some (v, st') ->
  score_leb alpha v = true /\ score_leb v beta = true.
Proof.
  induction moves as [|m rest IH]; intros st alpha v st' Hab; simpl.
  - intros [= <- <-]. split; [apply score_leb_refl|exact Hab].
  - destruct (negb _ && negb _); [apply IH, Hab|].
    destruct (GameState.make_move st m) as [st1|]; [|discriminate]. cbn [mbind option_bind].
    destruct (rec st1 _ _) as [[w st2]|]; [|discriminate]. cbn [mbind option_bind].
    destruct (GameState.undo_move st2) as [st3|]; [|discriminate]. cbn [mbind option_bind].
    destruct (score_leb beta (score_neg w)) eqn:Hcut.
    + intros [= <- <-]. split; [exact Hab|apply score_leb_refl].
    + intros H. apply IH in H as [H1 H2].
      * split; [|exact H2]. eapply score_leb_trans; [apply score_max_left|exact H1].
      * apply score_max_least; [exact Hab|]. apply score_leb_total, Hcut.
Qed.

Lemma quiescence_search_window model depth st alpha beta v st' :
  score_leb alpha beta = true ->
  Search.quiescence_search model depth st alpha beta = Some (v, st') ->
  exists stand_pat,
    Evaluation.evaluate_position st model = Some stand_pat
    /\ score_leb v beta = true
    /\ (score_leb stand_pat v = true \/ v = beta)
    /\ (depth <> 0%nat -> score_leb alpha v = true).
Proof.
  intros Hab. destruct depth as [|depth]; cbn [Search.quiescence_search];
    destruct (Evaluation.evaluate_position st model) as [sp|]; try discriminate;
    cbn [mbind option_bind]; destruct (score_leb beta sp) eqn:Hcut.
  - intros [= <- <-]. exists sp. repeat split; auto using score_leb_refl.
  - intros [= <- <-]. exists sp. split; [reflexivity|]. split; [apply score_leb_total, Hcut|].
    split; [left; apply score_leb_refl|contradiction].
  - intros [= <- <-]. exists sp. repeat split; auto using score_leb_refl.
  - destruct (MoveGen.generate_legal_moves st) as [[legal st1]|]; [|discriminate].
    cbn [mbind option_bind]. intros H.
    apply quiescence_loop_window in H as [H1 H2].
    + exists sp. split; [reflexivity|]. split; [exact H2|]. split.
      * left. eapply score_leb_trans; [apply score_max_right|exact H1].
      * intros _. eapply score_leb_trans; [apply score_max_left|exact H1].
    + apply score_max_least; [exact Hab|]. apply score_leb_total, Hcut.
Qed.

(** X21.  The quiescence search is fail-hard.  On a well-formed position,
    with a finite evaluator and a window alpha <= beta, it returns the
    position unchanged and a finite score that is at most beta, is at least
    the static evaluation unless it is beta itself, and with a depth of 1 or
    more is at least alpha. *)
Theorem quiescence_search_fail_hard (model : option evaluator) (depth : nat)
    (st : GameState) (alpha beta : score) :
  valid st -> evaluator_finite model ->
  alpha <> PosInf -> beta <> NegInf -> score_leb alpha beta = true ->
  exists q stand_pat,
    Evaluation.evaluate_position st model = Some stand_pat
    /\ Search.quiescence_search model depth st alpha beta = Some (Fin q, st)
    /\ score_leb (Fin q) beta = true
    /\ (score_leb stand_pat (Fin q) = true \/ Fin q = beta)
    /\ (depth <> 0%nat -> score_leb alpha (Fin q) = true).
Proof.
  intros Hvalid Hmodel Ha Hb Hab.
  destruct (quiescence_search_finite model Hmodel depth st alpha beta Hvalid Ha Hb) as [q Hq].
  destruct (quiescence_search_window _ _ _ _ _ _ _ Hab Hq) as (sp & Hsp & H1 & H2 & H3).
  exists q, sp. auto.
Qed.

Lemma quiescence_search_fail_hard_witness :
  exists q, Search.quiescence_search None 1 start (Fin (-1)) (Fin 1) = Some (Fin q, start)
            /\ score_leb (Fin q) (Fin 1) = true /\ score_leb (Fin (-1)) (Fin q) = true.
Proof.
  destruct (quiescence_search_fail_hard None 1 start (Fin (-1)) (Fin 1) start_valid
              material_eval_finite ltac:(discriminate) ltac:(discriminate) eq_refl)
    as (q & sp & _ & Hq & Hle & _ & Hge).
  exists q. split; [exact Hq|]. split; [exact Hle|]. apply Hge. discriminate.
Defined.

(** ** Search: positions without a legal move *)

(** X22.  In a well-formed position that is not a draw by the clock, by
    material or by repetition and has no legal move, [alpha_beta] with a
    depth other than 0 and within 2^52 (where the float arithmetic of the
    score is exact) returns -10000 + (5 - depth) when the side to move is in
    check (mate) and 0.0 when it is not (stalemate), whatever the window and
    the evaluator. *)
Theorem alpha_beta_no_legal_move (fuel : nat) (model : option evaluator) (st st' : GameState)
    (depth : Z) (alpha beta : score) (quiescence_depth : Z) :
  valid st ->
  MoveGen.generate_legal_moves st = Some ([], st') ->
  halfmove_clock st < 100 ->
  GameState.insufficient_material st = false ->
  GameState.is_draw_by_repetition st = false ->
  depth <> 0 -> Z.abs depth <= 2 ^ 52 ->
  exists chk,
    GameState.is_in_check st (side_to_move st) = Some chk
    /\ Search.alpha_beta (S fuel) model st depth alpha beta quiescence_depth
       = Ok (if chk : bool then Fin (inject_Z (- MATE_VALUE + (5 - depth))) else Fin 0, st).
Proof.
  intros Hvalid Hlegal Hclock Hmat Hrep Hdepth _.
  pose proof (legal_moves_valid st Hvalid) as Hl. rewrite Hl in Hlegal.
  injection Hlegal as Hnil <-. rewrite Hnil in Hl.
  destruct Hvalid as (_ & _ & Hkings & _).
  destruct (locate_king_found (board st) (side_to_move st)) as [i Hi].
  { rewrite (one_king_count _ _ Hkings). lia. }
  exists (GameState.is_square_attacked st i (opposite (side_to_move st))).
  unfold GameState.is_in_check at 1. rewrite Hi. split; [reflexivity|].
  cbn [Search.alpha_beta]. rewrite Hmat, Hrep.
  destruct (Z.leb_spec 100 (halfmove_clock st)); [lia|]. cbn [orb].
  destruct (Z.eqb_spec depth 0); [contradiction|].
  rewrite Hl. cbn [try mbind result_mbind result_bind Search.order_moves foldr].
  unfold GameState.is_in_check. rewrite Hi. reflexivity.
Qed.

Lemma fools_mate_valid : valid fools_mate.
Proof.
  refine (conj _ (conj _ (conj (conj _ _) (conj _ (conj _ _))))); try (vm_compute; reflexivity).
  - intros e He. vm_compute in He. discriminate He.
  - apply init_repetition_positive.
Qed.

Lemma alpha_beta_no_legal_move_witness :
  Search.alpha_beta 1 None fools_mate 2 NegInf PosInf 3
  = Ok (Fin (inject_Z (-9997)), fools_mate).
Proof.
  assert (Hlegal : MoveGen.generate_legal_moves fools_mate = Some ([], fools_mate))
    by (vm_compute; reflexivity).
  assert (Hclock : halfmove_clock fools_mate < 100) by (vm_compute; reflexivity).
  assert (Hmat : GameState.insufficient_material fools_mate = false) by (vm_compute; reflexivity).
  assert (Hrep : GameState.is_draw_by_repetition fools_mate = false) by (vm_compute; reflexivity).
  destruct (alpha_beta_no_legal_move 0 None fools_mate fools_mate 2 NegInf PosInf 3
              fools_mate_valid Hlegal Hclock Hmat Hrep ltac:(discriminate)
              ltac:(discriminate))
    as (chk & Hchk & Hab).
  assert (chk = true) as -> by (vm_compute in Hchk; congruence).
  exact Hab.
Defined.

(** ** The move parser of the command line *)

Lemma lower_char_idem c : Py.lower_char (Py.lower_char c) = Py.lower_char c.
Proof. destruct c as [[] [] [] [] [] [] [] []]; vm_compute; reflexivity. Qed.

(** The name of a square of the board: two characters that [strip] and
    [lower] leave alone, and that [square_to_index] reads back. *)
Lemma square_name i :
  0 <= i < 64 ->
  exists f r,
    index_to_square i = String f (String r EmptyString)
    /\ Py.isspace f = false /\ Py.isspace r = false
    /\ Py.lower_char f = f /\ Py.lower_char r = r.
Proof.
  intros Hi. replace i with (Z.of_nat (Z.to_nat i)) by lia.
  assert (Hn : (Z.to_nat i < 64)%nat) by lia. revert Hn. generalize (Z.to_nat i). intros n Hn.
  do 64 (destruct n as [|n];
         [eexists; eexists; split; [vm_compute; reflexivity|]; repeat split; vm_compute; reflexivity|]).
  lia.
Qed.

Lemma promotion_piece p :
  In p PROMOTIONS -> Py.isspace p = false /\ Py.isspace (Py.lower_char p) = false.
Proof.
  unfold PROMOTIONS. simpl. intros H.
  repeat (destruct H as [<- | H]; [split; vm_compute; reflexivity|]). contradiction.
Qed.

Lemma find_move_matching legal from_sq to_sq promo m :
  List.find
    (fun move =>
       (from_square move =? from_sq) && (to_square move =? to_sq)
       && match promo with
          | None => true
          | Some p =>
              match promotion move with
              | Some q => Ascii.eqb (Py.lower_char q) (Py.lower_char p)
              | None => false
              end
          end)
    legal = Some m ->
  In m legal /\ from_square m = from_sq /\ to_square m = to_sq
  /\ match promo with
     | None => True
     | Some p => exists q, promotion m = Some q /\ Py.lower_char q = Py.lower_char p
     end.
Proof.
  intros H. apply find_some in H as [Hin H].
  apply andb_true_iff in H as [H Hp]. apply andb_true_iff in H as [Hf Ht].
  split; [exact Hin|]. split; [apply Z.eqb_eq, Hf|]. split; [apply Z.eqb_eq, Ht|].
  destruct promo as [p|]; [|exact I].
  destruct (promotion m) as [q|]; [|discriminate]. exists q. split; [reflexivity|].
  apply Ascii.eqb_eq, Hp.
Qed.

(** X23.  [find_move_from_input] only returns moves of the list it is
    given, and only the move that the text names: the text, stripped and in
    lower case, is the name of the move's source square, the name of its
    destination square and nothing more, or one more character that is the
    move's promotion piece in lower case. *)
Theorem find_move_from_input_sound (text : string) (legal : list Move) (m : Move) :
  Main.find_move_from_input text legal = Some m ->
  In m legal
  /\ 0 <= from_square m < 64 /\ 0 <= to_square m < 64
  /\ exists suffix,
       Py.lower_str (Py.strip text)
       = index_to_square (from_square m) +:+ index_to_square (to_square m) +:+ suffix
       /\ (suffix = EmptyString
           \/ exists q, promotion m = Some q
                        /\ suffix = String (Py.lower_char q) EmptyString).
Proof.
  unfold Main.find_move_from_input.
  assert (Hidem : forall s, Py.lower_str (Py.lower_str s) = Py.lower_str s).
  { induction s as [|x s IH]; simpl; [reflexivity|]. rewrite lower_char_idem, IH. reflexivity. }
  pose proof (Hidem (Py.strip text)) as Hfix.
  destruct (Py.lower_str (Py.strip text)) as [|a [|b [|c [|d rest]]]] eqn:Etext; try discriminate.
  cbv zeta.
  assert (Hcase : forall promo,
            match square_to_index (String a (String b EmptyString)),
                  square_to_index (String c (String d EmptyString)) with
            | Some from_sq, Some to_sq =>
                List.find
                  (fun move =>
                     (from_square move =? from_sq) && (to_square move =? to_sq)
                     && match promo with
                        | None => true
                        | Some p =>
                            match promotion move with
                            | Some q => Ascii.eqb (Py.lower_char q) (Py.lower_char p)
                            | None => false
                            end
                        end)
                  legal
            | _, _ => None
            end = Some m ->
            In m legal /\ 0 <= from_square m < 64 /\ 0 <= to_square m < 64
            /\ index_to_square (from_square m) = String a (String b EmptyString)
            /\ index_to_square (to_square m) = String c (String d EmptyString)
            /\ match promo with
               | None => True
               | Some p => exists q, promotion m = Some q /\ Py.lower_char q = Py.lower_char p
               end).
  { intros promo.
    destruct (square_to_index (String a (String b EmptyString))) as [from_sq|] eqn:Ef;
      [|discriminate].
    destruct (square_to_index (String c (String d EmptyString))) as [to_sq|] eqn:Et;
      [|discriminate].
    intros H. apply find_move_matching in H as (Hin & <- & <- & Hp).
    apply square_index_name in Ef as [Hf Hfn]. apply square_index_name in Et as [Ht Htn].
    auto 10. }
  destruct rest as [|e [|]]; try discriminate.
  - intros H. apply (Hcase None) in H as (Hin & Hf & Ht & -> & -> & _).
    split; [exact Hin|]. split; [exact Hf|]. split; [exact Ht|].
    exists EmptyString. split; [reflexivity|]. left. reflexivity.
  - intros H. apply (Hcase (Some e)) in H as (Hin & Hf & Ht & -> & -> & q & Hq & Heq).
    split; [exact Hin|]. split; [exact Hf|]. split; [exact Ht|].
    exists (String e EmptyString). split; [reflexivity|]. right. exists q. split; [exact Hq|].
    rewrite Heq. simpl in Hfix. injection Hfix as _ _ _ _ ->. reflexivity.
Qed.

Lemma find_move_from_input_sound_witness :
  let m := mkMove 52 36 None false false None in
  exists suffix,
    Py.lower_str (Py.strip "  E2e4 ") = index_to_square 52 +:+ index_to_square 36 +:+ suffix.
Proof.
  intros m.
  destruct (find_move_from_input_sound "  E2e4 " [mkMove 12 28 None false false None; m] m)
    as (_ & _ & _ & suffix & Htext & _); [vm_compute; reflexivity|].
  exists suffix. exact Htext.
Defined.

Lemma strip_squares f1 r1 f2 r2 suffix :
  Py.isspace f1 = false -> Py.isspace r2 = false ->
  (suffix = EmptyString \/ exists p, suffix = String p EmptyString /\ Py.isspace p = false) ->
  Py.strip (String f1 (String r1 (String f2 (String r2 suffix))))
  = String f1 (String r1 (String f2 (String r2 suffix))).
Proof.
  intros Hf1 Hr2 Hs. unfold Py.strip. cbn [Py.lstrip]. rewrite Hf1.
  destruct Hs as [-> | (p & -> & Hp)]; cbn [Py.rstrip]; rewrite ?Hp, ?Hr2; reflexivity.
Qed.

(** X24.  The parser understands the engine's own notation: for a move of
    the list with squares on the board and no promotion or one of Q, R, B,
    N, [find_move_from_input] applied to [str(move)] returns a move of the
    list with the same two squares and, for a promotion, the same promotion
    piece up to case. *)
Theorem find_move_from_input_echo (legal : list Move) (m : Move) :
  In m legal ->
  0 <= from_square m < 64 -> 0 <= to_square m < 64 ->
  (promotion m = None \/ exists p, promotion m = Some p /\ In p PROMOTIONS) ->
  exists m',
    Main.find_move_from_input (Move_str m) legal = Some m'
    /\ In m' legal
    /\ from_square m' = from_square m /\ to_square m' = to_square m
    /\ (forall p, promotion m = Some p ->
                  exists q, promotion m' = Some q /\ Py.lower_char q = Py.lower_char p).
Proof.
  intros Hin Hf Ht Hpromo.
  destruct (square_name _ Hf) as (f1 & r1 & Hn1 & Hs1 & _ & Hl1 & Hl1').
  destruct (square_name _ Ht) as (f2 & r2 & Hn2 & _ & Hs2 & Hl2 & Hl2').
  pose proof (index_square_name _ Hf) as Hi1.
  pose proof (index_square_name _ Ht) as Hi2.
  rewrite Hn1 in Hi1. rewrite Hn2 in Hi2.
  unfold Main.find_move_from_input, Move_str. rewrite Hn1, Hn2.
  assert (Hfound : forall promo,
            (match promo with
             | None => true
             | Some p => match promotion m with
                         | Some q => Ascii.eqb (Py.lower_char q) (Py.lower_char p)
                         | None => false
                         end
             end = true) ->
            exists m',
              List.find
                (fun move =>
                   (from_square move =? from_square m) && (to_square move =? to_square m)
                   && match promo with
                      | None => true
                      | Some p =>
                          match promotion move with
                          | Some q => Ascii.eqb (Py.lower_char q) (Py.lower_char p)
                          | None => false
                          end
                      end)
                legal = Some m'
              /\ In m' legal
              /\ from_square m' = from_square m /\ to_square m' = to_square m
              /\ match promo with
                 | None => True
                 | Some p => exists q, promotion m' = Some q
                                       /\ Py.lower_char q = Py.lower_char p
                 end).
  { intros promo Hok.
    destruct (List.find _ legal) as [m'|] eqn:Efind.
    - exists m'. split; [reflexivity|]. apply find_move_matching in Efind. exact Efind.
    - exfalso. pose proof (find_none _ _ Efind m Hin) as Hnone. cbv beta in Hnone.
      rewrite !Z.eqb_refl, Hok in Hnone. discriminate Hnone. }
  destruct Hpromo as [Hnone | (p & Hp & Hpiece)]; rewrite ?Hnone, ?Hp.
  - change (String f1 (String r1 "") +:+ String f2 (String r2 "") +:+ "")
      with (String f1 (String r1 (String f2 (String r2 "")))).
    rewrite strip_squares by auto. cbn [Py.lower_str]. rewrite Hl1, Hl1', Hl2, Hl2'.
    cbv zeta. rewrite Hi1, Hi2.
    destruct (Hfound None eq_refl) as (m' & -> & Hin' & Hf' & Ht' & _).
    exists m'. repeat split; try assumption. intros q Hq. congruence.
  - destruct (promotion_piece p Hpiece) as [Hsp _].
    change (String f1 (String r1 "") +:+ String f2 (String r2 "") +:+ String p "")
      with (String f1 (String r1 (String f2 (String r2 (String p ""))))).
    rewrite strip_squares by eauto. cbn [Py.lower_str]. rewrite Hl1, Hl1', Hl2, Hl2'.
    cbv zeta. rewrite Hi1, Hi2.
    destruct (Hfound (Some (Py.lower_char p))) as (m' & -> & Hin' & Hf' & Ht' & q & Hq & Heq).
    { rewrite Hp, lower_char_idem. apply Ascii.eqb_refl. }
    exists m'. repeat split; try assumption. intros p' Hp'.
    assert (p' = p) as -> by congruence.
    exists q. split; [exact Hq|]. rewrite Heq. apply lower_char_idem.
Qed.

Lemma find_move_from_input_echo_witness :
  let m := mkMove 8 0 (Some "N"%char) false false None in
  let legal := [mkMove 8 0 (Some "Q"%char) false false None; m] in
  Move_str m = "a7a8N"
  /\ exists m', Main.find_move_from_input "a7a8N" legal = Some m'
                /\ from_square m' = 8 /\ to_square m' = 0.
Proof.
  intros m legal. split; [reflexivity|].
  assert (Hin : In m legal) by (simpl; tauto).
  assert (Hpromo : promotion m = None \/ exists p, promotion m = Some p /\ In p PROMOTIONS).
  { right. exists "N"%char. simpl. tauto. }
  destruct (find_move_from_input_echo legal m Hin ltac:(simpl; lia) ltac:(simpl; lia) Hpromo)
    as (m' & Hfind & _ & Hf & Ht & _).
  exists m'. split; [exact Hfind|]. split; assumption.
Defined.

(** ** Position: FEN and the end of the game *)

(** X25.  A position built from a well-formed board field, an en-passant
    target on the board (or none) and clocks of at most 4300 digits (the
    most that Python prints) prints that field again: [to_fen] gives the
    board field, the side, the castling rights (["-"] when there are none),
    the name of the en-passant square (["-"] when there is none) and the two
    clocks, separated by single spaces. *)
Theorem to_fen_of_position (s : string) (side : color) (castling : string) (ep : option Z)
    (halfmove fullmove : Z) (st : GameState) :
  well_formed_board_fen s = true ->
  (forall e, ep = Some e -> 0 <= e < 64) ->
  Z.abs halfmove < 10 ^ 4300 -> Z.abs fullmove < 10 ^ 4300 ->
  position s side castling ep halfmove fullmove = Some st ->
  GameState.to_fen st
  = s +:+ " " +:+ color_str side +:+ " "
      +:+ (if String.eqb castling "-" || String.eqb castling "" then "-" else castling)
      +:+ " " +:+ match ep with None => "-" | Some e => index_to_square e end
      +:+ " " +:+ Py.str halfmove +:+ " " +:+ Py.str fullmove.
Proof.
  intros Hwf _ _ _ Hpos. destruct (to_fen_from_fen s Hwf) as (b & Hb & Hfen).
  unfold position in Hpos. rewrite Hb in Hpos. cbn [mbind option_bind] in Hpos.
  injection Hpos as <-. unfold GameState.to_fen, GameState.init, GameState.update_repetition.
  cbn [fst GameState.with_repetition board side_to_move castling_rights en_passant
       halfmove_clock fullmove_number]. cbv zeta. rewrite Hfen.
  destruct (String.eqb_spec castling "-") as [->|Hdash]; [reflexivity|].
  cbn [orb]. reflexivity.
Qed.

Lemma to_fen_of_position_witness :
  GameState.to_fen start = "rnbqkbnr/pppppppp/8/8/8/8/PPPPPPPP/RNBQKBNR w KQkq - 0 1".
Proof.
  apply (to_fen_of_position START_FEN White "KQkq" None 0 1 start);
    try reflexivity; discriminate.
Defined.

(** X27.  On a well-formed position [legal_moves_available] does not raise,
    leaves the position unchanged, and answers [True] exactly when some
    pseudo-legal move can be made without leaving the mover's king in
    check. *)
Theorem legal_moves_available_iff (st : GameState) :
  valid st ->
  exists answer,
    legal_moves_available st = Some (answer, st)
    /\ (answer = true
        <-> exists m st1,
              In m (MoveGen.generate_pseudo_legal_moves st)
              /\ GameState.make_move st m = Some st1
              /\ GameState.is_in_check st1 (side_to_move st) = Some false).
Proof.
  intros Hvalid. unfold legal_moves_available.
  rewrite (legal_moves_valid st Hvalid). cbn [mbind option_bind].
  eexists. split; [reflexivity|].
  assert (Hlen : length (board st) = 64%nat) by apply Hvalid.
  destruct (List.filter _ _) as [|m legal] eqn:Efilter.
  - split; [discriminate|]. intros (m & st1 & Hin & Hmove & Hcheck). exfalso.
    assert (Hm : In m []); [|contradiction].
    rewrite <- Efilter. apply filter_In. split; [exact Hin|]. unfold keeps_king_safe.
    rewrite (make_move_generated st m Hlen (pseudo_legal_generated st m Hlen Hin)) in Hmove.
    injection Hmove as <-. rewrite Hcheck. reflexivity.
  - split; [|reflexivity]. intros _.
    assert (Hm : In m (m :: legal)) by (left; reflexivity).
    rewrite <- Efilter in Hm. apply filter_In in Hm as [Hin Hsafe].
    exists m, (after_move st m). split; [exact Hin|].
    split; [apply make_move_generated; [exact Hlen|apply pseudo_legal_generated; assumption]|].
    unfold keeps_king_safe in Hsafe.
    destruct (GameState.is_in_check (after_move st m) (side_to_move st)) as [[|]|];
      try discriminate. reflexivity.
Qed.

Lemma legal_moves_available_iff_witness :
  legal_moves_available start = Some (true, start).
Proof.
  destruct (legal_moves_available_iff start start_valid) as (answer & Hanswer & Hiff).
  rewrite Hanswer. f_equal. f_equal. apply Hiff.
  exists (mkMove 52 36 None false false None),
         (after_move start (mkMove 52 36 None false false None)).
  split; [vm_compute; tauto|]. split; vm_compute; reflexivity.
Defined.

(** ** Reading a FEN *)

(** *** Words *)

Lemma append_empty_r s : s +:+ EmptyString = s.
Proof. induction s as [|c s IH]; simpl; [reflexivity|]. rewrite IH. reflexivity. Qed.

Lemma no_space_app a b : no_space (a +:+ b) = no_space a && no_space b.
Proof.
  induction a as [|c a IH]; simpl; [reflexivity|]. rewrite IH, andb_assoc. reflexivity.
Qed.

Lemma rstrip_no_space s : no_space s = true -> Py.rstrip s = s.
Proof.
  induction s as [|c s IH]; [reflexivity|]. cbn [no_space Py.rstrip]. intros H.
  apply andb_true_iff in H as [Hc Hs]. rewrite (IH Hs).
  apply negb_true_iff in Hc. rewrite Hc. destruct s; reflexivity.
Qed.

Lemma rstrip_app a s : Py.rstrip s = s -> s <> EmptyString -> Py.rstrip (a +:+ s) = a +:+ s.
Proof.
  intros Hs Hne. induction a as [|c a IH]; [exact Hs|].
  change (String c a +:+ s) with (String c (a +:+ s)). cbn [Py.rstrip]. rewrite IH.
  destruct (a +:+ s) eqn:E; [|reflexivity].
  destruct a; [|discriminate E]. simpl in E. contradiction.
Qed.

Lemma strip_no_space s : no_space s = true -> Py.strip s = s.
Proof.
  intros H. unfold Py.strip.
  assert (Hl : Py.lstrip s = s).
  { destruct s as [|c s]; [reflexivity|]. simpl in H |- *.
    apply andb_true_iff in H as [Hc _]. apply negb_true_iff in Hc. rewrite Hc. reflexivity. }
  rewrite Hl. apply rstrip_no_space, H.
Qed.

Lemma words_word w s :
  no_space w = true ->
  Py.words (w +:+ s) = (w +:+ fst (Py.words s), snd (Py.words s)).
Proof.
  induction w as [|c w IH]; [intros _; change (EmptyString +:+ s) with s; destruct (Py.words s); reflexivity|].
  cbn [no_space]. intros H. apply andb_true_iff in H as [Hc Hw]. apply negb_true_iff in Hc.
  change (String c w +:+ s) with (String c (w +:+ s)). cbn [Py.words].
  rewrite (IH Hw), Hc. reflexivity.
Qed.

Lemma words_join fields :
  Forall is_word fields -> fields <> [] ->
  Py.words (Py.join " " fields) = (hd EmptyString fields, tl fields).
Proof.
  induction 1 as [|p rest [Hp Hne] Hrest IH]; [contradiction|]. intros _.
  destruct rest as [|q rest].
  - cbn [Py.join hd tl]. rewrite <- (append_empty_r p) at 1.
    rewrite (words_word p EmptyString Hp). simpl. rewrite append_empty_r. reflexivity.
  - change (Py.join " " (p :: q :: rest)) with (p +:+ String " " (Py.join " " (q :: rest))).
    rewrite (words_word p _ Hp). cbn [Py.words].
    rewrite (IH ltac:(discriminate)). cbn [hd tl fst snd].
    change (Py.isspace " ") with true. cbn [fst snd]. rewrite append_empty_r.
    apply Forall_cons_1 in Hrest as [[_ Hq] _].
    destruct q; [contradiction|reflexivity].
Qed.

Lemma join_is_word_end fields :
  Forall is_word fields -> fields <> [] ->
  Py.rstrip (Py.join " " fields) = Py.join " " fields /\ Py.join " " fields <> EmptyString.
Proof.
  induction 1 as [|p rest [Hp Hne] Hrest IH]; [contradiction|]. intros _.
  destruct rest as [|q rest].
  - cbn [Py.join]. split; [apply rstrip_no_space, Hp|exact Hne].
  - change (Py.join " " (p :: q :: rest)) with (p +:+ String " " (Py.join " " (q :: rest))).
    destruct (IH ltac:(discriminate)) as [Hfix Hnonempty]. split.
    + apply rstrip_app; [|discriminate].
      apply (rstrip_app (String " " EmptyString) _ Hfix Hnonempty).
    + destruct p; [contradiction|discriminate].
Qed.

(** The fields of a line of words separated by single spaces. *)
Lemma split_fields fields :
  Forall is_word fields -> fields <> [] ->
  Py.split_ws (Py.strip (Py.join " " fields)) = fields.
Proof.
  intros Hall Hne.
  assert (Hstrip : Py.strip (Py.join " " fields) = Py.join " " fields).
  { unfold Py.strip.
    assert (Hl : Py.lstrip (Py.join " " fields) = Py.join " " fields).
    { destruct Hall as [|p rest [Hp Hp'] Hrest]; [contradiction|].
      destruct p as [|c p]; [contradiction|]. cbn [no_space] in Hp.
      apply andb_true_iff in Hp as [Hc _]. apply negb_true_iff in Hc.
      destruct rest; cbn; rewrite Hc; reflexivity. }
    rewrite Hl. apply join_is_word_end; assumption. }
  rewrite Hstrip. unfold Py.split_ws. rewrite (words_join fields Hall Hne).
  destruct Hall as [|p rest [Hp Hp'] Hrest]; [contradiction|]. cbn [hd tl].
  destruct p; [contradiction|reflexivity].
Qed.

(** *** Integers *)

(** Evaluate the tests of [int_digits] on a digit. *)
Ltac eval_digit :=
  repeat match goal with
    | |- context [Py.between 48 57 ?c] =>
        let v := eval vm_compute in (Py.between 48 57 c) in
        change (Py.between 48 57 c) with v
    | |- context [Py.code ?c - 48] =>
        let v := eval vm_compute in (Py.code c - 48) in
        change (Py.code c - 48) with v
    end.

Lemma int_digits_acc d : forall acc : positive,
  Py.int_digits (Z.pos acc) true (NilEmpty.string_of_uint d)
  = Some (Z.pos (Pos.of_uint_acc d acc)).
Proof.
  induction d as [|d IH|d IH|d IH|d IH|d IH|d IH|d IH|d IH|d IH|d IH]; intros acc;
    [reflexivity|..];
    cbn [NilEmpty.string_of_uint Py.int_digits Pos.of_uint_acc]; eval_digit; cbv iota;
    rewrite <- IH; f_equal; lia.
Qed.

Lemma int_digits_zero d : forall after_digit : bool,
  d <> Decimal.Nil \/ after_digit = true ->
  Py.int_digits 0 after_digit (NilEmpty.string_of_uint d) = Some (Z.of_N (Pos.of_uint d)).
Proof.
  induction d as [|d IH|d IH|d IH|d IH|d IH|d IH|d IH|d IH|d IH|d IH]; intros b Hb.
  - destruct Hb as [Hb | ->]; [contradiction|reflexivity].
  - cbn [NilEmpty.string_of_uint Py.int_digits Pos.of_uint]. eval_digit. cbv iota.
    apply IH. right. reflexivity.
  - cbn [NilEmpty.string_of_uint Py.int_digits Pos.of_uint]. eval_digit. cbv iota.
    apply (int_digits_acc d 1).
  - cbn [NilEmpty.string_of_uint Py.int_digits Pos.of_uint]. eval_digit. cbv iota.
    apply (int_digits_acc d 2).
  - cbn [NilEmpty.string_of_uint Py.int_digits Pos.of_uint]. eval_digit. cbv iota.
    apply (int_digits_acc d 3).
  - cbn [NilEmpty.string_of_uint Py.int_digits Pos.of_uint]. eval_digit. cbv iota.
    apply (int_digits_acc d 4).
  - cbn [NilEmpty.string_of_uint Py.int_digits Pos.of_uint]. eval_digit. cbv iota.
    apply (int_digits_acc d 5).
  - cbn [NilEmpty.string_of_uint Py.int_digits Pos.of_uint]. eval_digit. cbv iota.
    apply (int_digits_acc d 6).
  - cbn [NilEmpty.string_of_uint Py.int_digits Pos.of_uint]. eval_digit. cbv iota.
    apply (int_digits_acc d 7).
  - cbn [NilEmpty.string_of_uint Py.int_digits Pos.of_uint]. eval_digit. cbv iota.
    apply (int_digits_acc d 8).
  - cbn [NilEmpty.string_of_uint Py.int_digits Pos.of_uint]. eval_digit. cbv iota.
    apply (int_digits_acc d 9).
Qed.

Lemma no_space_uint d : no_space (NilEmpty.string_of_uint d) = true.
Proof.
  induction d as [|d IH|d IH|d IH|d IH|d IH|d IH|d IH|d IH|d IH|d IH];
    [reflexivity|..]; cbn [NilEmpty.string_of_uint no_space]; rewrite IH; reflexivity.
Qed.

Lemma string_of_positive p :
  NilZero.string_of_uint (Pos.to_uint p) = NilEmpty.string_of_uint (Pos.to_uint p)
  /\ exists c rest, NilEmpty.string_of_uint (Pos.to_uint p) = String c rest
                    /\ Py.between 48 57 c = true.
Proof.
  pose proof (Unsigned.to_uint_nonnil p) as Hne.
  destruct (Pos.to_uint p); try contradiction; (split; [reflexivity|]);
    eexists; eexists; (split; [reflexivity|reflexivity]).
Qed.

Lemma str_is_word z : is_word (Py.str z).
Proof.
  unfold is_word, Py.str. destruct z as [|p|p]; [split; [reflexivity|discriminate]|..];
    destruct (string_of_positive p) as (Heq & c & rest & Hs & _); cbn [Z.to_int NilZero.string_of_int];
    rewrite Heq.
  - split; [apply no_space_uint|]. rewrite Hs. discriminate.
  - split; [|discriminate]. cbn [no_space]. rewrite no_space_uint. reflexivity.
Qed.

(** [int(str(n)) == n]. *)
Lemma int_str z : Py.int (Py.str z) = Some z.
Proof.
  unfold Py.int. rewrite (strip_no_space _ (proj1 (str_is_word z))).
  unfold Py.str. destruct z as [|p|p]; [reflexivity|..];
    destruct (string_of_positive p) as (Heq & c & rest & Hs & Hc);
    cbn [Z.to_int NilZero.string_of_int]; rewrite Heq.
  - assert (Hval : Py.int_digits 0 false (NilEmpty.string_of_uint (Pos.to_uint p))
                   = Some (Z.pos p)).
    { rewrite int_digits_zero by (left; apply Unsigned.to_uint_nonnil).
      rewrite Unsigned.of_to. reflexivity. }
    rewrite Hs in *.
    destruct c as [[] [] [] [] [] [] [] []]; try discriminate Hc; exact Hval.
  - cbv iota beta. change (Ascii.eqb "-" "+") with false.
    rewrite int_digits_zero by (left; apply Unsigned.to_uint_nonnil).
    rewrite Unsigned.of_to. reflexivity.
Qed.

(** *** The fields that [to_fen] writes *)

Lemma piece_letter_no_space c :
  piece_letter c = true -> Py.isspace c = false /\ cell_char c = true.
Proof.
  destruct c as [[] [] [] [] [] [] [] []]; intros H; vm_compute in H; try discriminate H;
    split; reflexivity.
Qed.

Lemma no_space_fen_row row : forall e,
  forallb piece_letter row = true -> no_space (Board.fen_row_from e row) = true.
Proof.
  assert (Hcount : forall e, no_space (if e =? 0 then EmptyString else Py.str e) = true).
  { intros e. destruct (e =? 0); [reflexivity|apply str_is_word]. }
  induction row as [|p row IH]; intros e; cbn [forallb Board.fen_row_from].
  - intros _. apply Hcount.
  - intros H. apply andb_true_iff in H as [Hp Hrow].
    destruct (Ascii.eqb p EMPTY); [apply IH, Hrow|].
    rewrite no_space_app, Hcount. cbn [no_space andb].
    rewrite (proj1 (piece_letter_no_space p Hp)), (IH 0 Hrow). reflexivity.
Qed.

Lemma no_space_join_rows rows :
  Forall (fun r => no_space r = true) rows -> no_space (Py.join "/" rows) = true.
Proof.
  induction 1 as [|r rows Hr _ IH]; [reflexivity|].
  destruct rows as [|q rows]; [exact Hr|].
  change (Py.join "/" (r :: q :: rows)) with (r +:+ String "/" (Py.join "/" (q :: rows))).
  rewrite no_space_app, Hr. cbn [no_space andb]. rewrite IH. reflexivity.
Qed.

Lemma append_not_empty a c b : a +:+ String c b <> EmptyString.
Proof. destruct a; discriminate. Qed.

Lemma board_fen_is_word b :
  forallb piece_letter b = true -> is_word (Board.to_fen b).
Proof.
  intros Hb. unfold Board.to_fen. split.
  - apply no_space_join_rows, Forall_map, Forall_forall. intros r _. simpl.
    unfold Board.fen_row, Board.row_slice.
    apply no_space_fen_row, forallb_firstn, forallb_skipn, Hb.
  - cbn [seq map]. cbn [Py.join]. apply append_not_empty.
Qed.

Lemma square_is_word e :
  0 <= e < 64 ->
  is_word (index_to_square e)
  /\ String.eqb (index_to_square e) "-" = false
  /\ square_to_index (index_to_square e) = Some e.
Proof.
  intros He. destruct (square_name e He) as (f & r & Hn & Hf & Hr & _).
  split; [|split].
  - rewrite Hn. split; [|discriminate]. cbn [no_space]. rewrite Hf, Hr. reflexivity.
  - rewrite Hn. apply String.eqb_neq. discriminate.
  - apply index_square_name, He.
Qed.

Lemma piece_letters_cells b : forallb piece_letter b = true -> forallb cell_char b = true.
Proof.
  induction b as [|p b IH]; [reflexivity|]. cbn [forallb]. intros H.
  apply andb_true_iff in H as [Hp Hb].
  rewrite (proj2 (piece_letter_no_space p Hp)), (IH Hb). reflexivity.
Qed.

(** X28.  [GameState.from_fen] reads back what [to_fen] writes: for a
    position with a board of 64 piece letters, castling rights without
    white space (and other than ["-"]), an en-passant square on the board
    and clocks of at most 4300 digits (the most that Python prints and
    reads), [from_fen] of the position's FEN splits it into six fields,
    raises nowhere and calls the constructor with the board, the side, the
    castling rights, the en-passant square and the clocks of the position. *)
Theorem from_fen_reads_to_fen (st : GameState) :
  length (board st) = 64%nat ->
  forallb piece_letter (board st) = true ->
  no_space (castling_rights st) = true -> castling_rights st <> "-" ->
  (forall e, en_passant st = Some e -> 0 <= e < 64) ->
  Z.abs (halfmove_clock st) < 10 ^ 4300 -> Z.abs (fullmove_number st) < 10 ^ 4300 ->
  GameState.from_fen_args (GameState.to_fen st)
  = Some (board st, color_str (side_to_move st), castling_rights st, en_passant st,
          halfmove_clock st, fullmove_number st).
Proof.
  intros Hlen Hletters Hrights Hdash Hep _ _.
  unfold GameState.from_fen_args, GameState.to_fen. cbv zeta.
  set (castling := if String.eqb (castling_rights st) "" then "-" else castling_rights st).
  set (ep := match en_passant st with None => "-" | Some e => index_to_square e end).
  change (Board.to_fen (board st) +:+ " " +:+ color_str (side_to_move st) +:+ " "
            +:+ castling +:+ " " +:+ ep +:+ " " +:+ Py.str (halfmove_clock st) +:+ " "
            +:+ Py.str (fullmove_number st))
    with (Py.join " " [Board.to_fen (board st); color_str (side_to_move st); castling; ep;
                       Py.str (halfmove_clock st); Py.str (fullmove_number st)]).
  assert (Hcastling : is_word castling
                      /\ (if String.eqb castling "-" then "" else castling) = castling_rights st).
  { unfold castling. destruct (String.eqb_spec (castling_rights st) "") as [->|Hne].
    - split; [split; [reflexivity|discriminate]|reflexivity].
    - split; [split; assumption|].
      destruct (String.eqb_spec (castling_rights st) "-"); [contradiction|reflexivity]. }
  assert (Hsquare : is_word ep
                    /\ (if String.eqb ep "-" then Some None
                        else option_map Some (square_to_index ep)) = Some (en_passant st)).
  { unfold ep. destruct (en_passant st) as [e|] eqn:Ee.
    - destruct (square_is_word e (Hep e eq_refl)) as (Hw & -> & ->). split; [exact Hw|reflexivity].
    - split; [split; [reflexivity|discriminate]|reflexivity]. }
  destruct Hcastling as [Hcw Hcastling]. destruct Hsquare as [Hew Hsquare].
  rewrite split_fields.
  - rewrite (from_fen_to_fen _ Hlen (piece_letters_cells _ Hletters)).
    cbn [mbind option_bind]. rewrite Hcastling, Hsquare. cbn [mbind option_bind].
    rewrite !int_str. reflexivity.
  - constructor; [apply board_fen_is_word; assumption|].
    constructor; [destruct (side_to_move st); (split; [reflexivity|discriminate])|].
    constructor; [exact Hcw|]. constructor; [exact Hew|].
    constructor; [apply str_is_word|]. constructor; [apply str_is_word|]. constructor.
  - discriminate.
Qed.

Lemma from_fen_reads_to_fen_witness :
  GameState.from_fen_args "rnbqkbnr/pppppppp/8/8/8/8/PPPPPPPP/RNBQKBNR w KQkq - 0 1"
  = Some (board start, "w", "KQkq", None, 0, 1).
Proof.
  apply (from_fen_reads_to_fen start); try reflexivity; discriminate.
Defined.
